(** * AI Studio backend: application manager and llama.cpp inference provider

    A shallow embedding of
    - [packages/backend/src/workers/provider/LlamaCppPython.ts]
    - [packages/backend/src/managers/applicationManager.ts]
    together with the properties of the specification that concern them.

    JavaScript objects used as string-keyed dictionaries ([Record<string,
    string>], label mappings) are [gmap string string]; optional fields and
    [undefined] are [option]; a [number] that only ever holds an integer is
    [Z]; [throw new Error(msg)] is the [Throw] result. *)

From Stdlib Require Import ZArith Lia Ascii String.
From stdpp Require Import gmap strings list fin_maps pretty.

Local Open Scope string_scope.
Local Open Scope list_scope.
Local Open Scope Z_scope.
Local Open Scope stdpp_scope.

(** ** Values shared by both source files *)

(** [new Error(message)] *)
Inductive Error : Type := mkError (message : string).

(** Outcome of a call that may throw. *)
Inductive Result (A : Type) : Type :=
| Ok (a : A)
| Throw (e : Error).
Arguments Ok {A} a.
Arguments Throw {A} e.

Definition isOk {A} (r : Result A) : bool :=
  match r with Ok _ => true | Throw _ => false end.

(** Truthiness of an optional object ([if (x)], [x ? a : b]). *)
Definition defined {A} (o : option A) : bool :=
  match o with Some _ => true | None => false end.

(** The double quote character, for the one shell command that contains it. *)
Definition dquote : string := String (Ascii.ascii_of_nat 34) EmptyString.

(** Template-literal rendering of a number, [`${n}`]. *)
Definition numberToString (n : Z) : string := pretty n.

(** [`${x}`] for an optional number: [undefined] prints as its name. *)
Definition optNumberToString (n : option Z) : string :=
  match n with Some z => numberToString z | None => "undefined" end.

(** [ModelInfo] and its optional [file] (shared/src/models/IModelInfo):
    only the fields the two files read. *)
Record LocalModelInfo : Type := {
  lm_file : string;   (* file.file *)
  lm_path : string;   (* file.path *)
}.

Record ModelInfo : Type := {
  mi_id : string;
  mi_file : option LocalModelInfo;
}.

(** Engine-facing container options ([@podman-desktop/api]); every field
    that either file leaves out is optional. *)
Record Mount : Type := {
  Target : string;
  Source : string;
  Type_ : string;
  Mode : option string;
}.

Record DeviceRequest : Type := {
  Capabilities : list (list string);
  Count : Z;
}.

Record Device : Type := {
  PathOnHost : string;
  PathInContainer : string;
  CgroupPermissions : string;
}.

Record HostConfig : Type := {
  AutoRemove : option bool;
  Devices : option (list Device);
  Mounts : option (list Mount);
  DeviceRequests : option (list DeviceRequest);
  SecurityOpt : option (list string);
  (* container port ↦ the host ports bound to it *)
  PortBindings : option (list (string * list string));
}.

Record HealthConfig : Type := {
  Test : list string;
  Interval : Z;
  Retries : Z;
  Timeout : option Z;
}.

Record ContainerCreateOptions : Type := {
  Image : string;
  name : option string;
  Detach : bool;
  Entrypoint : option string;
  User : option string;
  ExposedPorts : option (list string);
  HostConfig_ : option HostConfig;
  HealthCheck : option HealthConfig;
  Labels : option (gmap string string);
  Env : list string;
  Cmd : option (list string);
  start : option bool;
  pod : option string;
}.

(** [export const SECOND: number = 1_000_000_000;] *)
Definition SECOND : Z := 1000000000.

(** ** workers/provider/LlamaCppPython.ts *)

Module LlamaCppPython.

Definition LLAMA_CPP_CPU : string := "ghcr.io/containers/llamacpp_python:latest".
Definition LLAMA_CPP_CUDA : string := "ghcr.io/containers/llamacpp_python_cuda:latest".

(** [InferenceServerConfig] (shared/src/models/InferenceServerConfig). *)
Record InferenceServerConfig : Type := {
  port : Z;
  providerId : option string;
  image : option string;
  labels : gmap string string;
  modelsInfo : list ModelInfo;
  gpuLayers : option Z;
}.

(** Engine [ImageInfo]: the fields read here. *)
Record ImageInfo : Type := {
  Id : string;
  engineId : string;
}.

Record IGPUInfo : Type := {
  model : string;
}.

Record BetterContainerCreateResult : Type := {
  cr_id : string;
  cr_engineId : string;
}.

(** The mount, device request and device added on the GPU branch, and the
    command that links the driver libraries before the normal launch. *)
Definition wslMount : Mount :=
  {| Target := "/usr/lib/wsl"; Source := "/usr/lib/wsl"; Type_ := "bind"; Mode := None |}.

Definition gpuDeviceRequest : DeviceRequest :=
  {| Capabilities := [["gpu"]]; Count := -1 |}.

Definition dxgDevice : Device :=
  {| PathOnHost := "/dev/dxg"; PathInContainer := "/dev/dxg"; CgroupPermissions := "r" |}.

Definition gpuCmd : list string :=
  [ "-c";
    "/usr/bin/ln -s /usr/lib/wsl/lib/* /usr/lib64/ && PATH=" +:+ dquote
      +:+ "${PATH}:/usr/lib/wsl/lib/" +:+ dquote
      +:+ " && chmod 755 ./run.sh && ./run.sh" ].

Definition modelsMount (f : LocalModelInfo) : Mount :=
  {| Target := "/models"; Source := lm_path f; Type_ := "bind"; Mode := None |}.

Section Provider.

(** Constants and helpers imported from files outside the two sources. *)
Variable getModelPropertiesForEnvironment : ModelInfo -> list string.
Variable DISABLE_SELINUX_LABEL_SECURITY_OPTION : string.
Variable LABEL_INFERENCE_SERVER : string.
(** [JSON.stringify] on an array of strings. *)
Variable JSON_stringify : list string -> string.

Definition getContainerCreateOptions
    (config : InferenceServerConfig) (imageInfo : ImageInfo) (gpu : option IGPUInfo)
  : Result ContainerCreateOptions :=
  if (length (modelsInfo config) =? 0)%nat then
    Throw (mkError "Need at least one model info to start an inference server.")
  else if (1 <? length (modelsInfo config))%nat then
    Throw (mkError "Currently the inference server does not support multiple models serving.")
  else
    match modelsInfo config with
    | [] => Throw (mkError "Need at least one model info to start an inference server.")
    | modelInfo :: _ =>
      match mi_file modelInfo with
      | None => Throw (mkError "The model info file provided is undefined")
      | Some file =>
        let envs :=
          ["MODEL_PATH=/models/" +:+ lm_file file; "HOST=0.0.0.0"; "PORT=8000"]
            ++ getModelPropertiesForEnvironment modelInfo in
        let mounts := [modelsMount file] in
        (* if (gpu) { ... } *)
        let mounts := if defined gpu then mounts ++ [wslMount] else mounts in
        let deviceRequests := if defined gpu then [gpuDeviceRequest] else [] in
        let devices := if defined gpu then [dxgDevice] else [] in
        let entrypoint := if defined gpu then Some "/usr/bin/sh" else None in
        let envs :=
          if defined gpu then envs ++ ["GPU_LAYERS=" +:+ optNumberToString (gpuLayers config)]
          else envs in
        let user := if defined gpu then Some "0" else None in
        let cmd := if defined gpu then gpuCmd else [] in
        Ok {| Image := Id imageInfo;
              name := None;
              Detach := true;
              Entrypoint := entrypoint;
              User := user;
              ExposedPorts := Some [numberToString (port config)];
              HostConfig_ := Some
                {| AutoRemove := Some false;
                   Devices := Some devices;
                   Mounts := Some mounts;
                   DeviceRequests := Some deviceRequests;
                   SecurityOpt := Some [DISABLE_SELINUX_LABEL_SECURITY_OPTION];
                   PortBindings := Some [("8000/tcp", [numberToString (port config)])] |};
              HealthCheck := Some
                {| Test := ["CMD-SHELL"; "curl -sSf localhost:8000/docs > /dev/null"];
                   Interval := SECOND * 5;
                   Retries := 4 * 5;
                   Timeout := None |};
              Labels := Some
                (<[LABEL_INFERENCE_SERVER := JSON_stringify (map mi_id (modelsInfo config))]>
                   (labels config));
              Env := envs;
              Cmd := Some cmd;
              start := None;
              pod := None |}
      end
    end.

(** What [perform] does to its collaborators, in order. *)
Inductive Event : Type :=
| EvCollectGPUs
| EvWarn (msg : string)
| EvPullImage (providerId : option string) (image : string) (labels : gmap string string)
| EvCreateContainer (engineId : string) (options : ContainerCreateOptions)
                    (labels : gmap string string).

(** The collaborators of the provider: GPU enumeration ([GPUManager]) and
    the two engine operations inherited from [InferenceProvider]. *)
Variable collectGPUs : Result (list IGPUInfo).
Variable pullImage : option string -> string -> gmap string string -> Result ImageInfo.
Variable createContainer :
  string -> ContainerCreateOptions -> gmap string string -> Result BetterContainerCreateResult.

Definition enabled : bool := true.

(** The first half of [perform]: the GPU to use, if any. *)
Definition selectGPU (config : InferenceServerConfig)
  : Result (option IGPUInfo) * list Event :=
  (* (config.gpuLayers ?? 0) !== 0 *)
  if negb (default 0 (gpuLayers config) =? 0) then
    match collectGPUs with
    | Throw e => (Throw e, [EvCollectGPUs])
    | Ok gpus =>
      match gpus with
      | [] => (Throw (mkError "no gpu was found."), [EvCollectGPUs])
      | g0 :: rest =>
        let warn :=
          if (1 <? length gpus)%nat then
            [EvWarn ("found " +:+ pretty (length gpus)
                       +:+ " gpus: using multiple GPUs is not supported. Using "
                       +:+ model g0 +:+ ".")]
          else [] in
        (Ok (Some g0), EvCollectGPUs :: warn)
      end
    end
  else (Ok None, []).

Definition perform (config : InferenceServerConfig)
  : Result BetterContainerCreateResult * list Event :=
  if negb enabled then (Throw (mkError "not enabled"), [])
  else
    match selectGPU config with
    | (Throw e, tr) => (Throw e, tr)
    | (Ok gpu, tr) =>
      (* config.image ?? (gpu ? LLAMA_CPP_CUDA : LLAMA_CPP_CPU) *)
      let img := default (if defined gpu then LLAMA_CPP_CUDA else LLAMA_CPP_CPU) (image config) in
      let tr := tr ++ [EvPullImage (providerId config) img (labels config)] in
      match pullImage (providerId config) img (labels config) with
      | Throw e => (Throw e, tr)
      | Ok imageInfo =>
        match getContainerCreateOptions config imageInfo gpu with
        | Throw e => (Throw e, tr)
        | Ok containerCreateOptions =>
          (createContainer (engineId imageInfo) containerCreateOptions (labels config),
           tr ++ [EvCreateContainer (engineId imageInfo) containerCreateOptions (labels config)])
        end
      end
    end.

End Provider.

End LlamaCppPython.


(** ** The provider on an example engine *)

Module LlamaCppPythonExample.
Import LlamaCppPython.

(** The images pulled, in order. *)
Definition pulledImages (tr : list Event) : list string :=
  omap (fun e => match e with EvPullImage _ img _ => Some img | _ => None end) tr.

Definition isCollectGPUs (e : Event) : bool :=
  match e with EvCollectGPUs => true | _ => false end.

Definition exampleModel : ModelInfo :=
  {| mi_id := "llama-2-7b";
     mi_file := Some {| lm_file := "llama-2-7b.gguf"; lm_path := "/home/user/models" |} |}.

Definition exampleConfig (layers : option Z) (override : option string)
  : InferenceServerConfig :=
  {| port := 35000; providerId := None; image := override; labels := ∅;
     modelsInfo := [exampleModel]; gpuLayers := layers |}.

Definition exampleProperties (m : ModelInfo) : list string := [].

Definition exampleStringify (ids : list string) : string :=
  "[" +:+ String.concat "," ids +:+ "]".

Definition examplePullImage (providerId : option string) (img : string)
    (labels : gmap string string) : Result ImageInfo :=
  Ok {| Id := "sha256:" +:+ img; engineId := "podman" |}.

Definition exampleCreateContainer (engineId : string) (options : ContainerCreateOptions)
    (labels : gmap string string) : Result BetterContainerCreateResult :=
  Ok {| cr_id := "container-1"; cr_engineId := engineId |}.

Definition examplePerform (gpus : Result (list IGPUInfo)) (config : InferenceServerConfig)
  : Result BetterContainerCreateResult * list Event :=
  perform exampleProperties "label=disable" "ai-lab-inference-server" exampleStringify
    gpus examplePullImage exampleCreateContainer config.

End LlamaCppPythonExample.

(** ** Reading the provider's log *)

Module LlamaCppPythonLog.
Import LlamaCppPython.

Definition isWarn (e : Event) : bool :=
  match e with EvWarn _ => true | _ => false end.

Definition isPullImage (e : Event) : bool :=
  match e with EvPullImage _ _ _ => true | _ => false end.

Definition isCreateContainer (e : Event) : bool :=
  match e with EvCreateContainer _ _ _ => true | _ => false end.

(** The image [perform] asks for once the GPU is settled. *)
Definition chosenImage (config : InferenceServerConfig) (gpu : option IGPUInfo) : string :=
  default (if defined gpu then LLAMA_CPP_CUDA else LLAMA_CPP_CPU) (image config).

(** Exactly one model, and it has a file. *)
Definition servable (config : InferenceServerConfig) : Prop :=
  exists m f, modelsInfo config = [m] /\ mi_file m = Some f.

End LlamaCppPythonLog.

(** ** managers/applicationManager.ts *)

Module ApplicationManager.

Definition LABEL_MODEL_ID : string := "ai-lab-model-id".
Definition LABEL_MODEL_PORTS : string := "ai-lab-model-ports".

Definition LABEL_RECIPE_ID : string := "ai-lab-recipe-id".
Definition LABEL_APP_PORTS : string := "ai-lab-app-ports".

Definition CONFIG_FILENAME : string := "ai-lab.yaml".

(** *** JavaScript built-ins used by the file *)

(** [String(err)] for an [Error]. *)
Definition String_ (e : Error) : string :=
  match e with mkError msg => "Error: " +:+ msg end.

(** A [number] that may be [NaN] ([None]). *)
Definition JSNumber : Type := option Z.

Definition jsNumberToString (n : JSNumber) : string :=
  match n with Some z => numberToString z | None => "NaN" end.

Definition digitValue (radix : Z) (c : Ascii.ascii) : option Z :=
  let n := Z.of_nat (Ascii.nat_of_ascii c) in
  let v :=
    if (48 <=? n) && (n <=? 57) then Some (n - 48)
    else if (97 <=? n) && (n <=? 122) then Some (n - 87)
    else if (65 <=? n) && (n <=? 90) then Some (n - 55)
    else None in
  match v with
  | Some d => if d <? radix then Some d else None
  | None => None
  end.

Fixpoint parseDigits (radix : Z) (s : string) (acc : option Z) : option Z :=
  match s with
  | EmptyString => acc
  | String c rest =>
    match digitValue radix c with
    | Some d => parseDigits radix rest (Some (default 0 acc * radix + d))
    | None => acc
    end
  end.

Fixpoint skipWhite (s : string) : string :=
  match s with
  | String c rest => if Ascii.is_space c then skipWhite rest else s
  | EmptyString => s
  end.

(** [parseInt(s)] without a radix: leading blanks, a sign, an optional
    [0x] prefix, then the longest run of digits; [NaN] when there is none. *)
Definition parseInt (s : string) : JSNumber :=
  let s := skipWhite s in
  let '(sign, s) :=
    match s with
    | String "-"%char r => (-1, r)
    | String "+"%char r => (1, r)
    | _ => (1, s)
    end in
  let '(radix, s) :=
    match s with
    | String "0"%char (String "x"%char r) => (16, r)
    | String "0"%char (String "X"%char r) => (16, r)
    | _ => (10, s)
    end in
  (fun n => sign * n) <$> parseDigits radix s None.

(** [arr.join(sep)] of strings. *)
Fixpoint join (sep : string) (l : list string) : string :=
  match l with
  | [] => ""
  | [x] => x
  | x :: rest => x +:+ sep +:+ join sep rest
  end.

(** *** Data *)

Record Recipe : Type := {
  recipe_id : string;
  recipe_name : string;
  recipe_repository : string;
  recipe_ref : option string;
  recipe_basedir : option string;
}.

Record GitCloneInfo : Type := {
  repository : string;
  ref : option string;
  targetDirectory : string;
}.

Record LocalRepository : Type := {
  lr_path : string;
  lr_sourcePath : string;
  lr_labels : gmap string string;
}.

Record ContainerConfig : Type := {
  cc_name : string;
  cc_arch : list string;
  cc_gpu_env : list string;
}.

Record AIConfig : Type := {
  application_containers : list ContainerConfig;
}.

Record AIConfigFile : Type := {
  aiConfig : AIConfig;
  path : string;
}.

Record AIContainers : Type := {
  aiConfigFile : AIConfigFile;
  containers : list ContainerConfig;
}.

Record ImageInfo : Type := {
  id : string;
  modelService : bool;
  ports : list string;
  appName : string;
}.

Record PodCreatePortOptions : Type := {
  container_port : JSNumber;
  host_port : JSNumber;
  host_ip : string;
  protocol : string;
  range : Z;
}.

Record PodCreateOptions : Type := {
  pc_name : string;
  pc_portmappings : list PodCreatePortOptions;
  pc_labels : gmap string string;
}.

Record PodContainerInfo : Type := {
  container_Id : string;
}.

Record PodInfo : Type := {
  pod_engineId : string;
  pod_Id : string;
  pod_Status : string;
  pod_Labels : gmap string string;
  pod_Containers : option (list PodContainerInfo);
}.

Inductive PodHealth : Type := starting | healthy | degraded | unhealthy | none.

#[global] Instance PodHealth_eq_dec : EqDecision PodHealth.
Proof. solve_decision. Defined.

Record ApplicationState : Type := {
  state_recipeId : string;
  state_modelId : string;
  state_pod : PodInfo;
  state_appPorts : list Z;
  state_modelPorts : list Z;
  state_health : PodHealth;
}.

Definition setHealth (h : PodHealth) (s : ApplicationState) : ApplicationState :=
  {| state_recipeId := state_recipeId s; state_modelId := state_modelId s;
     state_pod := state_pod s; state_appPorts := state_appPorts s;
     state_modelPorts := state_modelPorts s; state_health := h |}.

Definition setPod (p : PodInfo) (s : ApplicationState) : ApplicationState :=
  {| state_recipeId := state_recipeId s; state_modelId := state_modelId s;
     state_pod := p; state_appPorts := state_appPorts s;
     state_modelPorts := state_modelPorts s; state_health := state_health s |}.

(** *** The task ledger *)

Inductive TaskState : Type := loading | success | error.

Record Task : Type := {
  task_id : nat;
  task_name : string;
  task_state : TaskState;
  task_error : option string;
  task_labels : gmap string string;
}.

Definition setTaskState (s : TaskState) (t : Task) : Task :=
  {| task_id := task_id t; task_name := task_name t; task_state := s;
     task_error := task_error t; task_labels := task_labels t |}.

Definition setTaskName (n : string) (t : Task) : Task :=
  {| task_id := task_id t; task_name := n; task_state := task_state t;
     task_error := task_error t; task_labels := task_labels t |}.

Definition setTaskError (e : string) (t : Task) : Task :=
  {| task_id := task_id t; task_name := task_name t; task_state := task_state t;
     task_error := Some e; task_labels := task_labels t |}.

Definition setTaskLabels (l : gmap string string) (t : Task) : Task :=
  {| task_id := task_id t; task_name := task_name t; task_state := task_state t;
     task_error := task_error t; task_labels := l |}.

(** Does the label mapping [actual] hold every pair of [requested]? *)
Definition labelsMatch (requested actual : gmap string string) : bool :=
  bool_decide (map_Forall (fun k v => actual !! k = Some v) requested).

(** Modelled from the spec: the [TaskRegistry] class (registries/TaskRegistry)
    is not among the sources. Section 3 describes a task as {id, name, state,
    optional error message, label mapping}, labels as the only correlation
    between a task and its workload, and clearing as removing all prior task
    entries bearing a key's labels. The ledger is the list of its entries in
    creation order and a counter that numbers them. *)
Record TaskRegistry : Type := {
  counter : nat;
  tasks : list Task;
}.

Definition TaskRegistry_createTask
    (name : string) (st : TaskState) (labels : gmap string string) (reg : TaskRegistry)
  : Task * TaskRegistry :=
  let t := {| task_id := S (counter reg); task_name := name; task_state := st;
              task_error := None; task_labels := labels |} in
  (t, {| counter := S (counter reg); tasks := tasks reg ++ [t] |}).

(** The entry with the task's id is replaced by the task as given. *)
Definition TaskRegistry_updateTask (t : Task) (reg : TaskRegistry) : TaskRegistry :=
  {| counter := counter reg;
     tasks := map (fun t0 => if (task_id t0 =? task_id t)%nat then t else t0) (tasks reg) |}.

(** Every entry whose labels hold all the requested pairs is removed. *)
Definition TaskRegistry_deleteByLabels (labels : gmap string string) (reg : TaskRegistry)
  : TaskRegistry :=
  {| counter := counter reg;
     tasks := List.filter (fun t => negb (labelsMatch labels (task_labels t))) (tasks reg) |}.

(** *** The engine's pods, as the pod manager presents them *)

(** Modelled from the spec: the [PodManager] class (managers/recipes/PodManager)
    is not among the sources. Section 6 has the engine list resources
    filtered by label presence, and identity carried by label values;
    [findPodByLabelsValues] returns the first pod whose labels hold every
    requested (label, value) pair. *)
Definition PodManager_findPodByLabelsValues
    (requested : gmap string string) (pods : list PodInfo) : option PodInfo :=
  List.find (fun p => labelsMatch requested (pod_Labels p)) pods.

(** Modelled from the spec: [getPodsWithLabels] (also of the absent
    [PodManager]) lists the pods that carry every given label, whatever its
    value (section 6, "list resources filtered by label presence"). *)
Definition PodManager_getPodsWithLabels (labels : list string) (pods : list PodInfo)
  : list PodInfo :=
  List.filter
    (fun p => forallb (fun l => bool_decide (is_Some (pod_Labels p !! l))) labels) pods.

(** *** What the manager does to the outside, in order *)

Inductive Event : Type :=
| EvConsoleLog (msg : string)
| EvConsoleError (msg : string)
| EvDeleteTasks (labels : gmap string string)
| EvCreateTask (t : Task)
| EvUpdateTask (t : Task)
| EvGitCheckout (info : GitCloneInfo)
| EvRegisterRepository (r : LocalRepository)
| EvRequestDownloadModel (model : ModelInfo) (labels : gmap string string)
| EvUploadModel (model : ModelInfo) (labels : gmap string string)
| EvBuild (recipe : Recipe) (containers : list ContainerConfig) (labels : gmap string string)
| EvIsQEMUMachine
| EvGetPortsInfo (exposed : string)
| EvFindPodByLabelsValues (labels : gmap string string)
| EvGetPodsWithLabels (labels : list string)
| EvCreatePod (options : PodCreateOptions)
| EvGetPod (engineId podId : string)
| EvStartPod (engineId podId : string)
| EvStopPod (engineId podId : string)
| EvRemovePod (engineId podId : string)
| EvCreateContainer (engineId : string) (options : ContainerCreateOptions)
| EvInspectContainer (engineId containerId : string)
| EvGetHealth (p : PodInfo)
| EvTimeout (ms : Z)
| EvNotify
| EvTelemetryUsage (name : string)
| EvTelemetryError (name : string) (err : Error).

(** *** Collaborators

    Everything the manager reaches through its constructor arguments or
    imports and that lies outside the file. A call's outcome may depend on
    when it is made: each call receives the number of collaborator calls
    made before it. Collaborators that own engine state or the task ledger
    receive that state and return its successor. *)
Record Environment : Type := {
  appUserDirectory : string;
  path_join : list string -> string;
  path_basename : string -> string;
  goarch : string;
  fs_existsSync : string -> bool;
  fs_isDirectory : string -> bool;
  parseYamlFile : string -> string -> Result AIConfig;
  getModelPropertiesForEnvironment : ModelInfo -> list string;
  getRandomName : nat -> string -> string;
  getPortsInfo : nat -> string -> Result (option string);
  isQEMUMachine : nat -> Result bool;
  git_processCheckout : nat -> GitCloneInfo -> Result unit;
  modelsManager_requestDownloadModel :
    nat -> ModelInfo -> gmap string string -> TaskRegistry -> Result string * TaskRegistry;
  modelsManager_uploadModelToPodmanMachine :
    nat -> ModelInfo -> gmap string string -> TaskRegistry -> Result string * TaskRegistry;
  builderManager_build :
    nat -> Recipe -> list ContainerConfig -> string -> gmap string string -> TaskRegistry ->
    Result (list ImageInfo) * TaskRegistry;
  containerEngine_createContainer :
    nat -> string -> ContainerCreateOptions -> list PodInfo -> Result unit * list PodInfo;
  (* [inspectContainer(...).State.Running] *)
  containerEngine_inspectContainer : nat -> string -> string -> Result bool;
  podManager_createPod :
    nat -> PodCreateOptions -> list PodInfo -> Result (string * string) * list PodInfo;
  podManager_getPod : nat -> string -> string -> list PodInfo -> Result PodInfo;
  podManager_startPod : nat -> string -> string -> list PodInfo -> Result unit * list PodInfo;
  podManager_stopPod : nat -> string -> string -> list PodInfo -> Result unit * list PodInfo;
  podManager_removePod : nat -> string -> string -> list PodInfo -> Result unit * list PodInfo;
  podManager_getHealth : nat -> PodInfo -> Result PodHealth;
}.

(** *** State

    The manager's own fields ([#applications], [protectTasks]), the ledger
    and the engine it drives, the notifications sent to observers, the time
    spent in [timeout], and the log of outside effects. *)
Record World : Type := {
  taskRegistry : TaskRegistry;
  enginePods : list PodInfo;
  (* Modelled from the spec: the [ApplicationRegistry] class is not among
     the sources; section 4.1 makes it a keyed store with structural key
     equality, here a finite map from (recipeId, modelId). *)
  applications : gmap (string * string) ApplicationState;
  protectTasks : gset string;
  notifications : nat;
  clock : Z;
  tick : nat;
  events : list Event;
}.

Definition with_taskRegistry (x : TaskRegistry) (w : World) : World :=
  {| taskRegistry := x; enginePods := enginePods w; applications := applications w;
     protectTasks := protectTasks w; notifications := notifications w;
     clock := clock w; tick := tick w; events := events w |}.

Definition with_enginePods (x : list PodInfo) (w : World) : World :=
  {| taskRegistry := taskRegistry w; enginePods := x; applications := applications w;
     protectTasks := protectTasks w; notifications := notifications w;
     clock := clock w; tick := tick w; events := events w |}.

Definition with_applications (x : gmap (string * string) ApplicationState) (w : World)
  : World :=
  {| taskRegistry := taskRegistry w; enginePods := enginePods w; applications := x;
     protectTasks := protectTasks w; notifications := notifications w;
     clock := clock w; tick := tick w; events := events w |}.

Definition with_protectTasks (x : gset string) (w : World) : World :=
  {| taskRegistry := taskRegistry w; enginePods := enginePods w;
     applications := applications w; protectTasks := x;
     notifications := notifications w; clock := clock w; tick := tick w;
     events := events w |}.

Definition with_notifications (x : nat) (w : World) : World :=
  {| taskRegistry := taskRegistry w; enginePods := enginePods w;
     applications := applications w; protectTasks := protectTasks w;
     notifications := x; clock := clock w; tick := tick w; events := events w |}.

Definition with_clock (x : Z) (w : World) : World :=
  {| taskRegistry := taskRegistry w; enginePods := enginePods w;
     applications := applications w; protectTasks := protectTasks w;
     notifications := notifications w; clock := x; tick := tick w; events := events w |}.

Definition with_tick (x : nat) (w : World) : World :=
  {| taskRegistry := taskRegistry w; enginePods := enginePods w;
     applications := applications w; protectTasks := protectTasks w;
     notifications := notifications w; clock := clock w; tick := x; events := events w |}.

Definition with_events (x : list Event) (w : World) : World :=
  {| taskRegistry := taskRegistry w; enginePods := enginePods w;
     applications := applications w; protectTasks := protectTasks w;
     notifications := notifications w; clock := clock w; tick := tick w; events := x |}.

(** *** Sequencing: state and exceptions *)

Definition M (A : Type) : Type := World -> Result A * World.

#[global] Instance M_ret : MRet M := fun A a w => (Ok a, w).

#[global] Instance M_bind : MBind M := fun A B k m w =>
  match m w with
  | (Ok a, w') => k a w'
  | (Throw e, w') => (Throw e, w')
  end.

Definition throw {A} (e : Error) : M A := fun w => (Throw e, w).

(** [try { m }] with the outcome handed to the code after it. *)
Definition attempt {A} (m : M A) : M (Result A) := fun w =>
  match m w with (r, w') => (Ok r, w') end.

Definition liftResult {A} (r : Result A) : M A := fun w => (r, w).

Definition gets {A} (f : World -> A) : M A := fun w => (Ok (f w), w).

Definition modify (f : World -> World) : M unit := fun w => (Ok tt, f w).

Definition logEvent (e : Event) : M unit :=
  modify (fun w => with_events (events w ++ [e]) w).

Definition nextTick : M nat := fun w => (Ok (tick w), with_tick (S (tick w)) w).

(** A call to a collaborator that keeps no state of interest. *)
Definition call {A} (e : Event) (f : nat -> Result A) : M A :=
  logEvent e;; t ← nextTick; liftResult (f t).

(** A call to a collaborator that changes the engine's pods. *)
Definition engineCall {A} (e : Event)
    (f : nat -> list PodInfo -> Result A * list PodInfo) : M A :=
  logEvent e;; t ← nextTick;
  ((fun w => match f t (enginePods w) with (r, pods') => (r, with_enginePods pods' w) end)
   : M A).

(** A call to a collaborator that records tasks of its own. *)
Definition ledgerCall {A} (e : Event)
    (f : nat -> TaskRegistry -> Result A * TaskRegistry) : M A :=
  logEvent e;; t ← nextTick;
  ((fun w => match f t (taskRegistry w) with (r, reg') => (r, with_taskRegistry reg' w) end)
   : M A).

(** [for (const x of l) { s = await f(s, x) }] *)
Fixpoint forEachM {A S} (f : S -> A -> M S) (l : list A) (s : S) : M S :=
  match l with
  | [] => mret s
  | x :: rest => s' ← f s x; forEachM f rest s'
  end.

(** [for (const x of l) { await f(x) }] *)
Fixpoint forM_ {A} (f : A -> M unit) (l : list A) : M unit :=
  match l with
  | [] => mret tt
  | x :: rest => f x;; forM_ f rest
  end.

(** [Promise.all(l.map(f))]: every call is issued, in order; the result is
    the first rejection if there is one. *)
Fixpoint promiseAll {A} (f : A -> M unit) (l : list A) : M unit :=
  match l with
  | [] => mret tt
  | x :: rest =>
    r ← attempt (f x);
    r' ← attempt (promiseAll f rest);
    match r with
    | Throw e => throw e
    | Ok _ => liftResult r'
    end
  end.

(** *** The manager *)

(** [{...labels, 'recipe-id': r, 'model-id': m}] *)
Definition withRecipeModel (labels : gmap string string) (r m : string)
  : gmap string string :=
  <["model-id" := m]> (<["recipe-id" := r]> labels).

(** [{'recipe-id': r, 'model-id': m}] *)
Definition recipeModelLabels (r m : string) : gmap string string :=
  withRecipeModel ∅ r m.

(** Truthiness of an optional string: [undefined] and the empty string are falsy. *)
Definition truthyString (o : option string) : bool :=
  match o with
  | Some s => negb (String.eqb s "")
  | None => false
  end.

(** [x?.toString() ?? ''], the way [join] prints an element. *)
Definition joinElement (x : option JSNumber) : string :=
  match x with
  | Some n => jsNumberToString n
  | None => ""
  end.

(** [{recipeId: pod.Labels[LABEL_RECIPE_ID], modelId: pod.Labels[LABEL_MODEL_ID]}] *)
Definition podKey (pod : PodInfo) : option (string * string) :=
  match pod_Labels pod !! LABEL_RECIPE_ID, pod_Labels pod !! LABEL_MODEL_ID with
  | Some recipeId, Some modelId => Some (recipeId, modelId)
  | _, _ => None
  end.

Definition TIME_FRAME_MS : Z := 5000.
Definition MAX_ATTEMPTS : Z := 60 * (60000 / TIME_FRAME_MS).

Section Manager.

Variable env : Environment.

(** **** The ledger, the publisher and the clock, as effects *)

Definition createTask (name : string) (st : TaskState) (labels : gmap string string)
  : M Task := fun w =>
  match TaskRegistry_createTask name st labels (taskRegistry w) with
  | (t, reg) => (Ok t, with_events (events w ++ [EvCreateTask t]) (with_taskRegistry reg w))
  end.

Definition updateTask (t : Task) : M unit :=
  modify (fun w =>
    with_events (events w ++ [EvUpdateTask t])
      (with_taskRegistry (TaskRegistry_updateTask t (taskRegistry w)) w)).

Definition deleteByLabels (labels : gmap string string) : M unit :=
  modify (fun w =>
    with_events (events w ++ [EvDeleteTasks labels])
      (with_taskRegistry (TaskRegistry_deleteByLabels labels (taskRegistry w)) w)).

(** [this.notify()] of [Publisher]: one message to the observers. *)
Definition notify : M unit :=
  modify (fun w =>
    with_events (events w ++ [EvNotify]) (with_notifications (S (notifications w)) w)).

(** [await timeout(ms)] *)
Definition timeout (ms : Z) : M unit :=
  modify (fun w => with_events (events w ++ [EvTimeout ms]) (with_clock (clock w + ms) w)).

(** [getRandomName(prefix)] *)
Definition randomName (prefix : string) : M string :=
  t ← nextTick; mret (getRandomName env t prefix).

(** **** Lookups *)

Definition findPodByLabelsValues (requested : gmap string string) : M (option PodInfo) :=
  logEvent (EvFindPodByLabelsValues requested);;
  gets (fun w => PodManager_findPodByLabelsValues requested (enginePods w)).

Definition getPodsWithLabels (labels : list string) : M (list PodInfo) :=
  logEvent (EvGetPodsWithLabels labels);;
  gets (fun w => PodManager_getPodsWithLabels labels (enginePods w)).

(** The object literal of [hasApplicationPod] names its properties
    [LABEL_RECIPE_ID] and [LABEL_MODEL_ID]: plain identifiers, not computed
    keys. *)
Definition hasApplicationPod (recipeId modelId : string) : M bool :=
  pod ← findPodByLabelsValues
          {[ "LABEL_RECIPE_ID" := recipeId; "LABEL_MODEL_ID" := modelId ]};
  mret (defined pod).

(** [findPod] computes its keys: [[LABEL_RECIPE_ID]] and [[LABEL_MODEL_ID]]. *)
Definition findPod (recipeId modelId : string) : M (option PodInfo) :=
  findPodByLabelsValues {[ LABEL_RECIPE_ID := recipeId; LABEL_MODEL_ID := modelId ]}.

Definition getApplicationPod (recipeId modelId : string) : M PodInfo :=
  appPod ← findPod recipeId modelId;
  match appPod with
  | None =>
    throw (mkError ("no pod found with recipe Id " +:+ recipeId
                      +:+ " and model Id " +:+ modelId))
  | Some p => mret p
  end.

Definition clearTasks (recipeId modelId : string) : M unit :=
  deleteByLabels (recipeModelLabels recipeId modelId).

(** **** Health reconciliation *)

(** One turn of the loop of [checkPodsHealth]. The state read from the
    registry is the stored object itself, so assigning to its fields changes
    the registry entry whether or not [set] is called afterwards.
    [getPodsWithLabels] only returns pods that carry both labels, so the key
    can be read; a pod without them is passed over. *)
Definition checkPodHealth (changes : bool) (pod : PodInfo) : M bool :=
  match podKey pod with
  | Some (recipeId, modelId) =>
    stored ← gets (fun w => applications w !! (recipeId, modelId));
    match stored with
    | None =>
      (* a fresh pod could not have been added yet *)
      mret changes
    | Some state =>
      podHealth ← call (EvGetHealth pod) (fun t => podManager_getHealth env t pod);
      '(state, changes) ←
        (if bool_decide (state_health state <> podHealth) then
           let state := setPod pod (setHealth podHealth state) in
           modify (fun w =>
             with_applications (<[(recipeId, modelId) := state]> (applications w)) w);;
           mret (state, true)
         else mret (state, changes));
      if negb (String.eqb (pod_Status pod) (pod_Status (state_pod state))) then
        let state := setPod pod state in
        modify (fun w =>
          with_applications (<[(recipeId, modelId) := state]> (applications w)) w);;
        mret true
      else mret changes
    end
  | None => mret changes
  end.

Definition checkPodsHealth : M unit :=
  pods ← getPodsWithLabels [LABEL_RECIPE_ID; LABEL_MODEL_ID];
  changes ← forEachM checkPodHealth pods false;
  if (changes : bool) then notify else mret tt.

(** **** Stop and remove *)

Definition stopApplication (recipeId modelId : string) : M PodInfo :=
  (* clear existing tasks *)
  clearTasks recipeId modelId;;
  (* get the application pod *)
  appPod ← getApplicationPod recipeId modelId;
  (* if the pod is already stopped skip *)
  if String.eqb (pod_Status appPod) "Exited" then mret appPod
  else
    stoppingTask ← createTask "Stopping AI App" loading (recipeModelLabels recipeId modelId);
    r ← attempt (engineCall (EvStopPod (pod_engineId appPod) (pod_Id appPod))
                   (fun t => podManager_stopPod env t (pod_engineId appPod) (pod_Id appPod)));
    let stoppingTask :=
      match r with
      | Ok _ => setTaskName "AI App Stopped" (setTaskState success stoppingTask)
      | Throw err =>
        setTaskName "Error stopping AI App"
          (setTaskError ("Error removing the pod.: " +:+ String_ err) stoppingTask)
      end in
    (* finally *)
    updateTask stoppingTask;;
    checkPodsHealth;;
    mret appPod.

Definition removeApplication (recipeId modelId : string) : M unit :=
  appPod ← stopApplication recipeId modelId;
  remoteTask ← createTask "Removing AI App" loading (recipeModelLabels recipeId modelId);
  (* protect the task *)
  modify (fun w => with_protectTasks ({[ pod_Id appPod ]} ∪ protectTasks w) w);;
  r ← attempt (engineCall (EvRemovePod (pod_engineId appPod) (pod_Id appPod))
                 (fun t => podManager_removePod env t (pod_engineId appPod) (pod_Id appPod)));
  let remoteTask :=
    match r with
    | Ok _ => setTaskName "AI App Removed" (setTaskState success remoteTask)
    | Throw _ =>
      setTaskName "Error stopping AI App"
        (setTaskError "error removing the pod. Please try to remove the pod manually"
           remoteTask)
    end in
  updateTask remoteTask.

(** **** Start *)

(** The loop of [waitContainerIsRunning], with the number of attempts left. *)
Fixpoint waitAttempts (attempts : nat) (engineId : string) (container : PodContainerInfo)
  : M unit :=
  match attempts with
  | O => throw (mkError ("Container " +:+ container_Id container +:+ " not started in time"))
  | S attempts' =>
    running ← call (EvInspectContainer engineId (container_Id container))
                (fun t => containerEngine_inspectContainer env t engineId
                            (container_Id container));
    if (running : bool) then mret tt
    else timeout TIME_FRAME_MS;; waitAttempts attempts' engineId container
  end.

Definition waitContainerIsRunning (engineId : string) (container : PodContainerInfo)
  : M unit :=
  waitAttempts (Z.to_nat MAX_ATTEMPTS) engineId container.

Definition runApplication (podInfo : PodInfo) (labels : gmap string string) : M unit :=
  task ← createTask "Starting AI App" loading labels;
  (* it starts the pod *)
  engineCall (EvStartPod (pod_engineId podInfo) (pod_Id podInfo))
    (fun t => podManager_startPod env t (pod_engineId podInfo) (pod_Id podInfo));;
  (* check if all containers have started successfully *)
  forM_ (waitContainerIsRunning (pod_engineId podInfo)) (default [] (pod_Containers podInfo));;
  (* Update task registry *)
  updateTask (setTaskName "AI App is running" (setTaskState success task));;
  checkPodsHealth.

Definition startApplication (recipeId modelId : string) : M unit :=
  clearTasks recipeId modelId;;
  pod ← getApplicationPod recipeId modelId;
  runApplication pod (recipeModelLabels recipeId modelId).

(** **** Pod and containers *)

(** The body of [images.map(async image => ...)] up to the engine call:
    the options of the container created for [image]. *)
Definition imageContainerOptions
    (isQEMUVM : bool) (podInfo : PodInfo) (images : list ImageInfo)
    (modelInfo : ModelInfo) (modelPath : string) (image : ImageInfo)
    (podifiedName : string) : ContainerCreateOptions :=
  let '(hostConfig, envs) :=
    (* if it's a model service we mount the model as a volume *)
    if modelService image then
      let modelName := path_basename env modelPath in
      (Some {| AutoRemove := None; Devices := None;
               Mounts := Some [ {| Target := "/" +:+ modelName;
                                   Source := modelPath;
                                   Type_ := "bind";
                                   Mode := if isQEMUVM then None else Some "Z" |} ];
               DeviceRequests := None; SecurityOpt := None; PortBindings := None |},
       ("MODEL_PATH=/" +:+ modelName) :: getModelPropertiesForEnvironment env modelInfo)
    else
      match List.find modelService images with
      | Some modelService_ =>
        match ports modelService_ with
        | p0 :: _ => (None, ["MODEL_ENDPOINT=" +:+ ("http://localhost:" +:+ p0)])
        | [] => (None, [])
        end
      | None => (None, [])
      end in
  let healthcheck :=
    match ports image with
    | p0 :: _ =>
      (* must be the port INSIDE the container not the exposed one *)
      Some {| Test := ["CMD-SHELL"; "curl -s localhost:" +:+ p0 +:+ " > /dev/null"];
              Interval := SECOND * 5;
              Retries := 4 * 5;
              Timeout := Some (SECOND * 2) |}
    | [] => None
    end in
  {| Image := id image;
     name := Some podifiedName;
     Detach := true;
     Entrypoint := None;
     User := None;
     ExposedPorts := None;
     HostConfig_ := hostConfig;
     HealthCheck := healthcheck;
     Labels := None;
     Env := envs;
     Cmd := None;
     start := Some false;
     pod := Some (pod_Id podInfo) |}.

Definition attachImage
    (isQEMUVM : bool) (podInfo : PodInfo) (images : list ImageInfo)
    (modelInfo : ModelInfo) (modelPath : string) (image : ImageInfo) : M unit :=
  podifiedName ← randomName (appName image +:+ "-podified");
  let options :=
    imageContainerOptions isQEMUVM podInfo images modelInfo modelPath image podifiedName in
  engineCall (EvCreateContainer (pod_engineId podInfo) options)
    (fun t => containerEngine_createContainer env t (pod_engineId podInfo) options).

Definition createContainerAndAttachToPod
    (podInfo : PodInfo) (images : list ImageInfo) (modelInfo : ModelInfo)
    (modelPath : string) : M unit :=
  isQEMUVM ← call EvIsQEMUMachine (isQEMUMachine env);
  promiseAll (attachImage isQEMUVM podInfo images modelInfo modelPath) images.

(** The inner loop body of [createPod]: one exposed port, resolved to a
    local port and appended to the mappings. *)
Definition mapExposedPort (portmappings : list PodCreatePortOptions) (exposed : string)
  : M (list PodCreatePortOptions) :=
  localPorts ← call (EvGetPortsInfo exposed) (fun t => getPortsInfo env t exposed);
  if truthyString localPorts then
    mret (portmappings ++
            [ {| container_port := parseInt exposed;
                 host_port := parseInt (default "" localPorts);
                 host_ip := "";
                 protocol := "";
                 range := 1 |} ])
  else mret portmappings.

(** [portmappings.find(pm => `${pm.container_port}` === port)?.host_port] *)
Definition hostPortOf (portmappings : list PodCreatePortOptions) (port : string)
  : option JSNumber :=
  host_port <$>
    List.find (fun pm => String.eqb (jsNumberToString (container_port pm)) port) portmappings.

Definition podLabels (recipe : Recipe) (model : ModelInfo) (images : list ImageInfo)
    (portmappings : list PodCreatePortOptions) : gmap string string :=
  let labels : gmap string string :=
    {[ LABEL_RECIPE_ID := recipe_id recipe; LABEL_MODEL_ID := mi_id model ]} in
  let modelPorts :=
    map (hostPortOf portmappings)
      (flat_map ports (List.filter (fun img => modelService img) images)) in
  let labels :=
    if (0 <? length modelPorts)%nat
    then <[LABEL_MODEL_PORTS := join "," (map joinElement modelPorts)]> labels
    else labels in
  let appPorts :=
    map (hostPortOf portmappings)
      (flat_map ports (List.filter (fun img => negb (modelService img)) images)) in
  if (0 <? length appPorts)%nat
  then <[LABEL_APP_PORTS := join "," (map joinElement appPorts)]> labels
  else labels.

Definition createPod (recipe : Recipe) (model : ModelInfo) (images : list ImageInfo)
  : M PodInfo :=
  (* find the exposed port of the sample app so we can open its ports on the new pod *)
  match List.find (fun image => negb (modelService image)) images with
  | None =>
    logEvent (EvConsoleError "no sample app image found");;
    throw (mkError "no sample app found")
  | Some sampleAppImageInfo =>
    (* we expose all ports so we can check the model service if it is actually running *)
    portmappings ←
      forEachM (fun pms image => forEachM mapExposedPort (ports image) pms) images [];
    (* create new pod *)
    let labels := podLabels recipe model images portmappings in
    podName ← randomName ("pod-" +:+ appName sampleAppImageInfo);
    let options :=
      {| pc_name := podName; pc_portmappings := portmappings; pc_labels := labels |} in
    '(engineId, Id) ← engineCall (EvCreatePod options)
                        (fun t => podManager_createPod env t options);
    engineCall (EvGetPod engineId Id)
      (fun t pods => (podManager_getPod env t engineId Id pods, pods))
  end.

Definition createApplicationPod
    (recipe : Recipe) (model : ModelInfo) (images : list ImageInfo) (modelPath : string)
    (labels : gmap string string) : M PodInfo :=
  task ← createTask "Creating AI App" loading labels;
  (* create empty pod *)
  r ← attempt (createPod recipe model images);
  match r with
  | Throw e =>
    logEvent (EvConsoleError "error when creating pod");;
    updateTask
      (setTaskError ("Something went wrong while creating pod: " +:+ String_ e)
         (setTaskState error task));;
    throw e
  | Ok podInfo =>
    let task := setTaskLabels (<["pod-id" := pod_Id podInfo]> (task_labels task)) task in
    updateTask task;;
    r ← attempt (createContainerAndAttachToPod podInfo images model modelPath);
    match r with
    | Ok _ =>
      updateTask (setTaskState success task);;
      mret podInfo
    | Throw e =>
      logEvent (EvConsoleError ("error when creating pod " +:+ pod_Id podInfo));;
      updateTask
        (setTaskError ("Something went wrong while creating pod: " +:+ String_ e)
           (setTaskState error task));;
      throw e
    end
  end.

(** **** Recipe checkout and configuration *)

Definition doCheckout (gitCloneInfo : GitCloneInfo) (labels : gmap string string)
  : M unit :=
  (* Creating checkout task *)
  checkoutTask ← createTask "Checking out repository" loading (<["git" := "checkout"]> labels);
  r ← attempt (call (EvGitCheckout gitCloneInfo)
                 (fun t => git_processCheckout env t gitCloneInfo));
  match r with
  | Ok _ => updateTask (setTaskState success checkoutTask)
  | Throw err =>
    updateTask (setTaskError (String_ err) (setTaskState error checkoutTask));;
    (* propagate error *)
    throw err
  end.

Definition cloneApplication (recipe : Recipe) (labels : gmap string string) : M unit :=
  let localFolder := path_join env [appUserDirectory env; recipe_id recipe] in
  (* clone the recipe repository on the local folder *)
  let gitCloneInfo :=
    {| repository := recipe_repository recipe;
       ref := recipe_ref recipe;
       targetDirectory := localFolder |} in
  doCheckout gitCloneInfo (<["recipe-id" := recipe_id recipe]> labels);;
  logEvent (EvRegisterRepository
    {| lr_path := targetDirectory gitCloneInfo;
       lr_sourcePath :=
         path_join env [targetDirectory gitCloneInfo; default "" (recipe_basedir recipe)];
       lr_labels := {[ "recipe-id" := recipe_id recipe ]} |}).

Definition filterContainers (aiConfig : AIConfig) : list ContainerConfig :=
  List.filter
    (fun container =>
       (length (cc_gpu_env container) =? 0)%nat
       && existsb (fun arc => String.eqb arc (goarch env)) (cc_arch container))
    (application_containers aiConfig).

Definition getConfiguration (recipeBaseDir : option string) (localFolder : string)
  : M AIConfigFile :=
  let configFile :=
    match recipeBaseDir with
    | Some dir => path_join env [localFolder; dir; CONFIG_FILENAME]
    | None => path_join env [localFolder; CONFIG_FILENAME]
    end in
  if negb (fs_existsSync env configFile) then
    throw (mkError ("The file located at " +:+ configFile +:+ " does not exist."))
  else
    (* If the user configured the config as a directory we check for
       "ai-lab.yaml" inside. *)
    let configFile :=
      if fs_isDirectory env configFile
         && fs_existsSync env (path_join env [configFile; CONFIG_FILENAME])
      then path_join env [configFile; CONFIG_FILENAME]
      else configFile in
    (* Parsing the configuration *)
    logEvent (EvConsoleLog ("Reading configuration from " +:+ configFile +:+ "."));;
    match parseYamlFile env configFile (goarch env) with
    | Throw _ =>
      logEvent (EvConsoleError "Cannot load configure file.");;
      throw (mkError "Cannot load configuration file.")
    | Ok aiConfig => mret {| aiConfig := aiConfig; path := configFile |}
    end.

Definition getConfigAndFilterContainers
    (recipeBaseDir : option string) (localFolder : string) (labels : gmap string string)
  : M AIContainers :=
  (* Adding loading configuration task *)
  task ← createTask "Loading configuration" loading labels;
  r ← attempt (getConfiguration recipeBaseDir localFolder);
  match r with
  | Throw e =>
    updateTask
      (setTaskError ("Something went wrong while loading configuration: "
                       +:+ String_ e +:+ ".") task);;
    throw e
  | Ok aiConfigFile =>
    let filteredContainers := filterContainers (aiConfig aiConfigFile) in
    if (0 <? length filteredContainers)%nat then
      (* Mark as success. *)
      updateTask (setTaskState success task);;
      mret {| aiConfigFile := aiConfigFile; containers := filteredContainers |}
    else
      (* Mark as failure. *)
      updateTask (setTaskError "No containers available." task);;
      throw (mkError "No containers available.")
  end.

(** **** The pull pipeline *)

Definition initApplication (recipe : Recipe) (model : ModelInfo)
    (labels : gmap string string) : M PodInfo :=
  let localFolder := path_join env [appUserDirectory env; recipe_id recipe] in
  (* clone the application *)
  cloneApplication recipe (<["model-id" := mi_id model]> labels);;
  (* load and parse the recipe configuration file and filter containers;
     the call passes no labels *)
  configAndFilteredContainers ←
    getConfigAndFilterContainers (recipe_basedir recipe) localFolder ∅;
  let keyLabels := withRecipeModel labels (recipe_id recipe) (mi_id model) in
  (* get model by downloading it or retrieving locally *)
  ledgerCall (EvRequestDownloadModel model keyLabels)
    (fun t => modelsManager_requestDownloadModel env t model keyLabels);;
  (* upload model to podman machine if user system is supported *)
  modelPath ← ledgerCall (EvUploadModel model keyLabels)
                (fun t => modelsManager_uploadModelToPodmanMachine env t model keyLabels);
  (* build all images, one per container *)
  images ← ledgerCall
             (EvBuild recipe (containers configAndFilteredContainers) keyLabels)
             (fun t => builderManager_build env t recipe
                         (containers configAndFilteredContainers)
                         (path (aiConfigFile configAndFilteredContainers)) keyLabels);
  (* first delete any existing pod with matching labels *)
  exists_ ← hasApplicationPod (recipe_id recipe) (mi_id model);
  (if (exists_ : bool) then removeApplication (recipe_id recipe) (mi_id model) else mret tt);;
  (* create a pod containing all the containers to run the application *)
  createApplicationPod recipe model images modelPath keyLabels.

Definition pullApplication (recipe : Recipe) (model : ModelInfo)
    (labels : gmap string string) : M unit :=
  (* clear any existing status / tasks related to the pair recipeId-modelId. *)
  deleteByLabels (recipeModelLabels (recipe_id recipe) (mi_id model));;
  r ← attempt
        ((* init application (git clone, models download etc.) *)
         podInfo ← initApplication recipe model labels;
         (* start the pod *)
         runApplication podInfo (withRecipeModel labels (recipe_id recipe) (mi_id model));;
         logEvent (EvTelemetryUsage "recipe.pull"));
  match r with
  | Ok _ => mret tt
  | Throw err =>
    logEvent (EvTelemetryError "recipe.pull" err);;
    throw err
  end.

End Manager.

(** *** A concrete engine, for examples

    Pods are created with the requested labels and found again by id;
    stopping a pod marks it [Exited], removing it drops it. The outcomes of
    the checkout, of port resolution, of container inspection and of the
    health probe are left to the example at hand. *)

Definition setPodStatus (status : string) (p : PodInfo) : PodInfo :=
  {| pod_engineId := pod_engineId p; pod_Id := pod_Id p; pod_Status := status;
     pod_Labels := pod_Labels p; pod_Containers := pod_Containers p |}.

Definition samePod (engineId podId : string) (p : PodInfo) : bool :=
  String.eqb (pod_engineId p) engineId && String.eqb (pod_Id p) podId.

(** The part of a path after its last slash. *)
Fixpoint basename (p : string) : string :=
  match p with
  | EmptyString => EmptyString
  | String c rest =>
    if Ascii.eqb c "/" then
      (if existsb (Ascii.eqb "/") (list_ascii_of_string rest) then basename rest else rest)
    else
      (if existsb (Ascii.eqb "/") (list_ascii_of_string rest) then basename rest else p)
  end.

Definition exampleImages : list ImageInfo :=
  [ {| id := "img-model"; modelService := true; ports := ["8000"]; appName := "llm" |};
    {| id := "img-app"; modelService := false; ports := ["8501"]; appName := "chatbot" |} ].

Definition exampleEnv
    (git : nat -> GitCloneInfo -> Result unit)
    (portsInfo : nat -> string -> Result (option string))
    (inspect : nat -> string -> string -> Result bool)
    (healthOf : nat -> PodInfo -> Result PodHealth) : Environment :=
  {| appUserDirectory := "/home/user/ai-lab";
     path_join := join "/";
     path_basename := basename;
     goarch := "amd64";
     fs_existsSync := fun _ => true;
     fs_isDirectory := fun _ => false;
     parseYamlFile := fun _ _ =>
       Ok {| application_containers :=
               [ {| cc_name := "llm"; cc_arch := ["amd64"; "arm64"]; cc_gpu_env := [] |};
                 {| cc_name := "chatbot"; cc_arch := ["amd64"]; cc_gpu_env := [] |} ] |};
     getModelPropertiesForEnvironment := fun _ => ["MODEL_CHAT_FORMAT=llama-2"];
     getRandomName := fun t prefix => prefix +:+ "-" +:+ pretty t;
     getPortsInfo := portsInfo;
     isQEMUMachine := fun _ => Ok false;
     git_processCheckout := git;
     modelsManager_requestDownloadModel := fun _ _ labels reg =>
       match TaskRegistry_createTask "Downloading model" success labels reg with
       | (_, reg') => (Ok "/models/model.gguf", reg')
       end;
     modelsManager_uploadModelToPodmanMachine := fun _ _ _ reg =>
       (Ok "/models/model.gguf", reg);
     builderManager_build := fun _ _ _ _ labels reg =>
       match TaskRegistry_createTask "Building images" success labels reg with
       | (_, reg') => (Ok exampleImages, reg')
       end;
     containerEngine_createContainer := fun _ _ _ pods => (Ok tt, pods);
     containerEngine_inspectContainer := inspect;
     podManager_createPod := fun t options pods =>
       let podId := "pod-" +:+ pretty t in
       (Ok ("podman", podId),
        pods ++ [ {| pod_engineId := "podman"; pod_Id := podId; pod_Status := "Created";
                     pod_Labels := pc_labels options;
                     pod_Containers := Some [ {| container_Id := podId +:+ "-infra" |} ] |} ]);
     podManager_getPod := fun _ engineId podId pods =>
       match List.find (samePod engineId podId) pods with
       | Some p => Ok p
       | None => Throw (mkError "pod not found")
       end;
     podManager_startPod := fun _ engineId podId pods =>
       (Ok tt, map (fun p => if samePod engineId podId p then setPodStatus "Running" p else p) pods);
     podManager_stopPod := fun _ engineId podId pods =>
       (Ok tt, map (fun p => if samePod engineId podId p then setPodStatus "Exited" p else p) pods);
     podManager_removePod := fun _ engineId podId pods =>
       (Ok tt, List.filter (fun p => negb (samePod engineId podId p)) pods);
     podManager_getHealth := healthOf |}.

(** Checkout succeeds, every port resolves to a free port above 50000,
    containers are running, pods are healthy. *)
Definition happyEnv : Environment :=
  exampleEnv (fun _ _ => Ok tt)
             (fun t _ => Ok (Some (pretty (50000 + Z.of_nat t))))
             (fun _ _ _ => Ok true)
             (fun _ _ => Ok healthy).

Definition emptyWorld : World :=
  {| taskRegistry := {| counter := 0; tasks := [] |};
     enginePods := [];
     applications := ∅;
     protectTasks := ∅;
     notifications := 0;
     clock := 0;
     tick := 0;
     events := [] |}.

Definition recipeR1 : Recipe :=
  {| recipe_id := "r1"; recipe_name := "ChatBot";
     recipe_repository := "https://example.com/recipes.git";
     recipe_ref := None; recipe_basedir := None |}.

Definition modelM1 : ModelInfo :=
  {| mi_id := "m1";
     mi_file := Some {| lm_file := "model.gguf"; lm_path := "/models" |} |}.

(** An engine pod that carries the identity labels of (r1, m1). *)
Definition podR1M1 (status : string) : PodInfo :=
  {| pod_engineId := "podman"; pod_Id := "pod-old"; pod_Status := status;
     pod_Labels := {[ LABEL_RECIPE_ID := "r1"; LABEL_MODEL_ID := "m1" ]};
     pod_Containers := Some [ {| container_Id := "c-old" |} ] |}.

(** The checkout fails; everything else as in [happyEnv]. *)
Definition failingCheckoutEnv : Environment :=
  exampleEnv (fun _ _ => Throw (mkError "clone failed"))
             (fun t _ => Ok (Some (pretty (50000 + Z.of_nat t))))
             (fun _ _ _ => Ok true)
             (fun _ _ => Ok healthy).

(** The container is found running at the third inspection. *)
Definition slowStartEnv : Environment :=
  exampleEnv (fun _ _ => Ok tt)
             (fun t _ => Ok (Some (pretty (50000 + Z.of_nat t))))
             (fun t _ _ => Ok (2 <=? t)%nat)
             (fun _ _ => Ok healthy).

(** The container never runs. *)
Definition neverRunningEnv : Environment :=
  exampleEnv (fun _ _ => Ok tt)
             (fun t _ => Ok (Some (pretty (50000 + Z.of_nat t))))
             (fun _ _ _ => Ok false)
             (fun _ _ => Ok healthy).

(** A ledger left by an earlier pull of (r1, m1) whose checkout failed,
    beside a task of another recipe. *)
Definition staleLedger : TaskRegistry :=
  {| counter := 2;
     tasks :=
       [ {| task_id := 1; task_name := "Checking out repository"; task_state := error;
            task_error := Some "Error: clone failed";
            task_labels :=
              <["git" := "checkout"]> (<["recipe-id" := "r1"]> (<["model-id" := "m1"]> ∅)) |};
         {| task_id := 2; task_name := "AI App is running"; task_state := success;
            task_error := None;
            task_labels := recipeModelLabels "r2" "m1" |} ] |}.

(** The registry tracks (r1, m1) as [starting]; the engine runs its pod. *)
Definition trackedWorld : World :=
  with_applications
    {[ ("r1", "m1") :=
         {| state_recipeId := "r1"; state_modelId := "m1";
            state_pod := podR1M1 "Running";
            state_appPorts := [50001]; state_modelPorts := [50000];
            state_health := starting |} ]}
    (with_enginePods [podR1M1 "Running"] emptyWorld).

(** The pod asked for when [createPod] runs on the example images in the
    empty world. *)
Definition examplePodOptions : PodCreateOptions :=
  let portmappings :=
    [ {| container_port := Some 8000; host_port := Some 50000; host_ip := "";
         protocol := ""; range := 1 |};
      {| container_port := Some 8501; host_port := Some 50001; host_ip := "";
         protocol := ""; range := 1 |} ] in
  {| pc_name := "pod-chatbot-2"; pc_portmappings := portmappings;
     pc_labels := podLabels recipeR1 modelM1 exampleImages portmappings |}.

(** What the example configuration file gives on an amd64 host. *)
Definition exampleContainers : AIContainers :=
  let all :=
    [ {| cc_name := "llm"; cc_arch := ["amd64"; "arm64"]; cc_gpu_env := [] |};
      {| cc_name := "chatbot"; cc_arch := ["amd64"]; cc_gpu_env := [] |} ] in
  {| aiConfigFile := {| aiConfig := {| application_containers := all |};
                        path := "/home/user/ai-lab/r1/ai-lab.yaml" |};
     containers := all |}.

(** The container is not running at the first two inspections; the third
    fails. *)
Definition brokenInspectEnv : Environment :=
  exampleEnv (fun _ _ => Ok tt)
             (fun t _ => Ok (Some (pretty (50000 + Z.of_nat t))))
             (fun t _ _ => if (t <? 2)%nat then Ok false
                           else Throw (mkError "no such container"))
             (fun _ _ => Ok healthy).

(** A catalog that knows nothing, and one that knows the example recipe. *)
Definition emptyCatalogRecipe (recipeId : string) : Result Recipe :=
  Throw (mkError ("No recipe found with id " +:+ recipeId)).

Definition emptyCatalogModel (modelId : option string) : Result ModelInfo :=
  Throw (mkError "No model found").

Definition exampleCatalogRecipe (recipeId : string) : Result Recipe :=
  if String.eqb recipeId "r1" then Ok recipeR1 else emptyCatalogRecipe recipeId.

(** Ports read from a label: the example knows the two labels of the
    example pod. *)
Definition examplePortsFromLabel (labels : gmap string string) (key : string) : list Z :=
  match labels !! key with
  | Some _ => [50001]
  | None => []
  end.




(** As [happyEnv], but no configuration file is on disk. *)
Definition missingConfigEnv : Environment :=
  {| appUserDirectory := appUserDirectory happyEnv;
     path_join := path_join happyEnv;
     path_basename := path_basename happyEnv;
     goarch := goarch happyEnv;
     fs_existsSync := fun _ => false;
     fs_isDirectory := fs_isDirectory happyEnv;
     parseYamlFile := parseYamlFile happyEnv;
     getModelPropertiesForEnvironment := getModelPropertiesForEnvironment happyEnv;
     getRandomName := getRandomName happyEnv;
     getPortsInfo := getPortsInfo happyEnv;
     isQEMUMachine := isQEMUMachine happyEnv;
     git_processCheckout := git_processCheckout happyEnv;
     modelsManager_requestDownloadModel := modelsManager_requestDownloadModel happyEnv;
     modelsManager_uploadModelToPodmanMachine :=
       modelsManager_uploadModelToPodmanMachine happyEnv;
     builderManager_build := builderManager_build happyEnv;
     containerEngine_createContainer := containerEngine_createContainer happyEnv;
     containerEngine_inspectContainer := containerEngine_inspectContainer happyEnv;
     podManager_createPod := podManager_createPod happyEnv;
     podManager_getPod := podManager_getPod happyEnv;
     podManager_startPod := podManager_startPod happyEnv;
     podManager_stopPod := podManager_stopPod happyEnv;
     podManager_removePod := podManager_removePod happyEnv;
     podManager_getHealth := podManager_getHealth happyEnv |}.

(** A task in state [error] that bears the labels of (r, m). *)
Definition isErrorTaskOf (r m : string) (t : Task) : bool :=
  labelsMatch (recipeModelLabels r m) (task_labels t)
  && match task_state t with error => true | _ => false end.

(** *** Reading the log *)

Definition isCreatePod (e : Event) : bool :=
  match e with EvCreatePod _ => true | _ => false end.

Definition isStopPod (e : Event) : bool :=
  match e with EvStopPod _ _ => true | _ => false end.

Definition isRemovePod (e : Event) : bool :=
  match e with EvRemovePod _ _ => true | _ => false end.

Definition isCreateTask (e : Event) : bool :=
  match e with EvCreateTask _ => true | _ => false end.

(** The options of the pods created, in order. *)
Definition createdPods (evs : list Event) : list PodCreateOptions :=
  omap (fun e => match e with EvCreatePod o => Some o | _ => None end) evs.

(** The options of the containers created, in order. *)
Definition createdContainers (evs : list Event) : list ContainerCreateOptions :=
  omap (fun e => match e with EvCreateContainer _ o => Some o | _ => None end) evs.

(** The events a computation added to the log. *)
Definition newEvents (w w' : World) : list Event :=
  drop (length (events w)) (events w').

(** A computation whose additions to the log satisfy [Q]. *)
Definition logs {A} (Q : list Event -> Prop) (m : M A) : Prop :=
  forall w, exists new, events (m w).2 = events w ++ new /\ Q new.

(** The log of [k] polls that found the container not running: an
    inspection and a sleep each. *)
Fixpoint pollLog (k : nat) (engineId containerId : string) : list Event :=
  match k with
  | O => []
  | S k' =>
    EvInspectContainer engineId containerId :: EvTimeout TIME_FRAME_MS
      :: pollLog k' engineId containerId
  end.

(** The world after [k] such polls. *)
Definition afterPolls (k : nat) (engineId containerId : string) (w : World) : World :=
  with_events (events w ++ pollLog k engineId containerId)
    (with_tick (tick w + k)%nat
       (with_clock (clock w + TIME_FRAME_MS * Z.of_nat k) w)).

(** *** Reconciliation, in the specification's words

    Section 4.4: the pass "re-fetches all engine pods carrying the
    orchestrator's key labels, recomputes health for each, and updates the
    registry only on observed change (health transition or pod status
    change)"; section 5: it "skips a pod whose key is not yet registered".
    [obs] is the health observed of each pod during the pass. *)

Definition observedChange (obs : PodInfo -> PodHealth) (st : ApplicationState) (p : PodInfo)
  : bool :=
  bool_decide (state_health st <> obs p)
  || negb (String.eqb (pod_Status p) (pod_Status (state_pod st))).

Definition specReconcilePod (obs : PodInfo -> PodHealth)
    (apps : gmap (string * string) ApplicationState) (p : PodInfo)
  : gmap (string * string) ApplicationState * bool :=
  match podKey p with
  | Some k =>
    match apps !! k with
    | Some st =>
      if observedChange obs st p
      then (<[k := setPod p (setHealth (obs p) st)]> apps, true)
      else (apps, false)
    | None => (apps, false)
    end
  | None => (apps, false)
  end.

Fixpoint specReconcile (obs : PodInfo -> PodHealth) (pods : list PodInfo)
    (apps : gmap (string * string) ApplicationState) (changes : bool)
  : gmap (string * string) ApplicationState * bool :=
  match pods with
  | [] => (apps, changes)
  | p :: rest =>
    let '(apps', changed) := specReconcilePod obs apps p in
    specReconcile obs rest apps' (changes || changed)
  end.

(** The containers [createContainerAndAttachToPod] asks for, one per image,
    when the first random name is drawn at call number [t]: each image
    draws a name and then calls the engine. *)
Fixpoint attachedContainers (env : Environment) (isQEMUVM : bool) (podInfo : PodInfo)
    (images : list ImageInfo) (modelInfo : ModelInfo) (modelPath : string)
    (t : nat) (l : list ImageInfo) : list ContainerCreateOptions :=
  match l with
  | [] => []
  | image :: rest =>
    imageContainerOptions env isQEMUVM podInfo images modelInfo modelPath image
      (getRandomName env t (appName image +:+ "-podified"))
    :: attachedContainers env isQEMUVM podInfo images modelInfo modelPath (S (S t)) rest
  end.

(** What the specification promises about the container made for an
    image, as amended: see [createContainerAndAttachToPod_containers]. *)
Definition modelMount (env : Environment) (modelPath : string) (mode : option string)
  : HostConfig :=
  {| AutoRemove := None; Devices := None;
     Mounts := Some [ {| Target := "/" +:+ path_basename env modelPath;
                         Source := modelPath; Type_ := "bind"; Mode := mode |} ];
     DeviceRequests := None; SecurityOpt := None; PortBindings := None |}.

(** *** The ledger across a pull *)

(** Collaborators that record tasks ([ModelsManager], [BuilderManager])
    are outside the sources. What is asked of them: a collaborator leaves
    a ledger in which every task is either new, numbered beyond the counter
    it found, or a task it found, with the labels it had. *)
Definition ownLedger (reg reg' : TaskRegistry) : Prop :=
  (counter reg <= counter reg')%nat
  /\ forall t', t' ∈ tasks reg' ->
       (counter reg < task_id t')%nat
       \/ exists t, t ∈ tasks reg /\ task_id t = task_id t' /\ task_labels t = task_labels t'.

Definition collaboratorsOwnTasks (env : Environment) : Prop :=
  (forall t model labels reg,
      ownLedger reg (modelsManager_requestDownloadModel env t model labels reg).2)
  /\ (forall t model labels reg,
         ownLedger reg (modelsManager_uploadModelToPodmanMachine env t model labels reg).2)
  /\ (forall t recipe containers path labels reg,
         ownLedger reg (builderManager_build env t recipe containers path labels reg).2).

(** Task ids come from the counter. *)
Definition ledgerWellFormed (reg : TaskRegistry) : Prop :=
  forall t, t ∈ tasks reg -> (task_id t <= counter reg)%nat.

(** Since the log read [ev0] and the counter stood at [c], no task
    bearing the labels [K] is older than that. *)
Definition fresh (K : gmap string string) (c : nat) (ev0 : list Event) (w : World) : Prop :=
  (c <= counter (taskRegistry w))%nat
  /\ (forall t, t ∈ tasks (taskRegistry w) -> K ⊆ task_labels t -> (c < task_id t)%nat)
  /\ exists rest, events w = ev0 ++ rest.

(** A computation that preserves [fresh], whatever it returns. *)
Definition keeps (K : gmap string string) (c : nat) (ev0 : list Event) {A} (m : M A)
  : Prop :=
  forall w, fresh K c ev0 w -> fresh K c ev0 (m w).2.

(** *** The rest of the manager: adoption, forgetting, restart *)

Section Registry.

Variable env : Environment.

(** [getPortsFromLabel] (utils/ports) and the catalog lookups
    ([CatalogManager]) lie outside the file. *)
Variable getPortsFromLabel : gmap string string -> string -> list Z.
Variable getRecipeById : string -> Result Recipe.
Variable getModelById : option string -> Result ModelInfo.

Definition updateApplicationState (recipeId modelId : string) (state : ApplicationState)
  : M unit :=
  modify (fun w => with_applications (<[(recipeId, modelId) := state]> (applications w)) w);;
  notify.

Definition getApplicationsState : M (list ApplicationState) :=
  gets (fun w => (map_to_list (applications w)).*2).

Definition adoptPod (pod : PodInfo) : M unit :=
  match pod_Labels pod !! LABEL_RECIPE_ID, pod_Labels pod !! LABEL_MODEL_ID with
  | Some recipeId, Some modelId =>
    (* if (!recipeId || !modelId) return *)
    if String.eqb recipeId "" || String.eqb modelId "" then mret tt
    else
      let appPorts := getPortsFromLabel (pod_Labels pod) LABEL_APP_PORTS in
      let modelPorts := getPortsFromLabel (pod_Labels pod) LABEL_MODEL_PORTS in
      registered ← gets (fun w => applications w !! (recipeId, modelId));
      if defined registered then mret tt
      else
        updateApplicationState recipeId modelId
          {| state_recipeId := recipeId; state_modelId := modelId; state_pod := pod;
             state_appPorts := appPorts; state_modelPorts := modelPorts;
             state_health := starting |}
  | _, _ => mret tt
  end.

(** [Array.from(this.#applications.values()).find(p => p.pod.Id === podId)];
    the registry model keeps no insertion order, the first match in the
    map's own enumeration is taken: the same entry whenever at most one
    holds the pod. *)
Definition findByPodId (podId : string)
    (apps : gmap (string * string) ApplicationState) : option ApplicationState :=
  List.find (fun app => String.eqb (pod_Id (state_pod app)) podId) (map_to_list apps).*2.

Definition forgetPodById (podId : string) : M unit :=
  found ← gets (fun w => findByPodId podId (applications w));
  match found with
  | None => mret tt
  | Some app =>
    match pod_Labels (state_pod app) !! LABEL_RECIPE_ID,
          pod_Labels (state_pod app) !! LABEL_MODEL_ID with
    | Some recipeId, Some modelId =>
      if String.eqb recipeId "" || String.eqb modelId "" then mret tt
      else
        registered ← gets (fun w => applications w !! (recipeId, modelId));
        if negb (defined registered) then mret tt
        else
          modify (fun w =>
            with_applications (delete (recipeId, modelId) (applications w)) w);;
          notify;;
          protect ← gets (fun w => bool_decide (podId ∈ protectTasks w));
          if negb protect then
            createTask "AI App stopped manually" success (recipeModelLabels recipeId modelId);;
            mret tt
          else
            modify (fun w => with_protectTasks (protectTasks w ∖ {[ podId ]}) w)
    | _, _ => mret tt
    end
  end.

(** The callback of [startupSubscribe] in [init]: adopt the pods found. *)
Definition init_startup : M unit :=
  pods ← getPodsWithLabels [LABEL_RECIPE_ID];
  forM_ adoptPod pods.

(** The callback of [onMachineStop] in [init]: all recipe pods are
    considered stopped. *)
Definition init_onMachineStop : M unit :=
  keys ← gets (fun w => (map_to_list (applications w)).*1);
  forM_ (fun '(recipeId, modelId) =>
           createTask "AI App stopped manually" success (recipeModelLabels recipeId modelId);;
           mret tt) keys;;
  modify (fun w => with_applications ∅ w);;
  notify.

Definition restartApplication (recipeId modelId : string) : M unit :=
  appPod ← getApplicationPod recipeId modelId;
  removeApplication env recipeId modelId;;
  recipe ← liftResult (getRecipeById recipeId);
  model ← liftResult (getModelById (pod_Labels appPod !! LABEL_MODEL_ID));
  (* init the recipe *)
  podInfo ← initApplication env recipe model ∅;
  (* start the pod *)
  runApplication env podInfo (recipeModelLabels (recipe_id recipe) (mi_id model)).

Definition getApplicationPorts (recipeId modelId : string) : M (list Z) :=
  recipe ← liftResult (getRecipeById recipeId);
  state ← gets (fun w => applications w !! (recipeId, modelId));
  match state with
  | Some s => mret (state_appPorts s)
  | None => throw (mkError ("Recipe " +:+ recipe_name recipe +:+ " has no ports available"))
  end.

End Registry.

(** *** More ways to read the log and the world *)

Definition isInspect (e : Event) : bool :=
  match e with EvInspectContainer _ _ => true | _ => false end.

Definition isRegisterRepository (e : Event) : bool :=
  match e with EvRegisterRepository _ => true | _ => false end.

(** A call that reaches the engine, the models or the builder. *)
Definition isOutsideCall (e : Event) : bool :=
  match e with
  | EvRequestDownloadModel _ _ | EvUploadModel _ _ | EvBuild _ _ _
  | EvIsQEMUMachine | EvGetPortsInfo _ | EvFindPodByLabelsValues _
  | EvGetPodsWithLabels _ | EvCreatePod _ | EvGetPod _ _ | EvStartPod _ _
  | EvStopPod _ _ | EvRemovePod _ _ | EvCreateContainer _ _
  | EvInspectContainer _ _ | EvGetHealth _ => true
  | _ => false
  end.

(** A call that changes the engine. *)
Definition isEngineChange (e : Event) : bool :=
  match e with
  | EvCreatePod _ | EvStartPod _ _ | EvStopPod _ _ | EvRemovePod _ _
  | EvCreateContainer _ _ => true
  | _ => false
  end.

(** The pods whose removal was requested, in order. *)
Definition removedPods (evs : list Event) : list (string * string) :=
  omap (fun e => match e with EvRemovePod e i => Some (e, i) | _ => None end) evs.

(** Everything but the log and the call counter. *)
Definition sameState (w w' : World) : Prop :=
  taskRegistry w' = taskRegistry w
  /\ enginePods w' = enginePods w
  /\ applications w' = applications w
  /\ protectTasks w' = protectTasks w
  /\ notifications w' = notifications w
  /\ clock w' = clock w.

(** *** Footprints

    Which parts of the world a computation may change, and which events it
    may log. *)
Record Touch : Type := {
  t_ledger : bool;
  t_engine : bool;
  t_apps : bool;
  t_protect : bool;
  t_notif : bool;
  t_clock : bool;
}.

Definition within (fl : Touch) (P : Event -> bool) (w w' : World) : Prop :=
  (t_ledger fl = false -> taskRegistry w' = taskRegistry w)
  /\ (t_engine fl = false -> enginePods w' = enginePods w)
  /\ (t_apps fl = false -> applications w' = applications w)
  /\ (t_protect fl = false -> protectTasks w' = protectTasks w)
  /\ (t_notif fl = false -> notifications w' = notifications w)
  /\ (t_clock fl = false -> clock w' = clock w)
  /\ exists more, events w' = events w ++ more /\ forallb P more = true.

(** A computation that stays within a footprint, whatever it returns. *)
Definition stays (fl : Touch) (P : Event -> bool) {A} (m : M A) : Prop :=
  forall w, within fl P w (m w).2.

Definition noTouch : Touch :=
  {| t_ledger := false; t_engine := false; t_apps := false; t_protect := false;
     t_notif := false; t_clock := false |}.

Definition anyEvent (e : Event) : bool := true.

Definition isTelemetry (e : Event) : bool :=
  match e with EvTelemetryUsage _ | EvTelemetryError _ _ => true | _ => false end.

Definition isNotify (e : Event) : bool :=
  match e with EvNotify => true | _ => false end.

(** The ports whose resolution was asked, in order. *)
Definition portLookups (evs : list Event) : list string :=
  omap (fun e => match e with EvGetPortsInfo p => Some p | _ => None end) evs.

(** What every port mapping made by [createPod] looks like, the declared
    ports being [declared]. *)
Definition mappingOf (declared : list string) (pm : PodCreatePortOptions) : Prop :=
  range pm = 1 /\ host_ip pm = "" /\ protocol pm = ""
  /\ exists exposed, exposed ∈ declared /\ container_port pm = parseInt exposed.

Definition isTaskEvent (e : Event) : bool :=
  match e with
  | EvCreateTask _ | EvUpdateTask _ | EvDeleteTasks _ => true
  | _ => false
  end.

(** Creating the pod and its containers touches the engine and the clock
    only. *)
Definition engineAndClock : Touch :=
  {| t_ledger := false; t_engine := true; t_apps := false; t_protect := false;
     t_notif := false; t_clock := true |}.

Definition everything : Touch :=
  {| t_ledger := true; t_engine := true; t_apps := true; t_protect := true;
     t_notif := true; t_clock := true |}.

(** The error of [getApplicationPod]. *)
Definition noPodError (recipeId modelId : string) : Error :=
  mkError ("no pod found with recipe Id " +:+ recipeId +:+ " and model Id " +:+ modelId).

Definition ledgerOnly : Touch :=
  {| t_ledger := true; t_engine := false; t_apps := false; t_protect := false;
     t_notif := false; t_clock := false |}.

Definition allButLedger : Touch :=
  {| t_ledger := false; t_engine := true; t_apps := true; t_protect := true;
     t_notif := true; t_clock := true |}.

(** Every entry of the registry stands under the key its pod's labels
    give. *)
Definition keyedByLabels (apps : gmap (string * string) ApplicationState) : Prop :=
  forall key s, apps !! key = Some s -> podKey (state_pod s) = Some key.

(** The entry [adoptPod] makes for a pod. *)
Definition adopted (getPortsFromLabel : gmap string string -> string -> list Z)
    (key : string * string) (pod : PodInfo) : ApplicationState :=
  {| state_recipeId := key.1; state_modelId := key.2; state_pod := pod;
     state_appPorts := getPortsFromLabel (pod_Labels pod) LABEL_APP_PORTS;
     state_modelPorts := getPortsFromLabel (pod_Labels pod) LABEL_MODEL_PORTS;
     state_health := starting |}.

(** *** A pass whose probes are observed when they are made *)


(** Is the key that the pod's labels give registered? *)
Definition registered (apps : gmap (string * string) ApplicationState) (p : PodInfo) : bool :=
  match podKey p with
  | Some k => bool_decide (is_Some (apps !! k))
  | None => false
  end.




End ApplicationManager.
(** * Properties *)

(** ** The llama.cpp provider *)

Module LlamaCppPythonFacts.
Import LlamaCppPython LlamaCppPythonExample.

Section Facts.

Variable getModelPropertiesForEnvironment : ModelInfo -> list string.
Variable DISABLE_SELINUX_LABEL_SECURITY_OPTION : string.
Variable LABEL_INFERENCE_SERVER : string.
Variable JSON_stringify : list string -> string.

#[local] Abbreviation buildSpec :=
  (getContainerCreateOptions getModelPropertiesForEnvironment
     DISABLE_SELINUX_LABEL_SECURITY_OPTION LABEL_INFERENCE_SERVER JSON_stringify).

(** The three guards at the head of [getContainerCreateOptions], read as
    one case analysis on the model list. *)
Lemma buildSpec_cases config imageInfo gpu :
  match modelsInfo config with
  | [] => buildSpec config imageInfo gpu
          = Throw (mkError "Need at least one model info to start an inference server.")
  | [m] =>
    match mi_file m with
    | None => buildSpec config imageInfo gpu
              = Throw (mkError "The model info file provided is undefined")
    | Some _ => exists opts, buildSpec config imageInfo gpu = Ok opts
    end
  | _ :: _ :: _ =>
    buildSpec config imageInfo gpu
    = Throw (mkError "Currently the inference server does not support multiple models serving.")
  end.
Proof.
  unfold getContainerCreateOptions.
  destruct (modelsInfo config) as [|m [|m' ms]]; simpl; try reflexivity.
  destruct (mi_file m); [eexists; reflexivity | reflexivity].
Qed.

(** C6. Building the container specification throws exactly when the
    configuration carries no model, more than one model, or a single model
    whose [file] is undefined; with exactly one model that has a file it
    returns a specification. *)
Theorem buildSpec_fails_iff config imageInfo gpu :
  let built :=
    getContainerCreateOptions getModelPropertiesForEnvironment
      DISABLE_SELINUX_LABEL_SECURITY_OPTION LABEL_INFERENCE_SERVER JSON_stringify
      config imageInfo gpu in
  ((exists e, built = Throw e) <->
   (length (modelsInfo config) = 0%nat
    \/ (1 < length (modelsInfo config))%nat
    \/ exists m, modelsInfo config = [m] /\ mi_file m = None))
  /\ ((exists opts, built = Ok opts) <->
      exists m f, modelsInfo config = [m] /\ mi_file m = Some f).
Proof.
  intros built. subst built.
  pose proof (buildSpec_cases config imageInfo gpu) as H.
  destruct (modelsInfo config) as [|m [|m' ms]] eqn:E.
  - split; split.
    + intros _. left. reflexivity.
    + intros _. eauto.
    + intros [opts Ho]. congruence.
    + intros (m & f & Hm & _). discriminate.
  - destruct (mi_file m) as [f|] eqn:Ef.
    + destruct H as [opts Ho]. split; split.
      * intros [e He]. congruence.
      * intros [Hl | [Hl | (m0 & Hm & Hf)]]; simpl in *; try lia.
        inversion Hm; subst. congruence.
      * intros _. exists m, f. auto.
      * intros _. eauto.
    + split; split.
      * intros _. right. right. exists m. auto.
      * intros _. eauto.
      * intros [opts Ho]. congruence.
      * intros (m0 & f & Hm & Hf). inversion Hm; subst. congruence.
  - split; split.
    + intros _. right. left. simpl. lia.
    + intros _. eauto.
    + intros [opts Ho]. congruence.
    + intros (m0 & f & Hm & _). discriminate.
Qed.

(** C5. In a specification that was built, the GPU branch brings the
    driver-directory mount, the GPU device request, the [/dev/dxg] device,
    the shell entrypoint with the linking command, and user [0], all
    together; without a GPU none of them is present. *)
Theorem gpu_branch_all_or_nothing config imageInfo gpu opts :
  buildSpec config imageInfo gpu = Ok opts ->
  exists hc mounts,
    HostConfig_ opts = Some hc /\ Mounts hc = Some mounts /\
    if defined gpu then
      wslMount ∈ mounts
      /\ DeviceRequests hc = Some [gpuDeviceRequest]
      /\ Devices hc = Some [dxgDevice]
      /\ Entrypoint opts = Some "/usr/bin/sh"
      /\ Cmd opts = Some gpuCmd
      /\ User opts = Some "0"
    else
      (forall mt, mt ∈ mounts -> Target mt <> "/usr/lib/wsl")
      /\ DeviceRequests hc = Some []
      /\ Devices hc = Some []
      /\ Entrypoint opts = None
      /\ Cmd opts = Some []
      /\ User opts = None.
Proof.
  unfold getContainerCreateOptions.
  destruct (modelsInfo config) as [|m [|m' ms]]; simpl; try discriminate.
  destruct (mi_file m) as [f|]; [|discriminate].
  intros H. inversion H; subst; clear H. simpl.
  destruct gpu as [g|]; simpl.
  - eexists _, _. repeat split; try reflexivity.
    apply list_elem_of_In. simpl. auto.
  - eexists _, _. repeat split; try reflexivity.
    intros mt Hmt. apply list_elem_of_In in Hmt. simpl in Hmt.
    destruct Hmt as [<- | []]. simpl. discriminate.
Qed.


(** **** GPU discovery in [perform] *)

Variable pullImage : option string -> string -> gmap string string -> Result ImageInfo.
Variable createContainer :
  string -> ContainerCreateOptions -> gmap string string -> Result BetterContainerCreateResult.

#[local] Abbreviation performWith gpus :=
  (perform getModelPropertiesForEnvironment DISABLE_SELINUX_LABEL_SECURITY_OPTION
     LABEL_INFERENCE_SERVER JSON_stringify gpus pullImage createContainer).

(** [perform] once the GPU is chosen: pull, build, create. *)
Lemma perform_after_selection gpus config gpu tr :
  selectGPU gpus config = (Ok gpu, tr) ->
  let img := default (if defined gpu then LLAMA_CPP_CUDA else LLAMA_CPP_CPU) (image config) in
  let pulled := tr ++ [EvPullImage (providerId config) img (labels config)] in
  performWith gpus config
  = match pullImage (providerId config) img (labels config) with
    | Throw e => (Throw e, pulled)
    | Ok imageInfo =>
      match buildSpec config imageInfo gpu with
      | Throw e => (Throw e, pulled)
      | Ok options =>
        (createContainer (engineId imageInfo) options (labels config),
         pulled ++ [EvCreateContainer (engineId imageInfo) options (labels config)])
      end
    end.
Proof. intros H. unfold perform. cbn [enabled negb]. rewrite H. reflexivity. Qed.

Lemma created_from_spec config gpu tr r tr' :
  (forall eng o l, EvCreateContainer eng o l ∉ tr) ->
  match pullImage (providerId config)
          (default (if defined gpu then LLAMA_CPP_CUDA else LLAMA_CPP_CPU) (image config))
          (labels config) with
  | Throw e =>
    (Throw e,
     tr ++ [EvPullImage (providerId config)
              (default (if defined gpu then LLAMA_CPP_CUDA else LLAMA_CPP_CPU) (image config))
              (labels config)])
  | Ok imageInfo =>
    match buildSpec config imageInfo gpu with
    | Throw e =>
      (Throw e,
       tr ++ [EvPullImage (providerId config)
                (default (if defined gpu then LLAMA_CPP_CUDA else LLAMA_CPP_CPU)
                   (image config))
                (labels config)])
    | Ok options =>
      (createContainer (engineId imageInfo) options (labels config),
       (tr ++ [EvPullImage (providerId config)
                 (default (if defined gpu then LLAMA_CPP_CUDA else LLAMA_CPP_CPU)
                    (image config))
                 (labels config)])
         ++ [EvCreateContainer (engineId imageInfo) options (labels config)])
    end
  end = (r, tr') ->
  forall eng o l, EvCreateContainer eng o l ∈ tr' ->
                  exists imageInfo, buildSpec config imageInfo gpu = Ok o.
Proof.
  intros Hnone H eng o l Hin.
  destruct (pullImage _ _ _) as [imageInfo|e].
  - destruct (buildSpec config imageInfo gpu) as [options|e] eqn:Eb.
    + injection H as _ <-. rewrite !elem_of_app in Hin.
      destruct Hin as [[Hin|Hin]|Hin].
      * exfalso. exact (Hnone _ _ _ Hin).
      * apply list_elem_of_singleton in Hin. discriminate.
      * apply list_elem_of_singleton in Hin. injection Hin as _ -> _. eauto.
    + injection H as _ <-. rewrite elem_of_app in Hin. destruct Hin as [Hin|Hin].
      * exfalso. exact (Hnone _ _ _ Hin).
      * apply list_elem_of_singleton in Hin. discriminate.
  - injection H as _ <-. rewrite elem_of_app in Hin. destruct Hin as [Hin|Hin].
    + exfalso. exact (Hnone _ _ _ Hin).
    + apply list_elem_of_singleton in Hin. discriminate.
Qed.

(** C4, as amended. For a configuration that asks for GPU layers
    ([gpuLayers > 0]):
    - with no GPU enumerated, [perform] throws [no gpu was found.] having
      only enumerated: nothing is pulled, nothing is created;
    - the GPU handed on is the first one enumerated, whatever follows it;
    - with more than one GPU enumerated, it logs the warning that counts
      the GPUs and names the model of the first one, then pulls the image
      override if there is one and the CUDA image otherwise, builds the
      container for the first GPU, and returns what it would return had
      that GPU been enumerated alone.
    For a configuration with [gpuLayers] absent or 0, GPUs are not
    enumerated and the outcome is the same whatever enumeration would have
    found; the image override is pulled if there is one, the CPU image
    otherwise, and the container is built without a GPU. *)
Theorem perform_gpu_selection (config : InferenceServerConfig) :
  (forall n, gpuLayers config = Some n -> 0 < n ->
     performWith (Ok []) config = (Throw (mkError "no gpu was found."), [EvCollectGPUs])
     /\ (forall g0 rest, (selectGPU (Ok (g0 :: rest)) config).1 = Ok (Some g0))
     /\ forall g0 g1 rest,
         let r := performWith (Ok (g0 :: g1 :: rest)) config in
         let warning :=
           "found " +:+ pretty (length (g0 :: g1 :: rest))
             +:+ " gpus: using multiple GPUs is not supported. Using "
             +:+ model g0 +:+ "." in
         selectGPU (Ok (g0 :: g1 :: rest)) config
         = (Ok (Some g0), [EvCollectGPUs; EvWarn warning])
         /\ (exists more,
                r.2 = EvCollectGPUs :: EvWarn warning
                        :: EvPullImage (providerId config)
                             (default LLAMA_CPP_CUDA (image config)) (labels config)
                        :: more)
         /\ r.1 = (performWith (Ok [g0]) config).1
         /\ (forall eng o l, EvCreateContainer eng o l ∈ r.2 ->
                exists imageInfo, buildSpec config imageInfo (Some g0) = Ok o))
  /\ (gpuLayers config = None \/ gpuLayers config = Some 0 ->
      forall gpus,
        let r := performWith gpus config in
        (forall gpus', performWith gpus' config = r)
        /\ existsb isCollectGPUs r.2 = false
        /\ (exists more,
               r.2 = EvPullImage (providerId config)
                       (default LLAMA_CPP_CPU (image config)) (labels config) :: more)
        /\ (forall eng o l, EvCreateContainer eng o l ∈ r.2 ->
               exists imageInfo, buildSpec config imageInfo None = Ok o)).
Proof.
  split.
  - intros n Hn Hpos.
    assert (negb (default 0 (gpuLayers config) =? 0) = true) as Hreq.
    { rewrite Hn. cbn. apply negb_true_iff, Z.eqb_neq. lia. }
    split; [|split].
    + unfold perform, selectGPU. cbn [enabled negb]. rewrite Hreq. reflexivity.
    + intros g0 rest. unfold selectGPU. rewrite Hreq. reflexivity.
    + intros g0 g1 rest r warning. subst r.
      assert (selectGPU (Ok (g0 :: g1 :: rest)) config
              = (Ok (Some g0), [EvCollectGPUs; EvWarn warning])) as Hs.
      { unfold selectGPU. rewrite Hreq. reflexivity. }
      assert (selectGPU (Ok [g0]) config = (Ok (Some g0), [EvCollectGPUs])) as Hs1.
      { unfold selectGPU. rewrite Hreq. reflexivity. }
      assert (forall eng o l, EvCreateContainer eng o l ∉ [EvCollectGPUs; EvWarn warning])
        as Hnone.
      { intros eng o l Hin. apply elem_of_cons in Hin. destruct Hin as [Hin|Hin];
          [discriminate|]. apply list_elem_of_singleton in Hin. discriminate. }
      split; [exact Hs|].
      rewrite (perform_after_selection _ _ _ _ Hs), (perform_after_selection _ _ _ _ Hs1).
      cbv zeta. cbn [defined].
      split; [|split].
      * destruct (pullImage _ _ _) as [imageInfo|e]; [|eexists; reflexivity].
        destruct (buildSpec config imageInfo (Some g0)); eexists; reflexivity.
      * destruct (pullImage _ _ _) as [imageInfo|e]; [|reflexivity].
        destruct (buildSpec config imageInfo (Some g0)); reflexivity.
      * intros eng o l.
        match goal with |- context [(?x).2] => destruct x as [r tr'] eqn:E end.
        apply (created_from_spec config (Some g0) _ r tr' Hnone E).
  - intros Hoff gpus r. subst r.
    assert (forall gpus0, selectGPU gpus0 config = (Ok None, [])) as Hs.
    { intros gpus0. unfold selectGPU. destruct Hoff as [-> | ->]; reflexivity. }
    split; [|split; [|split]].
    + intros gpus'.
      rewrite (perform_after_selection _ _ _ _ (Hs gpus)),
        (perform_after_selection _ _ _ _ (Hs gpus')). reflexivity.
    + rewrite (perform_after_selection _ _ _ _ (Hs gpus)). cbv zeta. cbn [defined app].
      destruct (pullImage _ _ _) as [imageInfo|e]; [|reflexivity].
      destruct (buildSpec config imageInfo None); reflexivity.
    + rewrite (perform_after_selection _ _ _ _ (Hs gpus)). cbv zeta. cbn [defined app].
      destruct (pullImage _ _ _) as [imageInfo|e]; [|eexists; reflexivity].
      destruct (buildSpec config imageInfo None); eexists; reflexivity.
    + intros eng o l. rewrite (perform_after_selection _ _ _ _ (Hs gpus)). cbv zeta.
      match goal with |- context [(?x).2] => destruct x as [r tr'] eqn:E end.
      apply (created_from_spec config None [] r tr'); [|exact E].
      intros eng' o' l' Hin. inversion Hin.
Qed.

End Facts.

(** C4, as stated, fails: with GPU layers requested, two GPUs found and an
    image override in the configuration, [perform] pulls the override, not
    the GPU image. *)
Lemma perform_gpu_image_counterexample :
  let config := exampleConfig (Some 1) (Some "quay.io/custom/llamacpp:latest") in
  let r := examplePerform (Ok [ {| model := "GPU A" |}; {| model := "GPU B" |} ]) config in
  isOk r.1 = true
  /\ pulledImages r.2 = ["quay.io/custom/llamacpp:latest"]
  /\ LLAMA_CPP_CUDA ∉ pulledImages r.2.
Proof.
  vm_compute. split; [reflexivity|]. split; [reflexivity|].
  intros H. apply list_elem_of_singleton in H. discriminate.
Qed.

(** **** The theorems on the example engine *)

(** The example model served on a GPU. *)
Lemma gpu_branch_all_or_nothing_witness :
  match getContainerCreateOptions exampleProperties "label=disable"
          "ai-lab-inference-server" exampleStringify
          (exampleConfig (Some 1) None)
          {| Id := "sha256:cuda"; engineId := "podman" |}
          (Some {| model := "GPU A" |}) with
  | Ok opts =>
    Entrypoint opts = Some "/usr/bin/sh" /\ User opts = Some "0" /\ Cmd opts = Some gpuCmd
  | Throw _ => False
  end.
Proof.
  destruct (getContainerCreateOptions exampleProperties "label=disable"
              "ai-lab-inference-server" exampleStringify
              (exampleConfig (Some 1) None)
              {| Id := "sha256:cuda"; engineId := "podman" |}
              (Some {| model := "GPU A" |})) as [opts|e] eqn:E.
  - destruct (gpu_branch_all_or_nothing _ _ _ _ _ _ _ _ E)
      as (hc & mounts & _ & _ & _ & _ & _ & Hentry & Hcmd & Huser).
    split; [exact Hentry|]. split; [exact Huser | exact Hcmd].
  - vm_compute in E. discriminate E.
Defined.

(** GPU layers requested with no GPU, with two GPUs; and not requested. *)
Lemma perform_gpu_selection_witness :
  examplePerform (Ok []) (exampleConfig (Some 1) None)
  = (Throw (mkError "no gpu was found."), [EvCollectGPUs])
  /\ selectGPU (Ok [ {| model := "GPU A" |}; {| model := "GPU B" |} ])
       (exampleConfig (Some 1) None)
     = (Ok (Some {| model := "GPU A" |}),
        [EvCollectGPUs;
         EvWarn "found 2 gpus: using multiple GPUs is not supported. Using GPU A."])
  /\ (examplePerform (Ok [ {| model := "GPU A" |}; {| model := "GPU B" |} ])
        (exampleConfig (Some 1) None)).1
     = (examplePerform (Ok [ {| model := "GPU A" |} ]) (exampleConfig (Some 1) None)).1
  /\ existsb isCollectGPUs
       (examplePerform (Ok [ {| model := "GPU A" |} ]) (exampleConfig None None)).2 = false.
Proof.
  unfold examplePerform.
  destruct (perform_gpu_selection exampleProperties "label=disable"
              "ai-lab-inference-server" exampleStringify examplePullImage
              exampleCreateContainer (exampleConfig (Some 1) None)) as [Hon _].
  destruct (Hon 1 eq_refl ltac:(lia)) as (Hnone & _ & Hmany).
  destruct (Hmany {| model := "GPU A" |} {| model := "GPU B" |} [])
    as (Hsel & _ & Hfirst & _).
  destruct (perform_gpu_selection exampleProperties "label=disable"
              "ai-lab-inference-server" exampleStringify examplePullImage
              exampleCreateContainer (exampleConfig None None)) as [_ Hoff].
  destruct (Hoff (or_introl eq_refl) (Ok [ {| model := "GPU A" |} ])) as (_ & Hquiet & _).
  split; [exact Hnone|]. split; [exact Hsel|]. split; [exact Hfirst | exact Hquiet].
Defined.

End LlamaCppPythonFacts.

(** ** The provider: further properties *)

Module LlamaCppPythonMore.
Import LlamaCppPython LlamaCppPythonExample LlamaCppPythonLog.

Section More.

Variable getModelPropertiesForEnvironment : ModelInfo -> list string.
Variable DISABLE_SELINUX_LABEL_SECURITY_OPTION : string.
Variable LABEL_INFERENCE_SERVER : string.
Variable JSON_stringify : list string -> string.
Variable pullImage : option string -> string -> gmap string string -> Result ImageInfo.
Variable createContainer :
  string -> ContainerCreateOptions -> gmap string string -> Result BetterContainerCreateResult.

#[local] Abbreviation spec :=
  (getContainerCreateOptions getModelPropertiesForEnvironment
     DISABLE_SELINUX_LABEL_SECURITY_OPTION LABEL_INFERENCE_SERVER JSON_stringify).

#[local] Abbreviation run gpus :=
  (perform getModelPropertiesForEnvironment DISABLE_SELINUX_LABEL_SECURITY_OPTION
     LABEL_INFERENCE_SERVER JSON_stringify gpus pullImage createContainer).

(** Whether the specification can be built depends on the models alone. *)
Lemma spec_servable config imageInfo gpu :
  (exists opts, spec config imageInfo gpu = Ok opts) <-> servable config.
Proof.
  unfold getContainerCreateOptions, servable.
  destruct (modelsInfo config) as [|m [|m' ms]]; cbn.
  - split; [intros [o H]; discriminate | intros (m & f & H & _); discriminate].
  - destruct (mi_file m) as [f|] eqn:E.
    + split; [intros _; exists m, f; auto | intros _; eexists; reflexivity].
    + split; [intros [o H]; discriminate|].
      intros (m0 & f & H & Hf). injection H as <-. congruence.
  - split; [intros [o H]; discriminate | intros (m0 & f & H & _); discriminate].
Qed.

(** X1. The labels of a built specification are the configuration's
    labels with the inference-server label set to the JSON list of the
    model ids: a configuration label of that name is overwritten, every
    other label is passed through. *)
Theorem getContainerCreateOptions_labels config imageInfo gpu opts :
  getContainerCreateOptions getModelPropertiesForEnvironment
    DISABLE_SELINUX_LABEL_SECURITY_OPTION LABEL_INFERENCE_SERVER JSON_stringify
    config imageInfo gpu = Ok opts ->
  exists ls,
    Labels opts = Some ls
    /\ ls !! LABEL_INFERENCE_SERVER = Some (JSON_stringify (map mi_id (modelsInfo config)))
    /\ forall k, k <> LABEL_INFERENCE_SERVER -> ls !! k = labels config !! k.
Proof.
  unfold getContainerCreateOptions.
  destruct (modelsInfo config) as [|m [|m' ms]]; cbn; try discriminate.
  destruct (mi_file m) as [f|]; [|discriminate].
  intros H. injection H as <-. cbn [Labels]. eexists. split; [reflexivity|]. split.
  - apply lookup_insert_eq.
  - intros k Hk. apply lookup_insert_ne. congruence.
Qed.

(** X2. Choosing a GPU only adds to the specification: the GPU variant
    of a specification has the same image, ports, port bindings, health
    check, labels and security options; its environment is the plain one
    followed by [GPU_LAYERS], its mounts are the plain ones followed by the
    driver mount. *)
Theorem getContainerCreateOptions_gpu_extends config imageInfo g o0 :
  getContainerCreateOptions getModelPropertiesForEnvironment
    DISABLE_SELINUX_LABEL_SECURITY_OPTION LABEL_INFERENCE_SERVER JSON_stringify
    config imageInfo None = Ok o0 ->
  exists o1 hc0 hc1 mounts,
    spec config imageInfo (Some g) = Ok o1
    /\ HostConfig_ o0 = Some hc0 /\ HostConfig_ o1 = Some hc1
    /\ Image o1 = Image o0 /\ Detach o1 = Detach o0
    /\ ExposedPorts o1 = ExposedPorts o0
    /\ HealthCheck o1 = HealthCheck o0
    /\ Labels o1 = Labels o0
    /\ PortBindings hc1 = PortBindings hc0
    /\ SecurityOpt hc1 = SecurityOpt hc0
    /\ AutoRemove hc1 = AutoRemove hc0
    /\ Env o1 = Env o0 ++ ["GPU_LAYERS=" +:+ optNumberToString (gpuLayers config)]
    /\ Mounts hc0 = Some mounts /\ Mounts hc1 = Some (mounts ++ [wslMount]).
Proof.
  unfold getContainerCreateOptions.
  destruct (modelsInfo config) as [|m [|m' ms]]; cbn; try discriminate.
  destruct (mi_file m) as [f|]; [|discriminate].
  intros H. injection H as <-. cbn.
  eexists _, _, _, _. repeat split; reflexivity.
Qed.

(** [perform] once the GPU is chosen. *)
Lemma perform_after gpus config gpu tr :
  selectGPU gpus config = (Ok gpu, tr) ->
  run gpus config
  = match pullImage (providerId config) (chosenImage config gpu) (labels config) with
    | Throw e =>
      (Throw e, tr ++ [EvPullImage (providerId config) (chosenImage config gpu)
                         (labels config)])
    | Ok imageInfo =>
      match spec config imageInfo gpu with
      | Throw e =>
        (Throw e, tr ++ [EvPullImage (providerId config) (chosenImage config gpu)
                           (labels config)])
      | Ok options =>
        (createContainer (engineId imageInfo) options (labels config),
         (tr ++ [EvPullImage (providerId config) (chosenImage config gpu) (labels config)])
           ++ [EvCreateContainer (engineId imageInfo) options (labels config)])
      end
    end.
Proof.
  intros H. unfold perform, chosenImage. cbn [enabled negb]. rewrite H. reflexivity.
Qed.

Lemma perform_failed_selection gpus config e tr :
  selectGPU gpus config = (Throw e, tr) -> run gpus config = (Throw e, tr).
Proof. intros H. unfold perform. cbn [enabled negb]. rewrite H. reflexivity. Qed.

(** GPU selection logs enumeration and warnings only. *)
Lemma selectGPU_log gpus config :
  forallb (fun e => isCollectGPUs e || isWarn e) (selectGPU gpus config).2 = true.
Proof.
  unfold selectGPU. destruct (negb _); [|reflexivity].
  destruct gpus as [[|g0 [|g1 rest]]|e]; reflexivity.
Qed.

Lemma filter_selectGPU gpus config (P : Event -> bool) :
  (forall e, isCollectGPUs e || isWarn e = true -> P e = false) ->
  List.filter P (selectGPU gpus config).2 = [].
Proof.
  intros HP. pose proof (selectGPU_log gpus config) as H.
  induction ((selectGPU gpus config).2) as [|e l IH]; [reflexivity|].
  cbn in H. apply andb_true_iff in H. destruct H as [He Hl].
  cbn [List.filter]. rewrite (HP e He). apply IH, Hl.
Qed.

(** X3. [perform] pulls at most one image and creates at most one
    container; a container is created only by the last step, right after
    the pull; and [perform] succeeds only if it created one. *)
Theorem perform_pull_then_create gpus config :
  let r := perform getModelPropertiesForEnvironment DISABLE_SELINUX_LABEL_SECURITY_OPTION
             LABEL_INFERENCE_SERVER JSON_stringify gpus pullImage createContainer config in
  (length (List.filter isPullImage r.2) <= 1)%nat
  /\ (length (List.filter isCreateContainer r.2) <= 1)%nat
  /\ (forall eng o l, EvCreateContainer eng o l ∈ r.2 ->
        exists pre pid img,
          r.2 = pre ++ [EvPullImage pid img l; EvCreateContainer eng o l]
          /\ existsb isPullImage pre = false)
  /\ (isOk r.1 = true -> length (List.filter isCreateContainer r.2) = 1%nat).
Proof.
  cbv zeta.
  assert (List.filter isPullImage (selectGPU gpus config).2 = []) as Hp
      by (apply filter_selectGPU; intros [] H; try reflexivity; discriminate).
  assert (List.filter isCreateContainer (selectGPU gpus config).2 = []) as Hc
      by (apply filter_selectGPU; intros [] H; try reflexivity; discriminate).
  assert (forall eng o l, EvCreateContainer eng o l ∉ (selectGPU gpus config).2) as Hnot.
  { intros eng o l Hin. apply list_elem_of_In in Hin.
    assert (In (EvCreateContainer eng o l)
              (List.filter isCreateContainer (selectGPU gpus config).2)) as H
        by (apply filter_In; split; [exact Hin | reflexivity]).
    rewrite Hc in H. destruct H. }
  assert (existsb isPullImage (selectGPU gpus config).2 = false) as Hex.
  { destruct (existsb isPullImage (selectGPU gpus config).2) eqn:E; [|reflexivity].
    apply existsb_exists in E. destruct E as (e & Hin & He).
    assert (In e (List.filter isPullImage (selectGPU gpus config).2)) as H
        by (apply filter_In; split; assumption).
    rewrite Hp in H. destruct H. }
  destruct (selectGPU gpus config) as [[gpu|e] tr] eqn:Es; cbn [snd] in *.
  - rewrite (perform_after _ _ _ _ Es).
    destruct (pullImage _ _ _) as [imageInfo|e];
      [destruct (spec config imageInfo gpu) as [options|e]|];
      cbn [fst snd]; rewrite !List.filter_app, Hp, Hc; cbn;
      (split; [lia|]); (split; [lia|]); (split; [|try discriminate; auto]);
      intros eng o l Hin; rewrite ?elem_of_app in Hin.
    + destruct Hin as [[Hin|Hin]|Hin].
      * exfalso. exact (Hnot _ _ _ Hin).
      * apply list_elem_of_singleton in Hin. discriminate.
      * apply list_elem_of_singleton in Hin. injection Hin as -> -> ->.
        eexists tr, _, _. rewrite <- app_assoc. split; [reflexivity | exact Hex].
    + destruct Hin as [Hin|Hin].
      * exfalso. exact (Hnot _ _ _ Hin).
      * apply list_elem_of_singleton in Hin. discriminate.
    + destruct Hin as [Hin|Hin].
      * exfalso. exact (Hnot _ _ _ Hin).
      * apply list_elem_of_singleton in Hin. discriminate.
  - rewrite (perform_failed_selection _ _ _ _ Es). cbn [fst snd]. rewrite Hp, Hc. cbn.
    split; [lia|]. split; [lia|]. split; [|discriminate].
    intros eng o l Hin. exfalso. exact (Hnot _ _ _ Hin).
Qed.

(** X4. The models are checked only after the image is pulled: for a
    configuration that cannot be served (no model, several models, or a
    model without file) and asks for no GPU, [perform] pulls the image
    first and then throws; no container is created. *)
Theorem perform_validates_after_pull gpus config imageInfo :
  ~ servable config ->
  gpuLayers config = None \/ gpuLayers config = Some 0 ->
  pullImage (providerId config) (chosenImage config None) (labels config) = Ok imageInfo ->
  let r := perform getModelPropertiesForEnvironment DISABLE_SELINUX_LABEL_SECURITY_OPTION
             LABEL_INFERENCE_SERVER JSON_stringify gpus pullImage createContainer config in
  (exists e, spec config imageInfo None = Throw e /\ r.1 = Throw e)
  /\ r.2 = [EvPullImage (providerId config) (chosenImage config None) (labels config)].
Proof.
  intros Hbad Hoff Hpull r. subst r.
  assert (selectGPU gpus config = (Ok None, [])) as Hs
      by (unfold selectGPU; destruct Hoff as [-> | ->]; reflexivity).
  rewrite (perform_after _ _ _ _ Hs), Hpull.
  destruct (spec config imageInfo None) as [options|e] eqn:E.
  - exfalso. apply Hbad. apply (spec_servable config imageInfo None). eauto.
  - split; [exists e; split; reflexivity | reflexivity].
Qed.

(** X5. Any non-zero [gpuLayers], negative included, asks for a GPU:
    GPUs are enumerated first; if enumeration throws, or finds none,
    [perform] throws before anything is pulled; if it finds some, a warning
    is logged exactly when there is more than one, and the image pulled is
    the override or else the CUDA image. *)
Theorem perform_nonzero_layers config n :
  gpuLayers config = Some n -> n <> 0 ->
  (forall e, run (Throw e) config = (Throw e, [EvCollectGPUs]))
  /\ run (Ok []) config = (Throw (mkError "no gpu was found."), [EvCollectGPUs])
  /\ forall g0 rest,
       let r := perform getModelPropertiesForEnvironment
                  DISABLE_SELINUX_LABEL_SECURITY_OPTION LABEL_INFERENCE_SERVER
                  JSON_stringify (Ok (g0 :: rest)) pullImage createContainer config in
       existsb isWarn r.2 = (0 <? length rest)%nat
       /\ pulledImages r.2 = [default LLAMA_CPP_CUDA (image config)].
Proof.
  intros Hn Hnz.
  assert (negb (default 0 (gpuLayers config) =? 0) = true) as Hreq.
  { rewrite Hn. cbn. apply negb_true_iff, Z.eqb_neq. exact Hnz. }
  split; [|split].
  - intros e. apply perform_failed_selection. unfold selectGPU. rewrite Hreq. reflexivity.
  - apply perform_failed_selection. unfold selectGPU. rewrite Hreq. reflexivity.
  - intros g0 rest r. subst r.
    assert (exists tr, selectGPU (Ok (g0 :: rest)) config = (Ok (Some g0), EvCollectGPUs :: tr)
                       /\ existsb isWarn tr = (0 <? length rest)%nat
                       /\ pulledImages tr = []) as (tr & Hs & Hw & Hp).
    { unfold selectGPU. rewrite Hreq. destruct rest as [|g1 rest]; cbn [length Nat.ltb Nat.leb].
      - exists []. auto.
      - eexists [_]. split; [reflexivity|]. split; reflexivity. }
    rewrite (perform_after _ _ _ _ Hs). unfold chosenImage. cbn [defined].
    change (EvCollectGPUs :: tr) with ([EvCollectGPUs] ++ tr).
    destruct (pullImage _ _ _) as [imageInfo|e];
      [destruct (spec config imageInfo (Some g0))|];
      cbn [fst snd]; unfold pulledImages in *;
      rewrite !existsb_app, !omap_app, Hp, Hw; cbn; rewrite ?orb_false_r; auto.
Qed.

End More.

(** **** The example engine *)

Lemma getContainerCreateOptions_labels_witness :
  match getContainerCreateOptions exampleProperties "label=disable"
          "ai-lab-inference-server" exampleStringify
          (exampleConfig None None) {| Id := "sha256:cpu"; engineId := "podman" |} None with
  | Ok opts => exists ls, Labels opts = Some ls
                 /\ ls !! "ai-lab-inference-server" = Some "[llama-2-7b]"
  | Throw _ => False
  end.
Proof.
  destruct (getContainerCreateOptions exampleProperties "label=disable"
              "ai-lab-inference-server" exampleStringify
              (exampleConfig None None) {| Id := "sha256:cpu"; engineId := "podman" |} None)
    as [opts|e] eqn:E.
  - destruct (getContainerCreateOptions_labels _ _ _ _ _ _ _ _ E) as (ls & H1 & H2 & _).
    exists ls. split; [exact H1 | exact H2].
  - vm_compute in E. discriminate E.
Defined.

Lemma getContainerCreateOptions_gpu_extends_witness :
  match getContainerCreateOptions exampleProperties "label=disable"
          "ai-lab-inference-server" exampleStringify
          (exampleConfig (Some 1) None) {| Id := "sha256:cuda"; engineId := "podman" |}
          (Some {| model := "GPU A" |}) with
  | Ok o1 => last (Env o1) = Some "GPU_LAYERS=1"
  | Throw _ => False
  end.
Proof.
  destruct (getContainerCreateOptions exampleProperties "label=disable"
              "ai-lab-inference-server" exampleStringify
              (exampleConfig (Some 1) None) {| Id := "sha256:cuda"; engineId := "podman" |}
              None) as [o0|e] eqn:E.
  - destruct (getContainerCreateOptions_gpu_extends exampleProperties "label=disable"
                "ai-lab-inference-server" exampleStringify
                (exampleConfig (Some 1) None) {| Id := "sha256:cuda"; engineId := "podman" |}
                {| model := "GPU A" |} o0 E)
      as (o1 & hc0 & hc1 & mounts & -> & _ & _ & _ & _ & _ & _ & _ & _ & _ & _ & -> & _).
    apply last_snoc.
  - vm_compute in E. discriminate E.
Defined.

Lemma perform_validates_after_pull_witness :
  let config :=
    {| port := 35000; providerId := None; image := None; labels := ∅;
       modelsInfo := []; gpuLayers := None |} in
  examplePerform (Ok []) config
  = (Throw (mkError "Need at least one model info to start an inference server."),
     [EvPullImage None LLAMA_CPP_CPU ∅]).
Proof.
  intros config.
  assert (~ servable config) as Hbad by (intros (m & f & H & _); discriminate H).
  destruct (perform_validates_after_pull exampleProperties "label=disable"
              "ai-lab-inference-server" exampleStringify examplePullImage
              exampleCreateContainer (Ok []) config _ Hbad (or_introl eq_refl) eq_refl)
    as ((e & Hspec & Hr) & Htr).
  vm_compute in Hspec. injection Hspec as <-.
  unfold examplePerform. apply injective_projections; [exact Hr | exact Htr].
Defined.

Lemma perform_nonzero_layers_witness :
  examplePerform (Ok []) (exampleConfig (Some (-1)) None)
  = (Throw (mkError "no gpu was found."), [EvCollectGPUs]).
Proof.
  apply (perform_nonzero_layers exampleProperties "label=disable"
           "ai-lab-inference-server" exampleStringify examplePullImage
           exampleCreateContainer (exampleConfig (Some (-1)) None) (-1) eq_refl).
  lia.
Defined.

End LlamaCppPythonMore.

(** ** The application manager *)

Module ApplicationManagerFacts.
Import ApplicationManager.

(** *** Sequencing *)

Lemma bind_unfold {A B} (m : M A) (k : A -> M B) (w : World) :
  (m ≫= k) w =
  match m w with
  | (Ok a, w') => k a w'
  | (Throw e, w') => (Throw e, w')
  end.
Proof. reflexivity. Qed.

Lemma run_ret {A} (a : A) (w : World) : (mret a : M A) w = (Ok a, w).
Proof. reflexivity. Qed.

Lemma run_throw {A} (e : Error) (w : World) : (throw e : M A) w = (Throw e, w).
Proof. reflexivity. Qed.

Lemma run_attempt {A} (m : M A) (w : World) : attempt m w = (Ok (m w).1, (m w).2).
Proof. unfold attempt. destruct (m w); reflexivity. Qed.

Lemma run_gets {A} (f : World -> A) (w : World) : gets f w = (Ok (f w), w).
Proof. reflexivity. Qed.

Lemma run_modify (f : World -> World) (w : World) : modify f w = (Ok tt, f w).
Proof. reflexivity. Qed.

Lemma run_logEvent (e : Event) (w : World) :
  logEvent e w = (Ok tt, with_events (events w ++ [e]) w).
Proof. reflexivity. Qed.

Lemma world_eta (w : World) :
  {| taskRegistry := taskRegistry w; enginePods := enginePods w;
     applications := applications w; protectTasks := protectTasks w;
     notifications := notifications w; clock := clock w; tick := tick w;
     events := events w |} = w.
Proof. destruct w; reflexivity. Qed.

(** *** The built-ins and the pipeline, run *)

Example parseInt_port : parseInt "8000" = Some 8000.
Proof. reflexivity. Qed.

Example parseInt_prefix : parseInt " 42px" = Some 42.
Proof. reflexivity. Qed.

Example parseInt_hex : parseInt "0x1f" = Some 31.
Proof. reflexivity. Qed.

Example parseInt_nan : parseInt "http" = None.
Proof. reflexivity. Qed.

Example join_ports : join "," ["50000"; ""; "NaN"] = "50000,,NaN".
Proof. reflexivity. Qed.

(** A pull on the example engine: every stage succeeds, each leaves its
    task, and the new pod carries the identity labels and the resolved
    ports. *)
Example pullApplication_happy_path :
  let r := pullApplication happyEnv recipeR1 modelM1 ∅ emptyWorld in
  r.1 = Ok tt
  /\ map (fun t => (task_name t, task_state t)) (tasks (taskRegistry r.2))
     = [ ("Checking out repository", success); ("Loading configuration", success);
         ("Downloading model", success); ("Building images", success);
         ("Creating AI App", success); ("AI App is running", success) ]
  /\ map (fun p => (podKey p, pod_Labels p !! LABEL_MODEL_PORTS,
                     pod_Labels p !! LABEL_APP_PORTS))
       (enginePods r.2)
     = [ (Some ("r1", "m1"), Some "50004", Some "50005") ].
Proof. vm_compute. repeat split; reflexivity. Qed.

(** *** Label matching *)

Lemma labelsMatch_spec (requested actual : gmap string string) :
  labelsMatch requested actual = true <-> requested ⊆ actual.
Proof.
  unfold labelsMatch. rewrite bool_decide_eq_true, map_subseteq_spec.
  unfold map_Forall. reflexivity.
Qed.

Lemma recipeModelLabels_lookup (r m : string) (l : gmap string string) :
  recipeModelLabels r m ⊆ l <-> l !! "recipe-id" = Some r /\ l !! "model-id" = Some m.
Proof.
  unfold recipeModelLabels, withRecipeModel. rewrite map_subseteq_spec. split.
  - intros H. split; apply H.
    + rewrite lookup_insert_ne by done. apply lookup_insert_eq.
    + apply lookup_insert_eq.
  - intros [Hr Hm] k v Hk.
    destruct (decide (k = "model-id")) as [->|Hn1].
    + rewrite lookup_insert_eq in Hk. congruence.
    + rewrite lookup_insert_ne in Hk by done.
      destruct (decide (k = "recipe-id")) as [->|Hn2].
      * rewrite lookup_insert_eq in Hk. congruence.
      * rewrite lookup_insert_ne in Hk by done. rewrite lookup_empty in Hk. discriminate.
Qed.

(** *** What the simple operations return *)

Section Runs.

Variable env : Environment.

Lemma run_deleteByLabels labels w :
  deleteByLabels labels w
  = (Ok tt, with_events (events w ++ [EvDeleteTasks labels])
              (with_taskRegistry (TaskRegistry_deleteByLabels labels (taskRegistry w)) w)).
Proof. reflexivity. Qed.

Lemma run_findPodByLabelsValues requested w :
  findPodByLabelsValues requested w
  = (Ok (PodManager_findPodByLabelsValues requested (enginePods w)),
     with_events (events w ++ [EvFindPodByLabelsValues requested]) w).
Proof. reflexivity. Qed.

Lemma run_getPodsWithLabels labels w :
  getPodsWithLabels labels w
  = (Ok (PodManager_getPodsWithLabels labels (enginePods w)),
     with_events (events w ++ [EvGetPodsWithLabels labels]) w).
Proof. reflexivity. Qed.

Lemma run_createTask name st labels w :
  createTask name st labels w
  = (Ok (TaskRegistry_createTask name st labels (taskRegistry w)).1,
     with_events
       (events w ++ [EvCreateTask (TaskRegistry_createTask name st labels (taskRegistry w)).1])
       (with_taskRegistry (TaskRegistry_createTask name st labels (taskRegistry w)).2 w)).
Proof. reflexivity. Qed.

Lemma run_updateTask t w :
  updateTask t w
  = (Ok tt, with_events (events w ++ [EvUpdateTask t])
              (with_taskRegistry (TaskRegistry_updateTask t (taskRegistry w)) w)).
Proof. reflexivity. Qed.

Lemma run_call {A} (e : Event) (f : nat -> Result A) w :
  call e f w = (f (tick w), with_tick (S (tick w)) (with_events (events w ++ [e]) w)).
Proof.
  unfold call, logEvent, modify, nextTick, liftResult, mbind, M_bind. cbn.
  destruct (f (tick w)); reflexivity.
Qed.

Lemma run_engineCall {A} (e : Event) (f : nat -> list PodInfo -> Result A * list PodInfo) w :
  engineCall e f w
  = ((f (tick w) (enginePods w)).1,
     with_enginePods (f (tick w) (enginePods w)).2
       (with_tick (S (tick w)) (with_events (events w ++ [e]) w))).
Proof.
  unfold engineCall, logEvent, modify, nextTick, mbind, M_bind. cbn.
  destruct (f (tick w) (enginePods w)); reflexivity.
Qed.

Lemma run_ledgerCall {A} (e : Event) (f : nat -> TaskRegistry -> Result A * TaskRegistry) w :
  ledgerCall e f w
  = ((f (tick w) (taskRegistry w)).1,
     with_taskRegistry (f (tick w) (taskRegistry w)).2
       (with_tick (S (tick w)) (with_events (events w ++ [e]) w))).
Proof.
  unfold ledgerCall, logEvent, modify, nextTick, mbind, M_bind. cbn.
  destruct (f (tick w) (taskRegistry w)); reflexivity.
Qed.

Lemma run_randomName prefix w :
  randomName env prefix w = (Ok (getRandomName env (tick w) prefix), with_tick (S (tick w)) w).
Proof. reflexivity. Qed.

Lemma run_timeout ms w :
  timeout ms w
  = (Ok tt, with_events (events w ++ [EvTimeout ms]) (with_clock (clock w + ms) w)).
Proof. reflexivity. Qed.

Lemma run_getApplicationPod_found recipeId modelId w p :
  PodManager_findPodByLabelsValues
    {[ LABEL_RECIPE_ID := recipeId; LABEL_MODEL_ID := modelId ]} (enginePods w) = Some p ->
  getApplicationPod recipeId modelId w
  = (Ok p,
     with_events
       (events w ++ [EvFindPodByLabelsValues
                       {[ LABEL_RECIPE_ID := recipeId; LABEL_MODEL_ID := modelId ]}]) w).
Proof.
  intros H. unfold getApplicationPod, findPod.
  rewrite bind_unfold, run_findPodByLabelsValues, H. reflexivity.
Qed.

End Runs.

(** *** Stopping a pod that has already exited *)

(** C9. When the pod found for (recipeId, modelId) has status [Exited],
    [stopApplication] clears the key's tasks, looks the pod up and returns
    it: no stop call reaches the engine, no task is created, and the
    engine's pods, the registry, the notifications and the protect set are
    as before. *)
Theorem stopApplication_exited env (recipeId modelId : string) (w : World) (p : PodInfo) :
  PodManager_findPodByLabelsValues
    {[ LABEL_RECIPE_ID := recipeId; LABEL_MODEL_ID := modelId ]} (enginePods w) = Some p ->
  pod_Status p = "Exited" ->
  let r := stopApplication env recipeId modelId w in
  r.1 = Ok p
  /\ taskRegistry r.2
     = TaskRegistry_deleteByLabels (recipeModelLabels recipeId modelId) (taskRegistry w)
  /\ events r.2
     = events w ++ [ EvDeleteTasks (recipeModelLabels recipeId modelId);
                     EvFindPodByLabelsValues
                       {[ LABEL_RECIPE_ID := recipeId; LABEL_MODEL_ID := modelId ]} ]
  /\ existsb isStopPod (newEvents w r.2) = false
  /\ existsb isCreateTask (newEvents w r.2) = false
  /\ enginePods r.2 = enginePods w
  /\ applications r.2 = applications w
  /\ notifications r.2 = notifications w
  /\ protectTasks r.2 = protectTasks w.
Proof.
  intros Hfind Hstatus r. subst r.
  unfold stopApplication, clearTasks.
  rewrite bind_unfold, run_deleteByLabels.
  rewrite bind_unfold.
  rewrite (run_getApplicationPod_found recipeId modelId _ p) by exact Hfind.
  rewrite Hstatus.
  change (String.eqb "Exited" "Exited") with true. cbv iota.
  rewrite run_ret.
  unfold newEvents. cbn [fst snd events with_events with_taskRegistry taskRegistry
    enginePods applications notifications protectTasks].
  rewrite <- app_assoc. rewrite drop_app_length.
  repeat split; reflexivity.
Qed.

(** *** Creating the pod *)

Lemma logs_forEachM {A S} (Q : list Event -> Prop) (f : S -> A -> M S) :
  Q [] -> (forall a b, Q a -> Q b -> Q (a ++ b)) ->
  (forall s x, logs Q (f s x)) ->
  forall l s, logs Q (forEachM f l s).
Proof.
  intros Qnil Qapp Hf l. induction l as [|x l IH]; intros s w.
  - exists []. rewrite app_nil_r. auto.
  - simpl. rewrite bind_unfold.
    destruct (Hf s x w) as (new1 & E1 & Q1).
    destruct (f s x w) as [[s'|e] w1]; simpl in E1.
    + destruct (IH s' w1) as (new2 & E2 & Q2).
      exists (new1 ++ new2). rewrite E2, E1, app_assoc. auto.
    + exists new1. auto.
Qed.

Lemma mapExposedPort_logs env pms exposed :
  logs (fun new => createdPods new = []) (mapExposedPort env pms exposed).
Proof.
  intros w. unfold mapExposedPort. rewrite bind_unfold, run_call.
  exists [EvGetPortsInfo exposed].
  destruct (getPortsInfo env (tick w) exposed) as [localPorts|e]; [|auto].
  destruct (truthyString localPorts); auto.
Qed.

Lemma resolvePorts_logs env images pms :
  logs (fun new => createdPods new = [])
    (forEachM (fun pms image => forEachM (mapExposedPort env) (ports image) pms) images pms).
Proof.
  apply logs_forEachM; [reflexivity | | ].
  - intros a b Ha Hb. unfold createdPods in *. rewrite omap_app, Ha, Hb. reflexivity.
  - intros s x. apply logs_forEachM; [reflexivity | | ].
    + intros a b Ha Hb. unfold createdPods in *. rewrite omap_app, Ha, Hb. reflexivity.
    + intros s' x'. apply mapExposedPort_logs.
Qed.

Lemma newEvents_app (w w' : World) (new : list Event) :
  events w' = events w ++ new -> newEvents w w' = new.
Proof. intros H. unfold newEvents. rewrite H. apply drop_app_length. Qed.

Lemma find_none_all_modelService (images : list ImageInfo) :
  List.find (fun image => negb (modelService image)) images = None
  <-> forallb modelService images = true.
Proof.
  induction images as [|i l IH]; simpl; [tauto|].
  destruct (modelService i); simpl; [exact IH | split; discriminate].
Qed.

(** C10. If every image is a model service, [createPod] throws
    [no sample app found] having done nothing but log the error: no pod is
    requested from the engine. Otherwise the first image that is not a
    model service names the pod: at most one pod is requested, under a
    random name drawn for [pod-<appName>], and a successful [createPod] has
    requested exactly that one. *)
Theorem createPod_needs_sample_app env recipe model (images : list ImageInfo) (w : World) :
  (forallb modelService images = true ->
   createPod env recipe model images w
   = (Throw (mkError "no sample app found"),
      with_events (events w ++ [EvConsoleError "no sample app image found"]) w))
  /\ (forall sample,
        List.find (fun image => negb (modelService image)) images = Some sample ->
        let r := createPod env recipe model images w in
        (createdPods (newEvents w r.2) = [] /\ isOk r.1 = false)
        \/ exists t options,
             createdPods (newEvents w r.2) = [options]
             /\ pc_name options = getRandomName env t ("pod-" +:+ appName sample)).
Proof.
  split.
  - intros Hall. apply find_none_all_modelService in Hall.
    unfold createPod. rewrite Hall. reflexivity.
  - intros sample Hfind r. subst r. unfold createPod. rewrite Hfind.
    rewrite bind_unfold.
    destruct (resolvePorts_logs env images [] w) as (new1 & E1 & Q1).
    destruct (forEachM _ images [] w) as [[pms|e] w1]; cbn [snd] in E1.
    + right. rewrite bind_unfold, run_randomName, bind_unfold, run_engineCall.
      set (options := {| pc_name := getRandomName env (tick w1) ("pod-" +:+ appName sample);
                         pc_portmappings := pms;
                         pc_labels := podLabels recipe model images pms |}).
      exists (tick w1), options. split; [|reflexivity].
      destruct (podManager_createPod env _ options _) as [[[engineId Id]|e] pods'];
        cbn [fst snd].
      * rewrite run_engineCall. cbn [fst snd].
        erewrite newEvents_app.
        2:{ cbn [events with_events with_tick with_enginePods]. rewrite E1.
            rewrite <- !app_assoc. reflexivity. }
        unfold createdPods in *. rewrite !omap_app, Q1. reflexivity.
      * erewrite newEvents_app.
        2:{ cbn [events with_events with_tick with_enginePods]. rewrite E1.
            rewrite <- !app_assoc. reflexivity. }
        unfold createdPods in *. rewrite !omap_app, Q1. reflexivity.
    + left. cbn [fst snd]. erewrite newEvents_app by exact E1. auto.
Qed.

(** *** The existing-pod check of the pull pipeline *)

(** [hasApplicationPod] looks for labels named [LABEL_RECIPE_ID] and
    [LABEL_MODEL_ID]; on an engine where no pod has a label of the first
    name it answers [false] for every recipe and model. *)
Lemma hasApplicationPod_blind (recipeId modelId : string) (w : World) :
  (forall p, p ∈ enginePods w -> pod_Labels p !! "LABEL_RECIPE_ID" = None) ->
  (hasApplicationPod recipeId modelId w).1 = Ok false.
Proof.
  intros Hnone. unfold hasApplicationPod.
  rewrite bind_unfold, run_findPodByLabelsValues.
  unfold PodManager_findPodByLabelsValues.
  destruct (List.find _ (enginePods w)) as [p|] eqn:E; [|reflexivity].
  apply find_some in E. destruct E as [Hin Hmatch].
  apply labelsMatch_spec in Hmatch. rewrite map_subseteq_spec in Hmatch.
  specialize (Hmatch "LABEL_RECIPE_ID" recipeId (lookup_insert_eq _ _ _)).
  rewrite (Hnone p) in Hmatch; [discriminate|]. apply list_elem_of_In, Hin.
Qed.

(** The pods made by [createPod] are such pods: their labels are the
    [ai-lab-...] ones. *)
Lemma podLabels_not_literal recipe model images portmappings :
  podLabels recipe model images portmappings !! "LABEL_RECIPE_ID" = None.
Proof.
  unfold podLabels, LABEL_RECIPE_ID, LABEL_MODEL_ID, LABEL_MODEL_PORTS, LABEL_APP_PORTS.
  repeat match goal with |- context [if ?b then _ else _] => destruct b end;
    repeat (rewrite lookup_insert_ne by done);
    first [apply lookup_empty | apply lookup_singleton_ne; done].
Qed.


(** C1. On an engine that holds a running pod labelled for (r1, m1):
    [findPod] finds it, [hasApplicationPod] answers [false], and
    [initApplication] creates a new pod without any stop or removal of the
    old one, which is still there afterwards. *)
Theorem initApplication_misses_existing_pod :
  let w := with_enginePods [podR1M1 "Running"] emptyWorld in
  (findPod "r1" "m1" w).1 = Ok (Some (podR1M1 "Running"))
  /\ (hasApplicationPod "r1" "m1" w).1 = Ok false
  /\ let r := initApplication happyEnv recipeR1 modelM1 ∅ w in
     isOk r.1 = true
     /\ existsb isStopPod (events r.2) = false
     /\ existsb isRemovePod (events r.2) = false
     /\ existsb isCreatePod (events r.2) = true
     /\ map pod_Id (enginePods r.2) = ["pod-old"; "pod-7"]
     /\ map podKey (enginePods r.2) = [Some ("r1", "m1"); Some ("r1", "m1")].
Proof. vm_compute. repeat split; reflexivity. Qed.

(** *** Waiting for a container to run *)

Section Wait.

Variable env : Environment.
Variable engineId : string.
Variable container : PodContainerInfo.

Ltac world_eq :=
  unfold afterPolls, with_events, with_tick, with_clock, with_taskRegistry,
    with_enginePods, with_applications, with_protectTasks, with_notifications;
  cbn [taskRegistry enginePods applications protectTasks notifications clock tick events];
  f_equal; try lia; try (rewrite <- ?app_assoc; cbn [app pollLog]; reflexivity).

#[local] Abbreviation inspect :=
  (fun t => containerEngine_inspectContainer env t engineId (container_Id container)).

Lemma afterPolls_0 w : afterPolls 0 engineId (container_Id container) w = w.
Proof.
  unfold afterPolls, with_events, with_tick, with_clock. cbn.
  rewrite app_nil_r, Nat.add_0_r, Z.mul_0_r, Z.add_0_r. apply world_eta.
Qed.

(** One more poll that finds the container not running. *)
Lemma waitAttempts_step n w :
  inspect (tick w) = Ok false ->
  waitAttempts env (S n) engineId container w
  = waitAttempts env n engineId container (afterPolls 1 engineId (container_Id container) w).
Proof.
  intros H. cbn [waitAttempts]. rewrite bind_unfold, run_call, H.
  rewrite bind_unfold, run_timeout. f_equal.
  world_eq.
Qed.

Lemma afterPolls_S k w :
  afterPolls k engineId (container_Id container)
    (afterPolls 1 engineId (container_Id container) w)
  = afterPolls (S k) engineId (container_Id container) w.
Proof.
  world_eq.
Qed.

Lemma waitAttempts_polls k : forall n w,
  (forall i, (i < k)%nat -> inspect (tick w + i)%nat = Ok false) ->
  waitAttempts env (k + n) engineId container w
  = waitAttempts env n engineId container (afterPolls k engineId (container_Id container) w).
Proof.
  induction k as [|k IH]; intros n w H.
  - rewrite afterPolls_0. reflexivity.
  - change (S k + n)%nat with (S (k + n)).
    rewrite waitAttempts_step.
    2:{ specialize (H 0%nat). rewrite Nat.add_0_r in H. apply H. lia. }
    rewrite IH.
    + rewrite afterPolls_S. reflexivity.
    + intros i Hi. cbn [afterPolls tick with_events with_tick with_clock].
      specialize (H (S i)). replace (tick w + 1 + i)%nat with (tick w + S i)%nat by lia.
      apply H. lia.
Qed.

(** However the inspections turn out, the wait ends within the budget. *)
Lemma waitAttempts_budget n : forall w,
  let w' := (waitAttempts env n engineId container w).2 in
  clock w <= clock w' <= clock w + TIME_FRAME_MS * Z.of_nat n
  /\ (tick w <= tick w' <= tick w + n)%nat.
Proof.
  induction n as [|n IH]; intros w; cbv zeta.
  - cbn [waitAttempts]. rewrite run_throw. cbn [snd]. lia.
  - cbn [waitAttempts]. rewrite bind_unfold, run_call.
    destruct (inspect (tick w)) as [[|]|e].
    + rewrite run_ret. cbn [snd clock tick with_tick with_events]. unfold TIME_FRAME_MS. lia.
    + rewrite bind_unfold, run_timeout.
      match goal with |- context [waitAttempts env n engineId container ?w1] =>
        remember w1 as W eqn:EW end.
      assert (clock W = clock w + TIME_FRAME_MS) as Hc by (subst W; reflexivity).
      assert (tick W = S (tick w)) as Ht by (subst W; reflexivity).
      clear EW. specialize (IH W). cbv zeta in IH.
      unfold TIME_FRAME_MS in *. lia.
    + cbn [snd clock tick with_tick with_events]. unfold TIME_FRAME_MS. lia.
Qed.

Lemma MAX_ATTEMPTS_nat : Z.to_nat MAX_ATTEMPTS = 720%nat.
Proof. reflexivity. Qed.

(** C7. The wait polls every [TIME_FRAME_MS] = 5000 ms, at most
    [MAX_ATTEMPTS] = 720 times, one hour of sleep in all. It returns at the
    first inspection that finds the container running, having slept 5 s
    after each earlier one; if all 720 inspections find it not running it
    throws [Container <id> not started in time] after exactly one hour; and
    whatever the inspections return, it ends after at most 720 inspections
    and at most one hour asleep. *)
Theorem waitContainerIsRunning_poll (w : World) :
  (TIME_FRAME_MS = 5000 /\ MAX_ATTEMPTS = 720
   /\ MAX_ATTEMPTS * TIME_FRAME_MS = 60 * 60 * 1000)
  /\ (forall k, (k < 720)%nat ->
        (forall i, (i < k)%nat -> inspect (tick w + i)%nat = Ok false) ->
        inspect (tick w + k)%nat = Ok true ->
        waitContainerIsRunning env engineId container w
        = (Ok tt,
           with_tick (S (tick w + k))
             (with_events
                (events w ++ pollLog k engineId (container_Id container)
                   ++ [EvInspectContainer engineId (container_Id container)])
                (with_clock (clock w + 5000 * Z.of_nat k) w))))
  /\ ((forall i, (i < 720)%nat -> inspect (tick w + i)%nat = Ok false) ->
      waitContainerIsRunning env engineId container w
      = (Throw (mkError ("Container " +:+ container_Id container +:+ " not started in time")),
         afterPolls 720 engineId (container_Id container) w)
      /\ clock (afterPolls 720 engineId (container_Id container) w) = clock w + 3600000)
  /\ (let w' := (waitContainerIsRunning env engineId container w).2 in
      clock w <= clock w' <= clock w + 3600000
      /\ (tick w <= tick w' <= tick w + 720)%nat).
Proof.
  split; [repeat split; reflexivity|].
  unfold waitContainerIsRunning. rewrite MAX_ATTEMPTS_nat.
  split; [|split].
  - intros k Hk Hnot Hrun.
    replace 720%nat with (k + S (719 - k))%nat by lia.
    rewrite waitAttempts_polls by exact Hnot.
    cbn [waitAttempts]. rewrite bind_unfold, run_call.
    cbn [afterPolls tick with_events with_tick with_clock].
    rewrite Hrun. rewrite run_ret. f_equal.
    unfold TIME_FRAME_MS. world_eq.
  - intros Hnot.
    replace 720%nat with (720 + 0)%nat at 1 by lia.
    rewrite waitAttempts_polls by exact Hnot.
    split; [reflexivity|].
    cbn [afterPolls clock with_events with_tick with_clock]. reflexivity.
  - pose proof (waitAttempts_budget 720 w) as H. cbv zeta in H.
    change (TIME_FRAME_MS * Z.of_nat 720) with 3600000 in H. exact H.
Qed.

End Wait.

(** *** Health reconciliation *)

Section Reconciliation.

Variable env : Environment.
Variable obs : PodInfo -> PodHealth.
Hypothesis Hobs : forall t p, podManager_getHealth env t p = Ok (obs p).

Lemma setHealth_same st : setHealth (state_health st) st = st.
Proof. destruct st; reflexivity. Qed.

(** One turn of the loop does to the registry what the specification says,
    and touches nothing else but the log and the call counter. *)
Lemma checkPodHealth_refines changes p w :
  let r := checkPodHealth env changes p w in
  r.1 = Ok (changes || (specReconcilePod obs (applications w) p).2)
  /\ applications r.2 = (specReconcilePod obs (applications w) p).1
  /\ notifications r.2 = notifications w
  /\ enginePods r.2 = enginePods w
  /\ taskRegistry r.2 = taskRegistry w.
Proof.
  cbv zeta. unfold checkPodHealth, specReconcilePod.
  destruct (podKey p) as [[recipeId modelId]|].
  2:{ rewrite run_ret, orb_false_r. repeat split; reflexivity. }
  rewrite bind_unfold, run_gets.
  destruct (applications w !! (recipeId, modelId)) as [st|] eqn:Est.
  2:{ rewrite run_ret, orb_false_r. repeat split; reflexivity. }
  rewrite bind_unfold, run_call, Hobs. unfold observedChange.
  rewrite bind_unfold.
  destruct (bool_decide (state_health st <> obs p)) eqn:Eh.
  - rewrite bind_unfold, run_modify, run_ret.
    cbn [state_pod setPod]. rewrite String.eqb_refl. cbn [negb orb].
    rewrite run_ret. rewrite orb_true_r. cbn. repeat split; reflexivity.
  - rewrite run_ret. cbn [orb].
    destruct (negb (pod_Status p =? pod_Status (state_pod st))%string) eqn:Es.
    + rewrite bind_unfold, run_modify, run_ret.
      rewrite orb_true_r. cbn.
      apply bool_decide_eq_false in Eh. apply dec_stable in Eh. rewrite <- Eh.
      rewrite setHealth_same. repeat split; reflexivity.
    + rewrite run_ret, orb_false_r. cbn. repeat split; reflexivity.
Qed.


Lemma checkPods_refines pods : forall changes w,
  let r := forEachM (checkPodHealth env) pods changes w in
  r.1 = Ok (specReconcile obs pods (applications w) changes).2
  /\ applications r.2 = (specReconcile obs pods (applications w) changes).1
  /\ notifications r.2 = notifications w
  /\ enginePods r.2 = enginePods w
  /\ taskRegistry r.2 = taskRegistry w.
Proof.
  induction pods as [|p rest IH]; intros changes w; cbv zeta.
  - cbn [forEachM specReconcile]. rewrite run_ret. repeat split; reflexivity.
  - cbn [forEachM specReconcile]. rewrite bind_unfold.
    destruct (checkPodHealth_refines changes p w) as (H1 & H2 & H3 & H4 & H5).
    destruct (checkPodHealth env changes p w) as [r1 w1]. cbn [fst snd] in *.
    subst r1. destruct (specReconcilePod obs (applications w) p) as [apps' changed].
    cbn [fst snd] in *.
    destruct (IH (changes || changed) w1) as (I1 & I2 & I3 & I4 & I5).
    rewrite H2 in I1, I2. repeat split; congruence.
Qed.

(** **** The pass on the registry alone *)

Lemma specReconcilePod_key apps p k :
  podKey p = Some k ->
  specReconcilePod obs apps p
  = match apps !! k with
    | Some st =>
      if observedChange obs st p
      then (<[k := setPod p (setHealth (obs p) st)]> apps, true)
      else (apps, false)
    | None => (apps, false)
    end.
Proof. intros H. unfold specReconcilePod. rewrite H. reflexivity. Qed.

Lemma specReconcilePod_other apps p k :
  podKey p <> Some k -> (specReconcilePod obs apps p).1 !! k = apps !! k.
Proof.
  intros H. unfold specReconcilePod.
  destruct (podKey p) as [k'|]; [|reflexivity].
  destruct (apps !! k') as [st|]; [|reflexivity].
  destruct (observedChange obs st p); [|reflexivity].
  cbn [fst]. apply lookup_insert_ne. congruence.
Qed.

Lemma specReconcilePod_dom apps p : dom (specReconcilePod obs apps p).1 = dom apps.
Proof.
  unfold specReconcilePod.
  destruct (podKey p) as [k|]; [|reflexivity].
  destruct (apps !! k) as [st|] eqn:E; [|reflexivity].
  destruct (observedChange obs st p); [|reflexivity].
  cbn [fst]. rewrite dom_insert_L.
  assert (k ∈ dom apps) as Hin by (apply elem_of_dom; eauto).
  apply subseteq_union_1_L, singleton_subseteq_l, Hin.
Qed.

Lemma specReconcile_dom pods : forall apps c, dom (specReconcile obs pods apps c).1 = dom apps.
Proof.
  induction pods as [|p rest IH]; intros apps c; [reflexivity|].
  cbn [specReconcile]. pose proof (specReconcilePod_dom apps p) as H.
  destruct (specReconcilePod obs apps p) as [apps' changed]. cbn [fst] in H.
  rewrite IH. exact H.
Qed.

Lemma specReconcile_flag_true pods : forall apps, (specReconcile obs pods apps true).2 = true.
Proof.
  induction pods as [|p rest IH]; intros apps; [reflexivity|].
  cbn [specReconcile]. destruct (specReconcilePod obs apps p) as [apps' changed].
  cbn [orb]. apply IH.
Qed.

(** The entry of a key is left alone by pods of other keys and by pods
    that show no change against it. *)
Lemma specReconcile_frame k pods : forall apps c,
  (forall p st, p ∈ pods -> podKey p = Some k -> apps !! k = Some st ->
                observedChange obs st p = false) ->
  (specReconcile obs pods apps c).1 !! k = apps !! k.
Proof.
  induction pods as [|p rest IH]; intros apps c H; [reflexivity|].
  cbn [specReconcile].
  destruct (specReconcilePod obs apps p) as [apps' changed] eqn:E.
  assert (apps' !! k = apps !! k) as Hk.
  { destruct (decide (podKey p = Some k)) as [Hp|Hp].
    - rewrite (specReconcilePod_key _ _ _ Hp) in E.
      destruct (apps !! k) as [st|] eqn:Est; [|congruence].
      rewrite (H p st) in E; [congruence | constructor | exact Hp | reflexivity].
    - pose proof (specReconcilePod_other apps p k Hp) as H'. rewrite E in H'. exact H'. }
  rewrite IH; [exact Hk|].
  intros q st Hq Hkq Hst. rewrite Hk in Hst. apply (H q st); [constructor 2|..]; assumption.
Qed.

Lemma specReconcile_quiet pods : forall apps c,
  (forall p k st, p ∈ pods -> podKey p = Some k -> apps !! k = Some st ->
                  observedChange obs st p = false) ->
  specReconcile obs pods apps c = (apps, c).
Proof.
  induction pods as [|p rest IH]; intros apps c H; [reflexivity|].
  cbn [specReconcile].
  assert (specReconcilePod obs apps p = (apps, false)) as E.
  { unfold specReconcilePod. destruct (podKey p) as [k|] eqn:Hp; [|reflexivity].
    destruct (apps !! k) as [st|] eqn:Est; [|reflexivity].
    rewrite (H p k st); [reflexivity | constructor | assumption..]. }
  rewrite E, orb_false_r. apply IH.
  intros q k st Hq. apply H. constructor 2. exact Hq.
Qed.

Lemma specReconcile_noisy pods : forall apps c p k st,
  p ∈ pods -> podKey p = Some k -> apps !! k = Some st -> observedChange obs st p = true ->
  (specReconcile obs pods apps c).2 = true.
Proof.
  induction pods as [|x rest IH]; intros apps c p k st Hp Hk Hst Hch.
  - inversion Hp.
  - cbn [specReconcile].
    destruct (specReconcilePod obs apps x) as [apps' changed] eqn:E.
    destruct changed; [rewrite orb_true_r; apply specReconcile_flag_true|].
    assert (apps' = apps) as ->.
    { unfold specReconcilePod in E. destruct (podKey x) as [kx|]; [|congruence].
      destruct (apps !! kx) as [stx|]; [|congruence].
      destruct (observedChange obs stx x); congruence. }
    apply elem_of_cons in Hp. destruct Hp as [->|Hp].
    + rewrite (specReconcilePod_key _ _ _ Hk), Hst, Hch in E. congruence.
    + eapply IH; eassumption.
Qed.

Lemma observedChange_settled p st :
  observedChange obs (setPod p (setHealth (obs p) st)) p = false.
Proof.
  unfold observedChange. cbn [state_health state_pod setPod setHealth].
  rewrite String.eqb_refl. cbn [negb]. rewrite orb_false_r.
  apply bool_decide_eq_false. intros H. apply H. reflexivity.
Qed.

Lemma specReconcile_updates pods : forall apps c p k st,
  p ∈ pods -> podKey p = Some k -> apps !! k = Some st -> observedChange obs st p = true ->
  (forall q, q ∈ pods -> podKey q = Some k -> q = p) ->
  (specReconcile obs pods apps c).1 !! k = Some (setPod p (setHealth (obs p) st)).
Proof.
  induction pods as [|x rest IH]; intros apps c p k st Hp Hk Hst Hch Huniq.
  - inversion Hp.
  - cbn [specReconcile].
    destruct (specReconcilePod obs apps x) as [apps' changed] eqn:E.
    destruct (decide (podKey x = Some k)) as [Hx|Hx].
    + assert (x = p) as -> by (apply Huniq; [constructor | exact Hx]).
      rewrite (specReconcilePod_key _ _ _ Hk), Hst, Hch in E.
      injection E as <- <-.
      rewrite specReconcile_frame.
      * apply lookup_insert_eq.
      * intros q st' Hq Hkq Hst'. rewrite lookup_insert_eq in Hst'.
        injection Hst' as <-.
        rewrite (Huniq q); [apply observedChange_settled | constructor 2; exact Hq | exact Hkq].
    + pose proof (specReconcilePod_other apps x k Hx) as H'. rewrite E in H'. cbn [fst] in H'.
      apply elem_of_cons in Hp. destruct Hp as [->|Hp]; [congruence|].
      eapply IH; try eassumption.
      * congruence.
      * intros q Hq. apply Huniq. constructor 2. exact Hq.
Qed.

End Reconciliation.

(** The keys of the registry survive a pass whatever the health probes
    return, failures included. *)
Lemma checkPodHealth_dom env changes p w :
  dom (applications (checkPodHealth env changes p w).2) = dom (applications w).
Proof.
  unfold checkPodHealth. destruct (podKey p) as [[recipeId modelId]|]; [|reflexivity].
  rewrite bind_unfold, run_gets.
  destruct (applications w !! (recipeId, modelId)) as [st|] eqn:Est; [|reflexivity].
  assert ((recipeId, modelId) ∈ dom (applications w)) as Hin by (apply elem_of_dom; eauto).
  rewrite bind_unfold, run_call.
  destruct (podManager_getHealth env (tick w) p) as [h|e]; [|reflexivity].
  rewrite bind_unfold.
  destruct (bool_decide (state_health st <> h)).
  - rewrite bind_unfold, run_modify, run_ret.
    cbn [state_pod setPod]. rewrite String.eqb_refl. cbn [negb].
    rewrite run_ret. cbn. rewrite dom_insert_L.
    apply subseteq_union_1_L, singleton_subseteq_l, Hin.
  - rewrite run_ret.
    destruct (negb (pod_Status p =? pod_Status (state_pod st))%string).
    + rewrite bind_unfold, run_modify, run_ret. cbn. rewrite dom_insert_L.
      apply subseteq_union_1_L, singleton_subseteq_l, Hin.
    + rewrite run_ret. reflexivity.
Qed.

Lemma checkPodsHealth_keeps_keys env w :
  dom (applications (checkPodsHealth env w).2) = dom (applications w).
Proof.
  unfold checkPodsHealth. rewrite bind_unfold, run_getPodsWithLabels, bind_unfold.
  set (pods := PodManager_getPodsWithLabels _ _).
  set (w0 := with_events _ w). change (applications w) with (applications w0).
  generalize false. generalize w0. clear w0.
  induction pods as [|p rest IH]; intros w0 changes.
  - cbn [forEachM]. rewrite run_ret. destruct changes; reflexivity.
  - cbn [forEachM]. rewrite bind_unfold.
    pose proof (checkPodHealth_dom env changes p w0) as Hstep.
    destruct (checkPodHealth env changes p w0) as [[changes'|e] w1]; cbn [snd] in Hstep.
    + rewrite IH. exact Hstep.
    + exact Hstep.
Qed.

(** *** A pass that returns *)

Section ReconciliationAt.

Variable env : Environment.







(** **** The pass on the registry alone *)

Variable healthAt : nat -> PodInfo -> PodHealth.








End ReconciliationAt.





(** *** Containers attached to the pod *)

Section Containers.

Variable env : Environment.
Variable podInfo : PodInfo.
Variable images : list ImageInfo.
Variable modelInfo : ModelInfo.
Variable modelPath : string.

Lemma createdContainers_app a b :
  createdContainers (a ++ b) = createdContainers a ++ createdContainers b.
Proof. apply omap_app. Qed.

Lemma attachImage_run q image w :
  let r := attachImage env q podInfo images modelInfo modelPath image w in
  events r.2
  = events w ++
    [EvCreateContainer (pod_engineId podInfo)
       (imageContainerOptions env q podInfo images modelInfo modelPath image
          (getRandomName env (tick w) (appName image +:+ "-podified")))]
  /\ tick r.2 = S (S (tick w)).
Proof.
  cbv zeta. unfold attachImage. rewrite bind_unfold, run_randomName, run_engineCall.
  split; reflexivity.
Qed.

Lemma promiseAll_attach q l : forall w,
  let r := promiseAll (attachImage env q podInfo images modelInfo modelPath) l w in
  exists new,
    events r.2 = events w ++ new
    /\ createdContainers new
       = attachedContainers env q podInfo images modelInfo modelPath (tick w) l.
Proof.
  induction l as [|image rest IH]; intros w; cbv zeta.
  - exists []. cbn [promiseAll]. rewrite run_ret, app_nil_r. auto.
  - cbn [promiseAll]. rewrite bind_unfold, run_attempt.
    destruct (attachImage_run q image w) as (E1 & T1).
    destruct (attachImage env q podInfo images modelInfo modelPath image w) as [r1 w1].
    cbn [fst snd] in *.
    rewrite bind_unfold, run_attempt.
    destruct (IH w1) as (new & E2 & Hnew).
    destruct (promiseAll _ rest w1) as [r2 w2]. cbn [fst snd] in *.
    exists ([EvCreateContainer (pod_engineId podInfo)
               (imageContainerOptions env q podInfo images modelInfo modelPath image
                  (getRandomName env (tick w) (appName image +:+ "-podified")))] ++ new).
    split.
    + destruct r1; [destruct r2|]; rewrite ?run_throw; unfold liftResult; cbn [snd];
        rewrite E2, E1, <- app_assoc; reflexivity.
    + rewrite createdContainers_app, Hnew, T1. reflexivity.
Qed.

Lemma attachedContainers_Forall2 q (P : ImageInfo -> ContainerCreateOptions -> Prop) :
  (forall image podifiedName,
      P image (imageContainerOptions env q podInfo images modelInfo modelPath image
                 podifiedName)) ->
  forall l t,
    Forall2 P l (attachedContainers env q podInfo images modelInfo modelPath t l).
Proof.
  intros HP l. induction l as [|image rest IH]; intros t; constructor; auto.
Qed.

(** C2, as amended. Once the virtual-machine kind is known, one container
    is requested per image, in order, and for each image:
    - a model service gets the model file bind-mounted at [/<basename>]
      and the variables [MODEL_PATH=/<basename>] followed by the
      model-derived ones;
    - any other image gets no mount; its only variable is
      [MODEL_ENDPOINT=http://localhost:<p>], [p] being the first port
      declared by the first model-service image, and it gets no variable
      at all when there is no model-service image or that image declares
      no port;
    - a health check is attached exactly when the image declares a port,
      and it is a [CMD-SHELL] command probing the image's first port. *)
Theorem createContainerAndAttachToPod_containers (w : World) (q : bool) :
  isQEMUMachine env (tick w) = Ok q ->
  let r := createContainerAndAttachToPod env podInfo images modelInfo modelPath w in
  Forall2
    (fun image o =>
       Image o = id image
       /\ pod o = Some (pod_Id podInfo)
       /\ (modelService image = true ->
           HostConfig_ o = Some (modelMount env modelPath (if q then None else Some "Z"))
           /\ Env o = ("MODEL_PATH=/" +:+ path_basename env modelPath)
                        :: getModelPropertiesForEnvironment env modelInfo)
       /\ (modelService image = false ->
           HostConfig_ o = None
           /\ (forall ms p0 ps,
                  List.find modelService images = Some ms -> ports ms = p0 :: ps ->
                  Env o = ["MODEL_ENDPOINT=http://localhost:" +:+ p0])
           /\ (List.find modelService images = None
               \/ (exists ms, List.find modelService images = Some ms /\ ports ms = []) ->
               Env o = []))
       /\ (is_Some (HealthCheck o) <-> ports image <> [])
       /\ (forall hc, HealthCheck o = Some hc ->
             exists p0 ps, ports image = p0 :: ps
               /\ Test hc = ["CMD-SHELL"; "curl -s localhost:" +:+ p0 +:+ " > /dev/null"]))
    images (createdContainers (newEvents w r.2)).
Proof.
  intros Hq r. subst r. unfold createContainerAndAttachToPod.
  rewrite bind_unfold, run_call, Hq.
  match goal with |- context [promiseAll ?f images ?w1] =>
    destruct (promiseAll_attach q images w1) as (new & E & Hnew) end.
  cbv zeta in E, Hnew.
  erewrite newEvents_app.
  2:{ rewrite E. cbn [events with_events with_tick]. rewrite <- app_assoc. reflexivity. }
  rewrite createdContainers_app, Hnew. cbn [createdContainers omap app].
  apply attachedContainers_Forall2. clear.
  intros image podifiedName. unfold imageContainerOptions.
  split; [destruct (modelService image); [reflexivity|];
          destruct (List.find modelService images) as [ms|]; [destruct (ports ms)|];
          reflexivity|].
  split; [destruct (modelService image); [reflexivity|];
          destruct (List.find modelService images) as [ms|]; [destruct (ports ms)|];
          reflexivity|].
  split; [|split; [|split]].
  - intros Hms. rewrite Hms. split; reflexivity.
  - intros Hms. rewrite Hms.
    destruct (List.find modelService images) as [ms|]; [destruct (ports ms) as [|p0 ps] eqn:Ep|].
    + split; [reflexivity|]. split; [intros ms' p0 ps Hf Hp; congruence|reflexivity].
    + split; [reflexivity|]. split.
      * intros ms' p0' ps' Hf Hp. injection Hf as <-. rewrite Ep in Hp.
        injection Hp as <- <-. reflexivity.
      * intros [Hn | (ms' & Hf & Hp)]; [discriminate|]. congruence.
    + split; [reflexivity|]. split; [intros ms' p0 ps Hf; discriminate|reflexivity].
  - destruct (modelService image);
      [|destruct (List.find modelService images) as [ms|]; [destruct (ports ms)|]];
      cbn [HealthCheck]; destruct (ports image) as [|p0 ps];
      (split; [intros [hc Hhc]; congruence | intros Hne; try congruence; eauto]).
  - intros hc.
    destruct (modelService image);
      [|destruct (List.find modelService images) as [ms|]; [destruct (ports ms)|]];
      cbn [HealthCheck]; destruct (ports image) as [|p0 ps]; intros Hhc;
      try discriminate; injection Hhc as <-; eauto.
Qed.

End Containers.

(** C2, as stated, fails: an application image started without a model
    service beside it receives no [MODEL_ENDPOINT]; and when the model
    service's port 8000 is resolved to the free host port 50000, the
    application's [MODEL_ENDPOINT] names port 8000, the port declared by the
    image, not 50000. *)
Lemma model_endpoint_counterexample :
  map Env
    (createdContainers
       (events
          (createContainerAndAttachToPod happyEnv (podR1M1 "Created")
             [ {| id := "img-app"; modelService := false; ports := ["8501"];
                  appName := "chatbot" |} ]
             modelM1 "/models/model.gguf" emptyWorld).2))
  = [ [] ]
  /\ let r := createApplicationPod happyEnv recipeR1 modelM1 exampleImages
                "/models/model.gguf" ∅ emptyWorld in
     map (fun o => map (fun pm => (container_port pm, host_port pm)) (pc_portmappings o))
       (createdPods (events r.2))
     = [ [ (Some 8000, Some 50000); (Some 8501, Some 50001) ] ]
     /\ map Env (createdContainers (events r.2))
        = [ [ "MODEL_PATH=/model.gguf"; "MODEL_CHAT_FORMAT=llama-2" ];
            [ "MODEL_ENDPOINT=http://localhost:8000" ] ].
Proof. vm_compute. repeat split; reflexivity. Qed.

(** *** The ledger across a pull *)

Section Pull.

Variable env : Environment.
Hypothesis Hcollab : collaboratorsOwnTasks env.

Variable K : gmap string string.
Variable c : nat.
Variable ev0 : list Event.

Lemma fresh_frame w w' :
  fresh K c ev0 w ->
  taskRegistry w' = taskRegistry w ->
  (exists more, events w' = events w ++ more) ->
  fresh K c ev0 w'.
Proof.
  intros (Hc & Ht & rest & He) Hreg (more & Hev). unfold fresh. rewrite Hreg.
  split; [exact Hc|]. split; [exact Ht|].
  exists (rest ++ more). rewrite Hev, He, app_assoc. reflexivity.
Qed.

Lemma keeps_ret {A} (a : A) : keeps K c ev0 (mret a).
Proof. intros w H. exact H. Qed.

Lemma keeps_throw {A} (e : Error) : keeps K c ev0 (throw e : M A).
Proof. intros w H. exact H. Qed.

Lemma keeps_liftResult {A} (r : Result A) : keeps K c ev0 (liftResult r).
Proof. intros w H. exact H. Qed.

Lemma keeps_gets {A} (f : World -> A) : keeps K c ev0 (gets f).
Proof. intros w H. exact H. Qed.

Lemma keeps_bind {A B} (m : M A) (k : A -> M B) :
  keeps K c ev0 m -> (forall a, keeps K c ev0 (k a)) -> keeps K c ev0 (m ≫= k).
Proof.
  intros Hm Hk w H. rewrite bind_unfold. specialize (Hm w H).
  destruct (m w) as [[a|e] w1]; cbn [snd] in *; [apply Hk; exact Hm | exact Hm].
Qed.

Lemma keeps_attempt {A} (m : M A) : keeps K c ev0 m -> keeps K c ev0 (attempt m).
Proof. intros Hm w H. rewrite run_attempt. apply Hm, H. Qed.

Lemma keeps_modify (f : World -> World) :
  (forall w, taskRegistry (f w) = taskRegistry w) ->
  (forall w, exists more, events (f w) = events w ++ more) ->
  keeps K c ev0 (modify f).
Proof. intros H1 H2 w H. rewrite run_modify. eapply fresh_frame; eauto. Qed.

Lemma keeps_logEvent e : keeps K c ev0 (logEvent e).
Proof. apply keeps_modify; [reflexivity | intros w; exists [e]; reflexivity]. Qed.

Lemma keeps_notify : keeps K c ev0 notify.
Proof. apply keeps_modify; [reflexivity | intros w; exists [EvNotify]; reflexivity]. Qed.

Lemma keeps_timeout ms : keeps K c ev0 (timeout ms).
Proof. apply keeps_modify; [reflexivity | intros w; exists [EvTimeout ms]; reflexivity]. Qed.

Lemma keeps_modify_silent (f : World -> World) :
  (forall w, taskRegistry (f w) = taskRegistry w) ->
  (forall w, events (f w) = events w) ->
  keeps K c ev0 (modify f).
Proof.
  intros H1 H2. apply keeps_modify; [exact H1|].
  intros w. exists []. rewrite app_nil_r. apply H2.
Qed.

Lemma keeps_randomName prefix : keeps K c ev0 (randomName env prefix).
Proof.
  intros w H. rewrite run_randomName. eapply fresh_frame; [exact H | reflexivity |].
  exists []. rewrite app_nil_r. reflexivity.
Qed.

Lemma keeps_call {A} e (f : nat -> Result A) : keeps K c ev0 (call e f).
Proof.
  intros w H. rewrite run_call. eapply fresh_frame; [exact H | reflexivity |].
  exists [e]. reflexivity.
Qed.

Lemma keeps_engineCall {A} e (f : nat -> list PodInfo -> Result A * list PodInfo) :
  keeps K c ev0 (engineCall e f).
Proof.
  intros w H. rewrite run_engineCall. eapply fresh_frame; [exact H | reflexivity |].
  exists [e]. reflexivity.
Qed.

Lemma fresh_ownLedger w reg' more :
  fresh K c ev0 w -> ownLedger (taskRegistry w) reg' ->
  fresh K c ev0 (with_taskRegistry reg' (with_events (events w ++ more) w)).
Proof.
  intros (Hc & Ht & rest & He) (Hcount & Hown). unfold fresh.
  cbn [taskRegistry events with_taskRegistry with_events].
  split; [lia|]. split.
  - intros t' Hin HK. destruct (Hown t' Hin) as [Hnew | (t & Hin0 & Hid & Hl)].
    + lia.
    + rewrite <- Hid. apply Ht; [exact Hin0 | rewrite Hl; exact HK].
  - exists (rest ++ more). rewrite He, app_assoc. reflexivity.
Qed.

Lemma keeps_ledgerCall {A} e (f : nat -> TaskRegistry -> Result A * TaskRegistry) :
  (forall t reg, ownLedger reg (f t reg).2) -> keeps K c ev0 (ledgerCall e f).
Proof.
  intros Hf w H. rewrite run_ledgerCall. cbn [snd].
  pose proof (fresh_ownLedger w (f (tick w) (taskRegistry w)).2 [e] H (Hf _ _)) as H'.
  destruct H' as (H1 & H2 & H3). repeat split; assumption.
Qed.

Lemma keeps_deleteByLabels labels : keeps K c ev0 (deleteByLabels labels).
Proof.
  intros w (Hc & Ht & rest & He). rewrite run_deleteByLabels. unfold fresh.
  cbn [snd taskRegistry events with_taskRegistry with_events TaskRegistry_deleteByLabels
         counter tasks].
  split; [exact Hc|]. split.
  - intros t Hin. apply list_elem_of_In, filter_In in Hin. destruct Hin as [Hin _].
    apply Ht, list_elem_of_In, Hin.
  - exists (rest ++ [EvDeleteTasks labels]). rewrite He, app_assoc. reflexivity.
Qed.

Lemma keeps_updateTask t : (c < task_id t)%nat -> keeps K c ev0 (updateTask t).
Proof.
  intros Hid w (Hc & Ht & rest & He). rewrite run_updateTask. unfold fresh.
  cbn [snd taskRegistry events with_taskRegistry with_events TaskRegistry_updateTask
         counter tasks].
  split; [exact Hc|]. split.
  - intros t' Hin HK. apply list_elem_of_In, in_map_iff in Hin.
    destruct Hin as (t0 & Heq & Hin0).
    destruct (task_id t0 =? task_id t)%nat; subst t'; [exact Hid|].
    apply Ht; [apply list_elem_of_In, Hin0 | exact HK].
  - exists (rest ++ [EvUpdateTask t]). rewrite He, app_assoc. reflexivity.
Qed.

(** A task just created is numbered beyond [c]. *)
Lemma keeps_createTask_bind {B} name st labels (k : Task -> M B) :
  (forall t, (c < task_id t)%nat -> keeps K c ev0 (k t)) ->
  keeps K c ev0 (createTask name st labels ≫= k).
Proof.
  intros Hk w (Hc & Ht & rest & He). rewrite bind_unfold, run_createTask.
  apply Hk; [cbn; lia|]. unfold fresh.
  cbn [fst snd taskRegistry events with_taskRegistry with_events TaskRegistry_createTask
         counter tasks].
  split; [lia|]. split.
  - intros t Hin HK. apply elem_of_app in Hin. destruct Hin as [Hin|Hin].
    + apply Ht; assumption.
    + apply list_elem_of_singleton in Hin. subst t. cbn. lia.
  - eexists (rest ++ [_]). rewrite He, app_assoc. reflexivity.
Qed.

Lemma keeps_forEachM {A S} (f : S -> A -> M S) (l : list A) :
  (forall s x, keeps K c ev0 (f s x)) -> forall s, keeps K c ev0 (forEachM f l s).
Proof.
  intros Hf. induction l as [|x rest IH]; intros s; cbn [forEachM].
  - apply keeps_ret.
  - apply keeps_bind; [apply Hf | exact IH].
Qed.

Lemma keeps_forM_ {A} (f : A -> M unit) (l : list A) :
  (forall x, keeps K c ev0 (f x)) -> keeps K c ev0 (forM_ f l).
Proof.
  intros Hf. induction l as [|x rest IH]; cbn [forM_].
  - apply keeps_ret.
  - apply keeps_bind; [apply Hf | intros _; exact IH].
Qed.

Lemma keeps_promiseAll {A} (f : A -> M unit) (l : list A) :
  (forall x, keeps K c ev0 (f x)) -> keeps K c ev0 (promiseAll f l).
Proof.
  intros Hf. induction l as [|x rest IH]; cbn [promiseAll].
  - apply keeps_ret.
  - apply keeps_bind; [apply keeps_attempt, Hf|]. intros r.
    apply keeps_bind; [apply keeps_attempt, IH|]. intros r'.
    destruct r; [apply keeps_liftResult | apply keeps_throw].
Qed.


Create HintDb keepsdb.

Ltac keeps_side :=
  repeat match goal with
         | |- context [match ?r with _ => _ end] => destruct r
         end;
  cbn; assumption.

Ltac keeps_step :=
  first
    [ solve [auto with keepsdb nocore]
    | apply keeps_ret | apply keeps_throw | apply keeps_liftResult | apply keeps_gets
    | apply keeps_logEvent | apply keeps_notify | apply keeps_timeout
    | apply keeps_randomName | apply keeps_call | apply keeps_engineCall
    | apply keeps_deleteByLabels
    | apply keeps_ledgerCall; intros; solve [auto]
    | apply keeps_createTask_bind; intros ? ?
    | apply keeps_updateTask; keeps_side
    | apply keeps_attempt
    | apply keeps_modify_silent; [reflexivity | reflexivity]
    | apply keeps_forEachM; intros ? ?
    | apply keeps_forM_; intros ?
    | apply keeps_promiseAll; intros ?
    | apply keeps_bind; [ | intros ? ]
    | match goal with
      | |- keeps K c ev0 (match ?x with _ => _ end) => destruct x
      end
    | progress cbv zeta ].

Ltac keeps_go := repeat keeps_step.

Lemma keeps_findPodByLabelsValues requested : keeps K c ev0 (findPodByLabelsValues requested).
Proof. unfold findPodByLabelsValues. keeps_go. Qed.
#[local] Hint Resolve keeps_findPodByLabelsValues : keepsdb.

Lemma keeps_getPodsWithLabels labels : keeps K c ev0 (getPodsWithLabels labels).
Proof. unfold getPodsWithLabels. keeps_go. Qed.
#[local] Hint Resolve keeps_getPodsWithLabels : keepsdb.

Lemma keeps_hasApplicationPod r m : keeps K c ev0 (hasApplicationPod r m).
Proof. unfold hasApplicationPod. keeps_go. Qed.
#[local] Hint Resolve keeps_hasApplicationPod : keepsdb.

Lemma keeps_getApplicationPod r m : keeps K c ev0 (getApplicationPod r m).
Proof. unfold getApplicationPod, findPod. keeps_go. Qed.
#[local] Hint Resolve keeps_getApplicationPod : keepsdb.

Lemma keeps_clearTasks r m : keeps K c ev0 (clearTasks r m).
Proof. unfold clearTasks. keeps_go. Qed.
#[local] Hint Resolve keeps_clearTasks : keepsdb.

Lemma keeps_checkPodHealth changes p : keeps K c ev0 (checkPodHealth env changes p).
Proof. unfold checkPodHealth. keeps_go. Qed.
#[local] Hint Resolve keeps_checkPodHealth : keepsdb.

Lemma keeps_checkPodsHealth : keeps K c ev0 (checkPodsHealth env).
Proof. unfold checkPodsHealth. keeps_go. Qed.
#[local] Hint Resolve keeps_checkPodsHealth : keepsdb.

Lemma keeps_stopApplication r m : keeps K c ev0 (stopApplication env r m).
Proof. unfold stopApplication. keeps_go. Qed.
#[local] Hint Resolve keeps_stopApplication : keepsdb.

Lemma keeps_removeApplication r m : keeps K c ev0 (removeApplication env r m).
Proof. unfold removeApplication. keeps_go. Qed.
#[local] Hint Resolve keeps_removeApplication : keepsdb.

Lemma keeps_waitAttempts n engineId container :
  keeps K c ev0 (waitAttempts env n engineId container).
Proof. induction n as [|n IH]; cbn [waitAttempts]; keeps_go. Qed.

Lemma keeps_waitContainerIsRunning engineId container :
  keeps K c ev0 (waitContainerIsRunning env engineId container).
Proof. apply keeps_waitAttempts. Qed.
#[local] Hint Resolve keeps_waitContainerIsRunning : keepsdb.

Lemma keeps_runApplication podInfo labels : keeps K c ev0 (runApplication env podInfo labels).
Proof. unfold runApplication. keeps_go. Qed.
#[local] Hint Resolve keeps_runApplication : keepsdb.

Lemma keeps_createContainerAndAttachToPod podInfo images modelInfo modelPath :
  keeps K c ev0 (createContainerAndAttachToPod env podInfo images modelInfo modelPath).
Proof. unfold createContainerAndAttachToPod, attachImage. keeps_go. Qed.
#[local] Hint Resolve keeps_createContainerAndAttachToPod : keepsdb.

Lemma keeps_createPod recipe model images : keeps K c ev0 (createPod env recipe model images).
Proof. unfold createPod, mapExposedPort. keeps_go. Qed.
#[local] Hint Resolve keeps_createPod : keepsdb.

Lemma keeps_createApplicationPod recipe model images modelPath labels :
  keeps K c ev0 (createApplicationPod env recipe model images modelPath labels).
Proof. unfold createApplicationPod. keeps_go. Qed.
#[local] Hint Resolve keeps_createApplicationPod : keepsdb.

Lemma keeps_cloneApplication recipe labels : keeps K c ev0 (cloneApplication env recipe labels).
Proof. unfold cloneApplication, doCheckout. keeps_go. Qed.
#[local] Hint Resolve keeps_cloneApplication : keepsdb.

Lemma keeps_getConfigAndFilterContainers recipeBaseDir localFolder labels :
  keeps K c ev0 (getConfigAndFilterContainers env recipeBaseDir localFolder labels).
Proof. unfold getConfigAndFilterContainers, getConfiguration. keeps_go. Qed.
#[local] Hint Resolve keeps_getConfigAndFilterContainers : keepsdb.

Lemma keeps_initApplication recipe model labels :
  keeps K c ev0 (initApplication env recipe model labels).
Proof.
  destruct Hcollab as (Hdl & Hup & Hbuild).
  unfold initApplication. keeps_go.
Qed.
#[local] Hint Resolve keeps_initApplication : keepsdb.


Lemma keeps_pull_rest recipe model labels :
  keeps K c ev0
    (r ← attempt
           (podInfo ← initApplication env recipe model labels;
            runApplication env podInfo
              (withRecipeModel labels (recipe_id recipe) (mi_id model));;
            logEvent (EvTelemetryUsage "recipe.pull"));
     match r with
     | Ok _ => mret tt
     | Throw err => logEvent (EvTelemetryError "recipe.pull" err);; throw err
     end).
Proof. keeps_go. Qed.

End Pull.

(** **** Clearing, then one failed checkout *)

Lemma deleteByLabels_tasks labels reg t :
  t ∈ tasks (TaskRegistry_deleteByLabels labels reg)
  <-> t ∈ tasks reg /\ ~ labels ⊆ task_labels t.
Proof.
  unfold TaskRegistry_deleteByLabels. cbn [tasks].
  rewrite !list_elem_of_In, filter_In, negb_true_iff.
  rewrite <- labelsMatch_spec. destruct (labelsMatch labels (task_labels t)); split.
  - intros [_ H]. discriminate.
  - intros [_ H]. exfalso. apply H. reflexivity.
  - intros [H _]. split; [exact H | discriminate].
  - intros [H _]. auto.
Qed.

Lemma filter_matching_deleted labels (l : list Task) :
  List.filter (fun t => labelsMatch labels (task_labels t))
    (List.filter (fun t => negb (labelsMatch labels (task_labels t))) l) = [].
Proof.
  induction l as [|t l IH]; [reflexivity|]. cbn [List.filter].
  destruct (labelsMatch labels (task_labels t)) eqn:E; cbn [negb List.filter].
  - exact IH.
  - rewrite E. exact IH.
Qed.

Lemma updateTask_other_ids (n : nat) t (l : list Task) :
  (forall t0, In t0 l -> task_id t0 <> n) ->
  map (fun t0 => if (task_id t0 =? n)%nat then t else t0) l = l.
Proof.
  intros H. induction l as [|t0 l IH]; [reflexivity|]. cbn [map].
  destruct (Nat.eqb_spec (task_id t0) n) as [E|E].
  - exfalso. apply (H t0); [left; reflexivity | exact E].
  - rewrite IH; [reflexivity|]. intros t1 Ht1. apply H. right. exact Ht1.
Qed.

Lemma checkoutLabels_match labels (r m : string) :
  labelsMatch (recipeModelLabels r m)
    (<["git" := "checkout"]> (<["recipe-id" := r]> (<["model-id" := m]> labels))) = true.
Proof.
  apply labelsMatch_spec, recipeModelLabels_lookup. split.
  - rewrite lookup_insert_ne by done. apply lookup_insert_eq.
  - rewrite lookup_insert_ne by done. rewrite lookup_insert_ne by done.
    apply lookup_insert_eq.
Qed.

(** X29. [pullApplication] first deletes from the ledger every task that
    bears the key's [recipe-id] and [model-id] labels: the deletion is the
    first thing it does, before any task is created. Provided the
    collaborators that record tasks only add tasks of their own, every task
    bearing the key's labels when the pull ends, successfully or not, was
    created by this pull, none is left from before. In particular, when the
    checkout of the recipe fails, the ledger ends with exactly one task for
    the key, the new [Checking out repository] task in state [error],
    whatever chain an earlier attempt had left. *)
Theorem pullApplication_clears_first env recipe model labels (w : World) :
  collaboratorsOwnTasks env ->
  let K := recipeModelLabels (recipe_id recipe) (mi_id model) in
  let r := pullApplication env recipe model labels w in
  (exists rest, events r.2 = events w ++ EvDeleteTasks K :: rest)
  /\ (forall t, t ∈ tasks (TaskRegistry_deleteByLabels K (taskRegistry w)) <->
                t ∈ tasks (taskRegistry w) /\ ~ K ⊆ task_labels t)
  /\ (forall t, t ∈ tasks (taskRegistry r.2) -> K ⊆ task_labels t ->
                (counter (taskRegistry w) < task_id t)%nat)
  /\ (ledgerWellFormed (taskRegistry w) ->
      (forall t, t ∈ tasks (taskRegistry r.2) -> K ⊆ task_labels t ->
                 t ∉ tasks (taskRegistry w))
      /\ forall e,
           git_processCheckout env (tick w)
             {| repository := recipe_repository recipe;
                ref := recipe_ref recipe;
                targetDirectory := path_join env [appUserDirectory env; recipe_id recipe] |}
           = Throw e ->
           r.1 = Throw e
           /\ List.filter (fun t => labelsMatch K (task_labels t)) (tasks (taskRegistry r.2))
              = [ {| task_id := S (counter (taskRegistry w));
                     task_name := "Checking out repository";
                     task_state := error;
                     task_error := Some (String_ e);
                     task_labels :=
                       <["git" := "checkout"]>
                         (<["recipe-id" := recipe_id recipe]>
                            (<["model-id" := mi_id model]> labels)) |} ]).
Proof.
  intros Hcollab K r.
  assert (fresh K (counter (taskRegistry w)) (events w ++ [EvDeleteTasks K]) r.2
          /\ r = (attempt
                    (podInfo ← initApplication env recipe model labels;
                     runApplication env podInfo
                       (withRecipeModel labels (recipe_id recipe) (mi_id model));;
                     logEvent (EvTelemetryUsage "recipe.pull"))
                  ≫= (fun r0 => match r0 with
                                | Ok _ => mret tt
                                | Throw err =>
                                  logEvent (EvTelemetryError "recipe.pull" err);; throw err
                                end))
                   (with_events (events w ++ [EvDeleteTasks K])
                      (with_taskRegistry (TaskRegistry_deleteByLabels K (taskRegistry w)) w)))
    as [Hfresh Hr].
  { subst r. unfold pullApplication. rewrite bind_unfold, run_deleteByLabels.
    split; [|reflexivity].
    apply (keeps_pull_rest env Hcollab). unfold fresh.
    cbn [taskRegistry events with_taskRegistry with_events].
    split; [reflexivity|]. split.
    - intros t Hin HK. apply deleteByLabels_tasks in Hin. destruct Hin as [_ Hn].
      contradiction.
    - exists []. rewrite app_nil_r. reflexivity. }
  destruct Hfresh as (Hc & Ht & rest & He).
  split; [exists rest; rewrite He, <- app_assoc; reflexivity|].
  split; [intros t; apply deleteByLabels_tasks|].
  split; [exact Ht|].
  intros Hwf. split.
  - intros t Hin HK Hold. specialize (Ht t Hin HK). specialize (Hwf t Hold). lia.
  - intros e Hgit. clear Hc Ht He rest.
    rewrite Hr. clear Hr r.
    unfold initApplication, cloneApplication, doCheckout.
    rewrite bind_unfold, run_attempt.
    rewrite !bind_unfold, run_createTask, !bind_unfold, run_attempt, run_call.
    cbn [tick with_events with_taskRegistry fst snd].
    rewrite Hgit. cbn [fst snd].
    rewrite bind_unfold, run_updateTask, run_throw. cbv beta iota. cbn [fst snd].
    rewrite bind_unfold, run_logEvent, run_throw.
    split; [reflexivity|].
    cbn [fst snd taskRegistry events with_taskRegistry with_events with_tick
           TaskRegistry_createTask TaskRegistry_updateTask TaskRegistry_deleteByLabels
           counter tasks task_id setTaskError setTaskState].
    rewrite map_app, updateTask_other_ids.
    2:{ intros t0 Hin. apply filter_In in Hin. destruct Hin as [Hin _].
        apply list_elem_of_In in Hin. specialize (Hwf t0 Hin). lia. }
    cbn [map task_id]. rewrite Nat.eqb_refl.
    rewrite List.filter_app, filter_matching_deleted. cbn [app List.filter task_labels].
    cbn [task_labels setTaskError setTaskState]. unfold K. rewrite checkoutLabels_match.
    reflexivity.
Qed.

(** *** A pull that fails at the configuration *)

(** C8. The recipe (r1, m1) is pulled twice on an empty ledger; the
    checkout works, the configuration file is missing. Both pulls throw.
    The second pull deletes the checkout task of the first, which bears
    the key's labels; the 'Loading configuration' task of the first
    attempt bears no label, since [initApplication] hands none to
    [getConfigAndFilterContainers], and is still there beside the new
    one. No task in state [error] bears the labels of the key. *)
Theorem pullApplication_stale_configuration_task :
  let failure :=
    Throw (mkError "The file located at /home/user/ai-lab/r1/ai-lab.yaml does not exist.") in
  let first := pullApplication missingConfigEnv recipeR1 modelM1 ∅ emptyWorld in
  let second := pullApplication missingConfigEnv recipeR1 modelM1 ∅ first.2 in
  first.1 = failure
  /\ second.1 = failure
  /\ map (fun t => (task_id t, task_name t, task_labels t)) (tasks (taskRegistry first.2))
     = [ (1%nat, "Checking out repository",
          <["git" := "checkout"]> (recipeModelLabels "r1" "m1"));
         (2%nat, "Loading configuration", ∅) ]
  /\ map (fun t => (task_id t, task_name t, task_labels t)) (tasks (taskRegistry second.2))
     = [ (2%nat, "Loading configuration", ∅);
         (3%nat, "Checking out repository",
          <["git" := "checkout"]> (recipeModelLabels "r1" "m1"));
         (4%nat, "Loading configuration", ∅) ]
  /\ List.filter (isErrorTaskOf "r1" "m1") (tasks (taskRegistry second.2)) = [].
Proof.
  cbv zeta. repeat (split; [vm_compute; reflexivity|]). vm_compute. reflexivity.
Qed.

(** *** The theorems on the example engine *)

(** The example collaborators only ever add a task of their own. *)
Lemma exampleEnv_ownTasks git portsInfo inspect healthOf :
  collaboratorsOwnTasks (exampleEnv git portsInfo inspect healthOf).
Proof.
  assert (forall name st labels reg,
             ownLedger reg (TaskRegistry_createTask name st labels reg).2) as Hcreate.
  { intros name st labels reg. split; [cbn; lia|].
    intros t' Hin. cbn in Hin. apply elem_of_app in Hin. destruct Hin as [Hin|Hin].
    - right. exists t'. auto.
    - left. apply list_elem_of_singleton in Hin. subst t'. cbn. lia. }
  assert (forall reg, ownLedger reg reg) as Hsame.
  { intros reg. split; [lia|]. intros t' Hin. right. exists t'. auto. }
  split; [|split].
  - intros t model labels reg. cbn.
    exact (Hcreate "Downloading model" success labels reg).
  - intros t model labels reg. apply Hsame.
  - intros t recipe containers path labels reg. cbn.
    exact (Hcreate "Building images" success labels reg).
Qed.

(** Stopping (r1, m1) when its pod has exited. *)
Lemma stopApplication_exited_witness :
  let w := with_enginePods [podR1M1 "Exited"] emptyWorld in
  let r := stopApplication happyEnv "r1" "m1" w in
  r.1 = Ok (podR1M1 "Exited")
  /\ existsb isStopPod (newEvents w r.2) = false
  /\ enginePods r.2 = enginePods w
  /\ applications r.2 = applications w.
Proof.
  intros w r.
  destruct (stopApplication_exited happyEnv "r1" "m1" w (podR1M1 "Exited")
              ltac:(vm_compute; reflexivity) eq_refl)
    as (H1 & _ & _ & H4 & _ & H6 & H7 & _).
  split; [exact H1|]. split; [exact H4|]. split; [exact H6 | exact H7].
Defined.

(** A lone model service is refused; the two example images give a pod
    named after the chatbot. *)
Lemma createPod_needs_sample_app_witness :
  createPod happyEnv recipeR1 modelM1
    [ {| id := "img-model"; modelService := true; ports := ["8000"]; appName := "llm" |} ]
    emptyWorld
  = (Throw (mkError "no sample app found"),
     with_events [EvConsoleError "no sample app image found"] emptyWorld)
  /\ exists t options,
       createdPods
         (newEvents emptyWorld (createPod happyEnv recipeR1 modelM1 exampleImages emptyWorld).2)
       = [options]
       /\ pc_name options = getRandomName happyEnv t "pod-chatbot".
Proof.
  split.
  - apply (proj1 (createPod_needs_sample_app happyEnv recipeR1 modelM1 _ emptyWorld)).
    reflexivity.
  - destruct (proj2 (createPod_needs_sample_app happyEnv recipeR1 modelM1 exampleImages
                       emptyWorld)
                {| id := "img-app"; modelService := false; ports := ["8501"];
                   appName := "chatbot" |} eq_refl) as [[_ Hfail] | H].
    + vm_compute in Hfail. discriminate Hfail.
    + exact H.
Defined.

(** A container found running at the third inspection, after 10 s; and
    one that never runs, given up after an hour. *)
Lemma waitContainerIsRunning_poll_witness :
  let c := {| container_Id := "c1" |} in
  waitContainerIsRunning slowStartEnv "podman" c emptyWorld
  = (Ok tt,
     with_tick 3
       (with_events
          [ EvInspectContainer "podman" "c1"; EvTimeout 5000;
            EvInspectContainer "podman" "c1"; EvTimeout 5000;
            EvInspectContainer "podman" "c1" ]
          (with_clock 10000 emptyWorld)))
  /\ (waitContainerIsRunning neverRunningEnv "podman" c emptyWorld).1
     = Throw (mkError "Container c1 not started in time")
  /\ clock (waitContainerIsRunning neverRunningEnv "podman" c emptyWorld).2 = 3600000.
Proof.
  intros c. split; [|split].
  - destruct (waitContainerIsRunning_poll slowStartEnv "podman" c emptyWorld)
      as (_ & Hrun & _).
    apply (Hrun 2%nat); [lia | | reflexivity].
    intros i Hi. destruct i as [|[|i]]; [reflexivity | reflexivity | lia].
  - destruct (waitContainerIsRunning_poll neverRunningEnv "podman" c emptyWorld)
      as (_ & _ & Hnever & _).
    destruct (Hnever (fun i _ => eq_refl)) as [-> _]. reflexivity.
  - destruct (waitContainerIsRunning_poll neverRunningEnv "podman" c emptyWorld)
      as (_ & _ & Hnever & _).
    destruct (Hnever (fun i _ => eq_refl)) as [-> Hclock]. exact Hclock.
Defined.



(** The two example images give two containers. *)
Lemma createContainerAndAttachToPod_containers_witness :
  isQEMUMachine happyEnv (tick emptyWorld) = Ok false
  /\ length
       (createdContainers
          (newEvents emptyWorld
             (createContainerAndAttachToPod happyEnv (podR1M1 "Created") exampleImages
                modelM1 "/models/model.gguf" emptyWorld).2)) = 2%nat.
Proof.
  split; [reflexivity|].
  pose proof (createContainerAndAttachToPod_containers happyEnv (podR1M1 "Created")
                exampleImages modelM1 "/models/model.gguf" emptyWorld false eq_refl) as H.
  apply Forall2_length in H. rewrite <- H. reflexivity.
Defined.

Lemma staleLedger_wellFormed : ledgerWellFormed staleLedger.
Proof.
  intros t Hin. cbn [tasks staleLedger] in Hin.
  apply elem_of_cons in Hin. destruct Hin as [-> | Hin]; [cbn; lia|].
  apply list_elem_of_singleton in Hin. subst t. cbn. lia.
Qed.

(** A second failed checkout of (r1, m1) over the ledger left by the
    first: one task for the key, the new one. *)
Lemma pullApplication_clears_first_witness :
  let w := with_taskRegistry staleLedger emptyWorld in
  let r := pullApplication failingCheckoutEnv recipeR1 modelM1 ∅ w in
  r.1 = Throw (mkError "clone failed")
  /\ map (fun t => (task_id t, task_state t))
       (List.filter (fun t => labelsMatch (recipeModelLabels "r1" "m1") (task_labels t))
          (tasks (taskRegistry r.2)))
     = [(3%nat, error)].
Proof.
  intros w r.
  destruct (pullApplication_clears_first failingCheckoutEnv recipeR1 modelM1 ∅ w
              (exampleEnv_ownTasks _ _ _ _)) as (_ & _ & _ & Hwf).
  destruct (Hwf staleLedger_wellFormed) as [_ Hfail].
  destruct (Hfail (mkError "clone failed") eq_refl) as [Hr Htasks].
  split; [exact Hr|].
  unfold r. change (recipeModelLabels "r1" "m1")
    with (recipeModelLabels (recipe_id recipeR1) (mi_id modelM1)).
  rewrite Htasks. reflexivity.
Defined.

(** *** Footprints *)

Section Footprint.

Variable env : Environment.
Variable fl : Touch.
Variable P : Event -> bool.

Lemma within_refl w : within fl P w w.
Proof.
  unfold within. repeat (split; [reflexivity|]). exists []. rewrite app_nil_r. auto.
Qed.

Lemma within_trans w1 w2 w3 :
  within fl P w1 w2 -> within fl P w2 w3 -> within fl P w1 w3.
Proof.
  intros (A1 & A2 & A3 & A4 & A5 & A6 & m1 & E1 & F1)
         (B1 & B2 & B3 & B4 & B5 & B6 & m2 & E2 & F2).
  unfold within.
  split; [intros H; rewrite B1, A1 by exact H; reflexivity|].
  split; [intros H; rewrite B2, A2 by exact H; reflexivity|].
  split; [intros H; rewrite B3, A3 by exact H; reflexivity|].
  split; [intros H; rewrite B4, A4 by exact H; reflexivity|].
  split; [intros H; rewrite B5, A5 by exact H; reflexivity|].
  split; [intros H; rewrite B6, A6 by exact H; reflexivity|].
  exists (m1 ++ m2). rewrite E2, E1, app_assoc, forallb_app, F1, F2. auto.
Qed.

Lemma within_log w (e : Event) (w' : World) :
  P e = true ->
  within fl P (with_events (events w ++ [e]) w) w' -> within fl P w w'.
Proof.
  intros He H. eapply within_trans; [|exact H].
  unfold within. repeat (split; [reflexivity|]). exists [e]. cbn. rewrite He. auto.
Qed.

Lemma stays_ret {A} (a : A) : stays fl P (mret a).
Proof. intros w. apply within_refl. Qed.

Lemma stays_throw {A} (e : Error) : stays fl P (throw e : M A).
Proof. intros w. apply within_refl. Qed.

Lemma stays_liftResult {A} (r : Result A) : stays fl P (liftResult r).
Proof. intros w. apply within_refl. Qed.

Lemma stays_gets {A} (f : World -> A) : stays fl P (gets f).
Proof. intros w. apply within_refl. Qed.

Lemma stays_bind {A B} (m : M A) (k : A -> M B) :
  stays fl P m -> (forall a, stays fl P (k a)) -> stays fl P (m ≫= k).
Proof.
  intros Hm Hk w. rewrite bind_unfold. specialize (Hm w).
  destruct (m w) as [[a|e] w1]; cbn [snd] in *; [|exact Hm].
  eapply within_trans; [exact Hm | apply Hk].
Qed.

Lemma stays_attempt {A} (m : M A) : stays fl P m -> stays fl P (attempt m).
Proof. intros Hm w. rewrite run_attempt. apply Hm. Qed.

Lemma stays_logEvent e : P e = true -> stays fl P (logEvent e).
Proof.
  intros He w. rewrite run_logEvent. eapply within_log; [exact He | apply within_refl].
Qed.

Lemma stays_randomName prefix : stays fl P (randomName env prefix).
Proof.
  intros w. rewrite run_randomName. unfold within. repeat (split; [reflexivity|]).
  exists []. rewrite app_nil_r. auto.
Qed.

Lemma stays_call {A} e (f : nat -> Result A) : P e = true -> stays fl P (call e f).
Proof.
  intros He w. rewrite run_call. unfold within. repeat (split; [reflexivity|]).
  exists [e]. cbn. rewrite He. auto.
Qed.

Lemma stays_engineCall {A} e (f : nat -> list PodInfo -> Result A * list PodInfo) :
  P e = true -> t_engine fl = true -> stays fl P (engineCall e f).
Proof.
  intros He Ht w. rewrite run_engineCall. unfold within. cbn.
  split; [reflexivity|]. split; [congruence|]. repeat (split; [reflexivity|]).
  exists [e]. cbn. rewrite He. auto.
Qed.

(** Reading the engine changes nothing. *)
Lemma stays_engineRead {A} e (f : nat -> list PodInfo -> Result A) :
  P e = true -> stays fl P (engineCall e (fun t pods => (f t pods, pods))).
Proof.
  intros He w. rewrite run_engineCall. unfold within. cbn.
  repeat (split; [reflexivity|]). exists [e]. cbn. rewrite He. auto.
Qed.

Lemma stays_ledgerCall {A} e (f : nat -> TaskRegistry -> Result A * TaskRegistry) :
  P e = true -> t_ledger fl = true -> stays fl P (ledgerCall e f).
Proof.
  intros He Ht w. rewrite run_ledgerCall. unfold within. cbn.
  split; [congruence|]. repeat (split; [reflexivity|]).
  exists [e]. cbn. rewrite He. auto.
Qed.

Lemma stays_createTask name st labels :
  (forall t, P (EvCreateTask t) = true) -> t_ledger fl = true ->
  stays fl P (createTask name st labels).
Proof.
  intros He Ht w. rewrite run_createTask. unfold within. cbn.
  split; [congruence|]. repeat (split; [reflexivity|]).
  eexists [_]. split; [reflexivity|]. cbn. rewrite He. auto.
Qed.

Lemma stays_updateTask t :
  P (EvUpdateTask t) = true -> t_ledger fl = true -> stays fl P (updateTask t).
Proof.
  intros He Ht w. rewrite run_updateTask. unfold within. cbn.
  split; [congruence|]. repeat (split; [reflexivity|]).
  eexists [_]. split; [reflexivity|]. cbn. rewrite He. auto.
Qed.

Lemma stays_deleteByLabels labels :
  P (EvDeleteTasks labels) = true -> t_ledger fl = true ->
  stays fl P (deleteByLabels labels).
Proof.
  intros He Ht w. rewrite run_deleteByLabels. unfold within. cbn.
  split; [congruence|]. repeat (split; [reflexivity|]).
  eexists [_]. split; [reflexivity|]. cbn. rewrite He. auto.
Qed.

Lemma stays_notify : P EvNotify = true -> t_notif fl = true -> stays fl P notify.
Proof.
  intros He Ht w. unfold notify. rewrite run_modify. unfold within. cbn.
  do 4 (split; [reflexivity|]). split; [congruence|]. split; [reflexivity|].
  eexists [_]. split; [reflexivity|]. cbn. rewrite He. auto.
Qed.

Lemma stays_timeout ms :
  P (EvTimeout ms) = true -> t_clock fl = true -> stays fl P (timeout ms).
Proof.
  intros He Ht w. rewrite run_timeout. unfold within. cbn.
  do 5 (split; [reflexivity|]). split; [congruence|].
  eexists [_]. split; [reflexivity|]. cbn. rewrite He. auto.
Qed.

Lemma stays_modify_applications (g : World -> gmap (string * string) ApplicationState) :
  t_apps fl = true -> stays fl P (modify (fun w => with_applications (g w) w)).
Proof.
  intros Ht w. rewrite run_modify. unfold within. cbn.
  do 2 (split; [reflexivity|]). split; [congruence|]. repeat (split; [reflexivity|]).
  exists []. rewrite app_nil_r. auto.
Qed.

Lemma stays_modify_protectTasks (g : World -> gset string) :
  t_protect fl = true -> stays fl P (modify (fun w => with_protectTasks (g w) w)).
Proof.
  intros Ht w. rewrite run_modify. unfold within. cbn.
  do 3 (split; [reflexivity|]). split; [congruence|]. repeat (split; [reflexivity|]).
  exists []. rewrite app_nil_r. auto.
Qed.

Lemma stays_forEachM {A S} (f : S -> A -> M S) (l : list A) :
  (forall s x, stays fl P (f s x)) -> forall s, stays fl P (forEachM f l s).
Proof.
  intros Hf. induction l as [|x rest IH]; intros s; cbn [forEachM].
  - apply stays_ret.
  - apply stays_bind; [apply Hf | exact IH].
Qed.

Lemma stays_forM_ {A} (f : A -> M unit) (l : list A) :
  (forall x, stays fl P (f x)) -> stays fl P (forM_ f l).
Proof.
  intros Hf. induction l as [|x rest IH]; cbn [forM_].
  - apply stays_ret.
  - apply stays_bind; [apply Hf | intros _; exact IH].
Qed.

Lemma stays_promiseAll {A} (f : A -> M unit) (l : list A) :
  (forall x, stays fl P (f x)) -> stays fl P (promiseAll f l).
Proof.
  intros Hf. induction l as [|x rest IH]; cbn [promiseAll].
  - apply stays_ret.
  - apply stays_bind; [apply stays_attempt, Hf|]. intros r.
    apply stays_bind; [apply stays_attempt, IH|]. intros r'.
    destruct r; [apply stays_liftResult | apply stays_throw].
Qed.

Lemma stays_waitContainerIsRunning engineId container :
  P (EvInspectContainer engineId (container_Id container)) = true ->
  P (EvTimeout TIME_FRAME_MS) = true -> t_clock fl = true ->
  stays fl P (waitContainerIsRunning env engineId container).
Proof.
  intros H1 H2 H3. unfold waitContainerIsRunning.
  induction (Z.to_nat MAX_ATTEMPTS) as [|n IH]; cbn [waitAttempts].
  - apply stays_throw.
  - apply stays_bind; [apply stays_call, H1|]. intros [|]; [apply stays_ret|].
    apply stays_bind; [apply stays_timeout; assumption | intros _; exact IH].
Qed.

End Footprint.

(** Events of a kind that a footprint rules out are not in the log. *)
Lemma filter_none {A} (Q : A -> bool) (l : list A) :
  forallb (fun x => negb (Q x)) l = true -> List.filter Q l = [].
Proof.
  induction l as [|x l IH]; [reflexivity|]. cbn. intros H.
  apply andb_true_iff in H. destruct H as (Hx & Hl).
  apply negb_true_iff in Hx. rewrite Hx. apply IH, Hl.
Qed.

(** One step of a footprint proof: the rule for the construct at the head,
    its side conditions decided by evaluation. *)
Ltac stays_step :=
  first
    [ apply stays_ret | apply stays_throw | apply stays_liftResult | apply stays_gets
    | apply stays_logEvent; reflexivity
    | apply stays_randomName
    | apply stays_call; reflexivity
    | apply stays_engineRead; reflexivity
    | apply stays_engineCall; reflexivity
    | apply stays_ledgerCall; reflexivity
    | apply stays_createTask; [intros; reflexivity | reflexivity]
    | apply stays_updateTask; reflexivity
    | apply stays_deleteByLabels; reflexivity
    | apply stays_notify; reflexivity
    | apply stays_timeout; reflexivity
    | apply stays_modify_applications; reflexivity
    | apply stays_modify_protectTasks; reflexivity
    | apply stays_waitContainerIsRunning; reflexivity
    | apply stays_attempt
    | apply stays_forEachM; intros ? ?
    | apply stays_forM_; intros ?
    | apply stays_promiseAll; intros ?
    | apply stays_bind; [ | intros ? ]
    | match goal with
      | |- stays _ _ (match ?x with _ => _ end) => destruct x
      end
    | progress cbv zeta
    | progress unfold findPodByLabelsValues, getPodsWithLabels, hasApplicationPod, findPod,
        getApplicationPod, clearTasks, checkPodHealth, checkPodsHealth, stopApplication,
        removeApplication, runApplication, startApplication, attachImage,
        createContainerAndAttachToPod, mapExposedPort, createPod, createApplicationPod,
        doCheckout, cloneApplication, getConfiguration, getConfigAndFilterContainers,
        initApplication, pullApplication ].

Ltac stays_go := repeat stays_step.

(** X6. A health pass changes nothing but the registry and the number of
    notifications, and logs nothing but its reads and the notification:
    whatever the probes return, the engine's pods, the ledger, the protect
    set and the clock are as before. *)
Theorem checkPodsHealth_footprint env (w : World) :
  let w' := (checkPodsHealth env w).2 in
  enginePods w' = enginePods w
  /\ taskRegistry w' = taskRegistry w
  /\ protectTasks w' = protectTasks w
  /\ clock w' = clock w
  /\ forallb (fun e => match e with
                       | EvGetPodsWithLabels _ | EvGetHealth _ | EvNotify => true
                       | _ => false
                       end) (newEvents w w') = true
  /\ (length (List.filter isNotify (newEvents w w')) <= 1)%nat.
Proof.
  cbv zeta.
  assert (stays {| t_ledger := false; t_engine := false; t_apps := true;
                   t_protect := false; t_notif := true; t_clock := false |}
            (fun e => match e with
                      | EvGetPodsWithLabels _ | EvGetHealth _ | EvNotify => true
                      | _ => false
                      end) (checkPodsHealth env)) as H by stays_go.
  destruct (H w) as (H1 & H2 & _ & H4 & _ & H6 & more & E & F).
  rewrite (newEvents_app _ _ _ E).
  split; [apply H2; reflexivity|]. split; [apply H1; reflexivity|].
  split; [apply H4; reflexivity|]. split; [apply H6; reflexivity|].
  split; [exact F|].
  (* at most one notification: it is the last thing the pass may do *)
  clear H H1 H2 H4 H6 F.
  unfold checkPodsHealth in E. rewrite bind_unfold, run_getPodsWithLabels, bind_unfold in E.
  set (pods := PodManager_getPodsWithLabels _ _) in E.
  set (w0 := with_events _ w) in E.
  assert (stays {| t_ledger := false; t_engine := false; t_apps := true;
                   t_protect := false; t_notif := false; t_clock := false |}
            (fun e => negb (isNotify e)) (forEachM (checkPodHealth env) pods false)) as Hloop
      by stays_go.
  destruct (Hloop w0) as (_ & _ & _ & _ & _ & _ & m1 & E1 & F1).
  assert (List.filter isNotify m1 = []) as Hm1.
  { clear E1. induction m1 as [|e l IH]; [reflexivity|]. cbn in F1.
    apply andb_true_iff in F1. destruct F1 as [He Hl]. cbn.
    apply negb_true_iff in He. rewrite He. apply IH, Hl. }
  destruct (forEachM (checkPodHealth env) pods false w0) as [[changes|e] w1];
    cbn [snd] in E1.
  - destruct changes.
    + unfold notify in E. rewrite run_modify in E. cbn [snd events with_events] in E.
      rewrite E1 in E. subst w0. cbn [events with_events] in E.
      rewrite <- !app_assoc in E. apply app_inv_head in E. subst more.
      rewrite !List.filter_app, Hm1. cbn. lia.
    + rewrite run_ret in E. cbn [snd] in E. rewrite E1 in E. subst w0.
      cbn [events with_events] in E.
      rewrite <- !app_assoc in E. apply app_inv_head in E. subst more.
      rewrite !List.filter_app, Hm1. cbn. lia.
  - cbn [snd] in E. rewrite E1 in E. subst w0. cbn [events with_events] in E.
    rewrite <- !app_assoc in E. apply app_inv_head in E. subst more.
    rewrite !List.filter_app, Hm1. cbn. lia.
Qed.

(** *** The pod that [createPod] asks for *)

Section CreatePod.

Variable env : Environment.

Lemma mapExposedPort_run pms exposed w :
  mapExposedPort env pms exposed w
  = (match getPortsInfo env (tick w) exposed with
     | Ok localPorts =>
       Ok (if truthyString localPorts
           then pms ++ [ {| container_port := parseInt exposed;
                            host_port := parseInt (default "" localPorts);
                            host_ip := ""; protocol := ""; range := 1 |} ]
           else pms)
     | Throw e => Throw e
     end,
     with_tick (S (tick w)) (with_events (events w ++ [EvGetPortsInfo exposed]) w)).
Proof.
  unfold mapExposedPort. rewrite bind_unfold, run_call.
  destruct (getPortsInfo env (tick w) exposed) as [lp|e]; [|reflexivity].
  destruct (truthyString lp); reflexivity.
Qed.

Lemma portLookups_app a b : portLookups (a ++ b) = portLookups a ++ portLookups b.
Proof. apply omap_app. Qed.

Lemma createdPods_app a b : createdPods (a ++ b) = createdPods a ++ createdPods b.
Proof. apply omap_app. Qed.

(** The inner loop: the ports of one image. *)
Lemma exposedPorts_loop l : forall pms w,
  exists new,
    events (forEachM (mapExposedPort env) l pms w).2 = events w ++ new
    /\ createdPods new = []
    /\ forall pms', (forEachM (mapExposedPort env) l pms w).1 = Ok pms' ->
         portLookups new = l
         /\ exists added, pms' = pms ++ added
              /\ (length added <= length l)%nat
              /\ Forall (mappingOf l) added.
Proof.
  induction l as [|exposed rest IH]; intros pms w.
  - exists []. cbn [forEachM]. rewrite run_ret, app_nil_r. repeat split.
    injection H as <-. exists []. rewrite app_nil_r. repeat split; [cbn; lia | constructor].
  - cbn [forEachM]. rewrite bind_unfold, mapExposedPort_run.
    destruct (getPortsInfo env (tick w) exposed) as [lp|e].
    + match goal with |- context [forEachM _ rest ?p ?w1] =>
        destruct (IH p w1) as (new & E & Hc & Hok) end.
      exists ([EvGetPortsInfo exposed] ++ new).
      split; [rewrite E; cbn [events with_events with_tick]; rewrite <- app_assoc;
              reflexivity|].
      split; [rewrite createdPods_app, Hc; reflexivity|].
      intros pms' Hr. destruct (Hok pms' Hr) as (Hl & added & -> & Hlen & Hall).
      split; [rewrite portLookups_app, Hl; reflexivity|].
      assert (Forall (mappingOf (exposed :: rest)) added) as Hall'.
      { eapply Forall_impl; [exact Hall|]. intros pm (H1 & H2 & H3 & ex & Hin & Hcp).
        repeat split; try assumption. exists ex. split; [right; exact Hin | exact Hcp]. }
      destruct (truthyString lp).
      * eexists (_ :: added). rewrite <- app_assoc. split; [reflexivity|].
        split; [cbn; lia|]. constructor; [|exact Hall'].
        repeat split. exists exposed. split; [left | reflexivity].
      * exists added. split; [reflexivity|]. split; [cbn; lia | exact Hall'].
    + exists [EvGetPortsInfo exposed]. cbn [fst snd events with_events with_tick].
      split; [reflexivity|]. split; [reflexivity|]. intros pms' H. discriminate.
Qed.

(** The outer loop: the ports of every image, image after image. *)
Lemma imagePorts_loop images : forall pms w,
  exists new,
    events (forEachM (fun pms image => forEachM (mapExposedPort env) (ports image) pms)
              images pms w).2 = events w ++ new
    /\ createdPods new = []
    /\ forall pms',
         (forEachM (fun pms image => forEachM (mapExposedPort env) (ports image) pms)
            images pms w).1 = Ok pms' ->
         portLookups new = flat_map ports images
         /\ exists added, pms' = pms ++ added
              /\ (length added <= length (flat_map ports images))%nat
              /\ Forall (mappingOf (flat_map ports images)) added.
Proof.
  induction images as [|image rest IH]; intros pms w.
  - exists []. cbn [forEachM]. rewrite run_ret, app_nil_r. repeat split.
    injection H as <-. exists []. rewrite app_nil_r. repeat split; [cbn; lia | constructor].
  - cbn [forEachM flat_map]. rewrite bind_unfold.
    destruct (exposedPorts_loop (ports image) pms w) as (new1 & E1 & C1 & Hok1).
    destruct (forEachM (mapExposedPort env) (ports image) pms w) as [[pms1|e] w1];
      cbn [fst snd] in *.
    + destruct (IH pms1 w1) as (new2 & E2 & C2' & Hok2).
      exists (new1 ++ new2).
      split; [rewrite E2, E1, app_assoc; reflexivity|].
      split; [rewrite createdPods_app, C1, C2'; reflexivity|].
      intros pms' Hr.
      destruct (Hok1 pms1 eq_refl) as (L1 & a1 & -> & Len1 & All1).
      destruct (Hok2 pms' Hr) as (L2 & a2 & -> & Len2 & All2).
      split; [rewrite portLookups_app, L1, L2; reflexivity|].
      exists (a1 ++ a2). rewrite app_assoc. split; [reflexivity|].
      split; [rewrite !length_app in *; lia|].
      apply Forall_app. split.
      * eapply Forall_impl; [exact All1|]. intros pm (H1 & H2 & H3 & ex & Hin & Hcp).
        repeat split; try assumption. exists ex. split; [|exact Hcp].
        apply elem_of_app. left. exact Hin.
      * eapply Forall_impl; [exact All2|]. intros pm (H1 & H2 & H3 & ex & Hin & Hcp).
        repeat split; try assumption. exists ex. split; [|exact Hcp].
        apply elem_of_app. right. exact Hin.
    + exists new1. split; [exact E1|]. split; [exact C1|]. intros pms' H. discriminate.
Qed.

(** What [createPod] asked of the engine, if it asked. *)
Lemma createPod_created recipe model images w options :
  options ∈ createdPods (newEvents w (createPod env recipe model images w).2) ->
  exists pms,
    pc_labels options = podLabels recipe model images pms
    /\ pc_portmappings options = pms
    /\ createdPods (newEvents w (createPod env recipe model images w).2) = [options]
    /\ portLookups (newEvents w (createPod env recipe model images w).2)
       = flat_map ports images
    /\ (length pms <= length (flat_map ports images))%nat
    /\ Forall (mappingOf (flat_map ports images)) pms.
Proof.
  unfold createPod.
  destruct (List.find (fun image => negb (modelService image)) images) as [sample|].
  2:{ rewrite bind_unfold, run_logEvent, run_throw.
      erewrite newEvents_app by reflexivity. intros H. inversion H. }
  rewrite bind_unfold.
  destruct (imagePorts_loop images [] w) as (new1 & E1 & C1 & Hok).
  destruct (forEachM _ images [] w) as [[pms|e] w1]; cbn [fst snd] in *.
  2:{ erewrite newEvents_app by exact E1. rewrite C1. intros H. inversion H. }
  destruct (Hok pms eq_refl) as (L1 & added & Hadded & Hlen & Hall).
  cbn [app] in Hadded. subst added.
  rewrite bind_unfold, run_randomName, bind_unfold, run_engineCall.
  set (opts := {| pc_name := getRandomName env (tick w1) _; pc_portmappings := pms;
                  pc_labels := podLabels recipe model images pms |}).
  assert (forall w', (exists tl, events w' = (events w1 ++ [EvCreatePod opts]) ++ tl
                                 /\ createdPods tl = [] /\ portLookups tl = []) ->
                     options ∈ createdPods (newEvents w w') ->
                     exists pms0,
                       pc_labels options = podLabels recipe model images pms0
                       /\ pc_portmappings options = pms0
                       /\ createdPods (newEvents w w') = [options]
                       /\ portLookups (newEvents w w') = flat_map ports images
                       /\ (length pms0 <= length (flat_map ports images))%nat
                       /\ Forall (mappingOf (flat_map ports images)) pms0) as Hgen.
  { intros w' (tl & Ew' & Ctl & Ptl).
    erewrite newEvents_app.
    2:{ rewrite Ew', E1, <- !app_assoc. reflexivity. }
    rewrite !createdPods_app, !portLookups_app, C1, Ctl, L1, Ptl. cbn.
    rewrite app_nil_r. intros Hin. apply list_elem_of_singleton in Hin. subst options.
    exists pms. repeat split; assumption. }
  destruct (podManager_createPod env _ opts _) as [[[engineId Id]|e] pods']; cbn [fst snd].
  - rewrite run_engineCall. apply Hgen. eexists [_].
    cbn [events with_events with_tick with_enginePods snd]. split; [reflexivity|].
    split; reflexivity.
  - apply Hgen. exists []. cbn [events with_events with_tick with_enginePods snd].
    rewrite app_nil_r. auto.
Qed.

(** X7. Every pod [createPod] asks the engine for carries the
    identity of its recipe and model in its labels: read back the way
    [checkPodsHealth] reads a pod's key they give (recipe id, model id),
    and they satisfy the query [findPod] makes for that pair. The model
    ports label is there exactly when a model-service image declares a
    port, the application ports label exactly when another image does. *)
Theorem createPod_identity_labels recipe model images (w : World) options :
  options ∈ createdPods (newEvents w (createPod env recipe model images w).2) ->
  pc_labels options !! LABEL_RECIPE_ID = Some (recipe_id recipe)
  /\ pc_labels options !! LABEL_MODEL_ID = Some (mi_id model)
  /\ (forall p, pod_Labels p = pc_labels options ->
        podKey p = Some (recipe_id recipe, mi_id model)
        /\ PodManager_findPodByLabelsValues
             {[ LABEL_RECIPE_ID := recipe_id recipe; LABEL_MODEL_ID := mi_id model ]} [p]
           = Some p)
  /\ (is_Some (pc_labels options !! LABEL_MODEL_PORTS) <->
      exists img, img ∈ images /\ modelService img = true /\ ports img <> [])
  /\ (is_Some (pc_labels options !! LABEL_APP_PORTS) <->
      exists img, img ∈ images /\ modelService img = false /\ ports img <> []).
Proof.
  intros Hin. destruct (createPod_created _ _ _ _ _ Hin) as (pms & Hl & _).
  rewrite Hl. clear Hl Hin.
  assert (forall (f : ImageInfo -> bool),
             (0 <? length (map (hostPortOf pms) (flat_map ports (List.filter f images))))%nat
             = true
             <-> exists img, img ∈ images /\ f img = true /\ ports img <> []) as Hports.
  { intros f. rewrite length_map, Nat.ltb_lt. induction images as [|i l IH]; cbn.
    - split; [lia | intros (img & H & _); inversion H].
    - destruct (f i) eqn:Ef; cbn [flat_map].
      + rewrite length_app. split.
        * intros Hlen. destruct (ports i) as [|p ps] eqn:Ep.
          -- cbn in Hlen. destruct (proj1 IH Hlen) as (img & Hi & Hf & Hp).
             exists img. split; [right; exact Hi | auto].
          -- exists i. split; [left|]. split; [exact Ef | congruence].
        * intros (img & Hi & Hf & Hp). apply elem_of_cons in Hi.
          destruct Hi as [-> | Hi].
          -- destruct (ports i); [congruence | cbn; lia].
          -- assert (0 < length (flat_map ports (List.filter f l)))%nat by (apply IH; eauto).
             lia.
      + rewrite IH. split.
        * intros (img & Hi & Hf & Hp). exists img. split; [right; exact Hi | auto].
        * intros (img & Hi & Hf & Hp). apply elem_of_cons in Hi.
          destruct Hi as [-> | Hi]; [congruence | eauto]. }
  assert (podLabels recipe model images pms !! LABEL_RECIPE_ID = Some (recipe_id recipe)) as Hr.
  { unfold podLabels, LABEL_RECIPE_ID, LABEL_MODEL_ID, LABEL_MODEL_PORTS, LABEL_APP_PORTS.
    repeat match goal with |- context [if ?b then _ else _] => destruct b end;
      repeat (rewrite lookup_insert_ne by done); apply lookup_insert_eq. }
  assert (podLabels recipe model images pms !! LABEL_MODEL_ID = Some (mi_id model)) as Hm.
  { unfold podLabels, LABEL_RECIPE_ID, LABEL_MODEL_ID, LABEL_MODEL_PORTS, LABEL_APP_PORTS.
    repeat match goal with |- context [if ?b then _ else _] => destruct b end;
      repeat (rewrite lookup_insert_ne by done);
      apply lookup_singleton_eq || (rewrite lookup_insert_ne by done; apply lookup_singleton_eq). }
  split; [exact Hr|]. split; [exact Hm|]. split; [|split].
  - intros p Hp. split.
    + unfold podKey. rewrite Hp, Hr, Hm. reflexivity.
    + unfold PodManager_findPodByLabelsValues. cbn [List.find].
      assert (labelsMatch {[ LABEL_RECIPE_ID := recipe_id recipe;
                             LABEL_MODEL_ID := mi_id model ]} (pod_Labels p) = true) as ->;
        [|reflexivity].
      apply labelsMatch_spec, map_subseteq_spec. intros k v Hk. rewrite Hp.
      destruct (decide (k = LABEL_RECIPE_ID)) as [->|Hn].
      * rewrite lookup_insert_eq in Hk. congruence.
      * rewrite lookup_insert_ne in Hk by congruence.
        destruct (decide (k = LABEL_MODEL_ID)) as [->|Hn'].
        -- rewrite lookup_singleton_eq in Hk. congruence.
        -- rewrite lookup_singleton_ne in Hk by congruence. discriminate.
  - rewrite <- (Hports (fun img => modelService img)).
    unfold podLabels, LABEL_RECIPE_ID, LABEL_MODEL_ID, LABEL_MODEL_PORTS, LABEL_APP_PORTS.
    destruct (0 <? length (map (hostPortOf pms)
                             (flat_map ports (List.filter (fun img => modelService img)
                                                images))))%nat eqn:E1;
      destruct (0 <? length (map (hostPortOf pms)
                               (flat_map ports
                                  (List.filter (fun img => negb (modelService img))
                                     images))))%nat;
      repeat (rewrite lookup_insert_ne by done);
      rewrite ?lookup_insert_eq, ?lookup_singleton_ne by done;
      (split; [intros [x Hx]; congruence | intros Hx; try discriminate; eauto]).
  - assert (Happ := Hports (fun img => negb (modelService img))). cbn beta in Happ.
    etransitivity; [|etransitivity; [apply Happ|]].
    2:{ split; intros (img & Hi & Hf & Hp); exists img; (split; [exact Hi|]);
        (split; [apply negb_true_iff; exact Hf | exact Hp]). }
    clear Happ Hports.
    unfold podLabels, LABEL_RECIPE_ID, LABEL_MODEL_ID, LABEL_MODEL_PORTS, LABEL_APP_PORTS.
    destruct (0 <? length (map (hostPortOf pms)
                             (flat_map ports (List.filter (fun img => modelService img)
                                                images))))%nat;
      destruct (0 <? length (map (hostPortOf pms)
                               (flat_map ports
                                  (List.filter (fun img => negb (modelService img))
                                     images))))%nat eqn:E2;
      repeat (rewrite lookup_insert_ne by done);
      rewrite ?lookup_insert_eq, ?lookup_singleton_ne by done;
      (split; [intros [x Hx]; congruence | intros Hx; try discriminate; eauto]).
Qed.

(** X8. Before it asks for the pod, [createPod] asks for a free host port
    for every declared port of every image, once each and in order; it asks
    for one pod at most, whose port mappings are no more than the declared
    ports, each of range 1 and each for a container port read from a
    declared port. *)
Theorem createPod_port_mappings recipe model images (w : World) options :
  options ∈ createdPods (newEvents w (createPod env recipe model images w).2) ->
  createdPods (newEvents w (createPod env recipe model images w).2) = [options]
  /\ portLookups (newEvents w (createPod env recipe model images w).2)
     = flat_map ports images
  /\ (length (pc_portmappings options) <= length (flat_map ports images))%nat
  /\ Forall (mappingOf (flat_map ports images)) (pc_portmappings options).
Proof.
  intros Hin. destruct (createPod_created _ _ _ _ _ Hin) as (pms & _ & -> & H).
  exact H.
Qed.

End CreatePod.

(** *** The task of [createApplicationPod] *)

Section CreateApplicationPod.

Variable env : Environment.

Lemma stays_createPod recipe model images :
  stays engineAndClock (fun e => negb (isTaskEvent e)) (createPod env recipe model images).
Proof. stays_go. Qed.

Lemma stays_attach podInfo images model modelPath :
  stays engineAndClock (fun e => negb (isTaskEvent e))
    (createContainerAndAttachToPod env podInfo images model modelPath).
Proof. stays_go. Qed.

(** Updating the task created last, on a well-formed ledger. *)
Lemma update_last (old : list Task) (t t' : Task) k :
  (forall t0, t0 ∈ old -> task_id t0 <> task_id t') -> task_id t = task_id t' ->
  TaskRegistry_updateTask t' {| counter := k; tasks := old ++ [t] |}
  = {| counter := k; tasks := old ++ [t'] |}.
Proof.
  intros Hold Hid. unfold TaskRegistry_updateTask. cbn [counter tasks]. f_equal.
  rewrite map_app. cbn [map]. rewrite Hid, Nat.eqb_refl. f_equal.
  induction old as [|x l IH]; [reflexivity|]. cbn [map].
  destruct (Nat.eqb_spec (task_id x) (task_id t')) as [E|_].
  - exfalso. apply (Hold x); [left | exact E].
  - f_equal. apply IH. intros t0 H0. apply Hold. right. exact H0.
Qed.

(** X9. On a ledger whose ids come from its counter, [createApplicationPod]
    adds exactly one task, named 'Creating AI App', and leaves the others
    as they were. When it returns the pod the task is a success and carries
    the pod's id under 'pod-id' beside the labels given; when it throws,
    the task is in error with the message of the error thrown. *)
Theorem createApplicationPod_task recipe model images modelPath labels (w : World) :
  ledgerWellFormed (taskRegistry w) ->
  let r := createApplicationPod env recipe model images modelPath labels w in
  counter (taskRegistry r.2) = S (counter (taskRegistry w))
  /\ exists t,
       tasks (taskRegistry r.2) = tasks (taskRegistry w) ++ [t]
       /\ task_id t = S (counter (taskRegistry w))
       /\ task_name t = "Creating AI App"
       /\ match r.1 with
          | Ok podInfo =>
            task_state t = success /\ task_error t = None
            /\ task_labels t = <["pod-id" := pod_Id podInfo]> labels
          | Throw e =>
            task_state t = error
            /\ task_error t
               = Some ("Something went wrong while creating pod: " +:+ String_ e)
          end.
Proof.
  intros Hwf. cbv zeta. unfold createApplicationPod.
  rewrite bind_unfold, run_createTask. cbn [fst snd TaskRegistry_createTask].
  set (task := {| task_id := S (counter (taskRegistry w)); task_name := "Creating AI App";
                  task_state := loading; task_error := None; task_labels := labels |}).
  set (w1 := with_events _ _).
  assert (forall t0, t0 ∈ tasks (taskRegistry w) -> task_id t0 <> S (counter (taskRegistry w)))
    as Hold.
  { intros t0 H0. specialize (Hwf t0 H0). lia. }
  assert (taskRegistry w1
          = {| counter := S (counter (taskRegistry w));
               tasks := tasks (taskRegistry w) ++ [task] |}) as Hreg1 by reflexivity.
  rewrite bind_unfold, run_attempt.
  destruct (stays_createPod recipe model images w1) as (L2 & _). specialize (L2 eq_refl).
  destruct (createPod env recipe model images w1) as [[podInfo|e] w2]; cbn [fst snd] in *.
  - rewrite bind_unfold, run_updateTask. cbn [fst snd].
    set (task2 := setTaskLabels _ task).
    set (w3 := with_events _ _).
    assert (taskRegistry w3
            = {| counter := S (counter (taskRegistry w));
                 tasks := tasks (taskRegistry w) ++ [task2] |}) as Hreg3.
    { subst w3. cbn [taskRegistry with_events with_taskRegistry]. rewrite L2, Hreg1.
      apply update_last; [exact Hold | reflexivity]. }
    rewrite bind_unfold, run_attempt.
    destruct (stays_attach podInfo images model modelPath w3) as (L4 & _).
    specialize (L4 eq_refl).
    destruct (createContainerAndAttachToPod env podInfo images model modelPath w3)
      as [[[]|e] w4]; cbn [fst snd] in *.
    + rewrite bind_unfold, run_updateTask, run_ret.
      cbn [fst snd taskRegistry with_events with_taskRegistry]. rewrite L4, Hreg3.
      rewrite update_last by (exact Hold || reflexivity).
      cbn [counter tasks]. split; [reflexivity|]. eexists. split; [reflexivity|].
      repeat split.
    + rewrite bind_unfold, run_logEvent, bind_unfold, run_updateTask, run_throw.
      cbn [fst snd taskRegistry with_events with_taskRegistry]. rewrite L4, Hreg3.
      rewrite update_last by (exact Hold || reflexivity).
      cbn [counter tasks]. split; [reflexivity|]. eexists. split; [reflexivity|].
      repeat split.
  - rewrite bind_unfold, run_logEvent, bind_unfold, run_updateTask, run_throw.
    cbn [fst snd taskRegistry with_events with_taskRegistry]. rewrite L2, Hreg1.
    rewrite update_last by (exact Hold || reflexivity).
    cbn [counter tasks]. split; [reflexivity|]. eexists. split; [reflexivity|].
    repeat split.
Qed.

End CreateApplicationPod.

(** *** Stop, start, remove and restart *)

Section Lifecycle.

Variable env : Environment.
Variable getRecipeById : string -> Result Recipe.
Variable getModelById : option string -> Result ModelInfo.

Lemma run_getApplicationPod_none recipeId modelId w :
  PodManager_findPodByLabelsValues
    {[ LABEL_RECIPE_ID := recipeId; LABEL_MODEL_ID := modelId ]} (enginePods w) = None ->
  getApplicationPod recipeId modelId w
  = (Throw (noPodError recipeId modelId),
     with_events
       (events w ++ [EvFindPodByLabelsValues
                       {[ LABEL_RECIPE_ID := recipeId; LABEL_MODEL_ID := modelId ]}]) w).
Proof.
  intros H. unfold getApplicationPod, findPod.
  rewrite bind_unfold, run_findPodByLabelsValues, H. reflexivity.
Qed.

(** X10. When the engine has no pod labelled with the pair, stopping,
    starting and removing the application each throw the 'no pod found'
    error after having deleted the tasks of the pair, and do nothing else;
    restarting throws the same error and leaves the tasks alone. *)
Theorem lifecycle_without_pod recipeId modelId (w : World) :
  PodManager_findPodByLabelsValues
    {[ LABEL_RECIPE_ID := recipeId; LABEL_MODEL_ID := modelId ]} (enginePods w) = None ->
  let query := EvFindPodByLabelsValues
                 {[ LABEL_RECIPE_ID := recipeId; LABEL_MODEL_ID := modelId ]} in
  let cleared :=
    with_events (events w ++ [EvDeleteTasks (recipeModelLabels recipeId modelId); query])
      (with_taskRegistry
         (TaskRegistry_deleteByLabels (recipeModelLabels recipeId modelId) (taskRegistry w))
         w) in
  stopApplication env recipeId modelId w = (Throw (noPodError recipeId modelId), cleared)
  /\ startApplication env recipeId modelId w = (Throw (noPodError recipeId modelId), cleared)
  /\ removeApplication env recipeId modelId w = (Throw (noPodError recipeId modelId), cleared)
  /\ restartApplication env getRecipeById getModelById recipeId modelId w
     = (Throw (noPodError recipeId modelId), with_events (events w ++ [query]) w).
Proof.
  intros Hnone. cbv zeta.
  assert (stopApplication env recipeId modelId w
          = (Throw (noPodError recipeId modelId),
             with_events
               (events w ++ [EvDeleteTasks (recipeModelLabels recipeId modelId);
                             EvFindPodByLabelsValues
                               {[ LABEL_RECIPE_ID := recipeId; LABEL_MODEL_ID := modelId ]}])
               (with_taskRegistry
                  (TaskRegistry_deleteByLabels (recipeModelLabels recipeId modelId)
                     (taskRegistry w)) w))) as Hstop.
  { unfold stopApplication, clearTasks.
    rewrite bind_unfold, run_deleteByLabels, bind_unfold.
    rewrite run_getApplicationPod_none by exact Hnone.
    cbn [events with_events with_taskRegistry]. rewrite <- app_assoc. reflexivity. }
  split; [exact Hstop|]. split; [|split].
  - unfold startApplication, clearTasks.
    rewrite bind_unfold, run_deleteByLabels, bind_unfold.
    rewrite run_getApplicationPod_none by exact Hnone.
    cbn [events with_events with_taskRegistry]. rewrite <- app_assoc. reflexivity.
  - unfold removeApplication. rewrite bind_unfold, Hstop. reflexivity.
  - unfold restartApplication. rewrite bind_unfold.
    rewrite run_getApplicationPod_none by exact Hnone. reflexivity.
Qed.

Lemma run_stopApplication_exited recipeId modelId w p :
  PodManager_findPodByLabelsValues
    {[ LABEL_RECIPE_ID := recipeId; LABEL_MODEL_ID := modelId ]} (enginePods w) = Some p ->
  pod_Status p = "Exited" ->
  stopApplication env recipeId modelId w
  = (Ok p,
     with_events
       (events w ++ [EvDeleteTasks (recipeModelLabels recipeId modelId);
                     EvFindPodByLabelsValues
                       {[ LABEL_RECIPE_ID := recipeId; LABEL_MODEL_ID := modelId ]}])
       (with_taskRegistry
          (TaskRegistry_deleteByLabels (recipeModelLabels recipeId modelId) (taskRegistry w))
          w)).
Proof.
  intros Hfind Hstatus. unfold stopApplication, clearTasks.
  rewrite bind_unfold, run_deleteByLabels. rewrite bind_unfold.
  rewrite (run_getApplicationPod_found recipeId modelId _ p) by exact Hfind.
  rewrite Hstatus. change (String.eqb "Exited" "Exited") with true. cbv iota.
  rewrite run_ret. cbn [events with_events with_taskRegistry]. rewrite <- app_assoc.
  reflexivity.
Qed.

(** X11. Removing an application whose pod is found 'Exited' never throws:
    the pod is not stopped again, its removal is asked of the engine once,
    its id is put under protection, and the 'Removing AI App' task ends as
    a success named 'AI App Removed' when the engine removed the pod; when
    the engine refused, the task gets an error message and the name 'Error
    stopping AI App' while its state stays 'loading'. *)
Theorem removeApplication_exited recipeId modelId (w : World) (p : PodInfo) :
  PodManager_findPodByLabelsValues
    {[ LABEL_RECIPE_ID := recipeId; LABEL_MODEL_ID := modelId ]} (enginePods w) = Some p ->
  pod_Status p = "Exited" ->
  let r := removeApplication env recipeId modelId w in
  r.1 = Ok tt
  /\ pod_Id p ∈ protectTasks r.2
  /\ List.filter isEngineChange (newEvents w r.2) = [EvRemovePod (pod_engineId p) (pod_Id p)]
  /\ exists before t,
       newEvents w r.2 = before ++ [EvUpdateTask t]
       /\ task_labels t = recipeModelLabels recipeId modelId
       /\ match (podManager_removePod env (tick w) (pod_engineId p) (pod_Id p)
                   (enginePods w)).1 with
          | Ok _ => task_state t = success /\ task_name t = "AI App Removed"
                    /\ task_error t = None
          | Throw _ =>
            task_state t = loading /\ task_name t = "Error stopping AI App"
            /\ task_error t
               = Some "error removing the pod. Please try to remove the pod manually"
          end.
Proof.
  intros Hfind Hex. cbv zeta. unfold removeApplication.
  rewrite bind_unfold, (run_stopApplication_exited _ _ _ p Hfind Hex).
  rewrite bind_unfold, run_createTask. rewrite bind_unfold, run_modify.
  rewrite bind_unfold, run_attempt, run_engineCall.
  cbn [fst snd tick enginePods with_events with_taskRegistry with_protectTasks
       with_enginePods with_tick protectTasks events].
  rewrite run_updateTask.
  cbn [fst snd tick enginePods with_events with_taskRegistry with_protectTasks
       with_enginePods with_tick protectTasks events taskRegistry].
  split; [reflexivity|].
  split; [apply elem_of_union; left; apply elem_of_singleton; reflexivity|]. split.
  - erewrite newEvents_app.
    2:{ rewrite <- !app_assoc. reflexivity. }
    reflexivity.
  - eexists _, _. split.
    + erewrite newEvents_app.
      2:{ rewrite <- !app_assoc. reflexivity. }
      rewrite !app_assoc. reflexivity.
    + destruct (podManager_removePod env (tick w) (pod_engineId p) (pod_Id p) (enginePods w))
        as [[[]|e] pods']; cbn; repeat split.
Qed.

(** *** The task of [runApplication] *)

Lemma stays_checkPodsHealth_ledger : stays allButLedger anyEvent (checkPodsHealth env).
Proof. stays_go. Qed.

(** X12. On a ledger whose ids come from its counter, [runApplication] adds
    exactly one task, with the labels given. When it returns, the task is
    a success named 'AI App is running'. When it throws -- the pod did not
    start, a container could not be inspected or did not come up in time,
    or the health pass failed after the update -- nothing marks the task as
    failed: it is either still 'loading' under the name 'Starting AI App' or
    already the success. *)
Theorem runApplication_task podInfo labels (w : World) :
  ledgerWellFormed (taskRegistry w) ->
  let r := runApplication env podInfo labels w in
  exists t,
    tasks (taskRegistry r.2) = tasks (taskRegistry w) ++ [t]
    /\ task_id t = S (counter (taskRegistry w))
    /\ task_labels t = labels /\ task_error t = None
    /\ (r.1 = Ok tt -> task_state t = success /\ task_name t = "AI App is running")
    /\ (task_state t = loading /\ task_name t = "Starting AI App"
        \/ task_state t = success /\ task_name t = "AI App is running").
Proof.
  intros Hwf. cbv zeta. unfold runApplication.
  rewrite bind_unfold, run_createTask. cbn [fst snd TaskRegistry_createTask].
  set (task := {| task_id := S (counter (taskRegistry w)); task_name := "Starting AI App";
                  task_state := loading; task_error := None; task_labels := labels |}).
  set (w1 := with_events _ _).
  assert (forall t0, t0 ∈ tasks (taskRegistry w) -> task_id t0 <> S (counter (taskRegistry w)))
    as Hold.
  { intros t0 H0. specialize (Hwf t0 H0). lia. }
  assert (taskRegistry w1
          = {| counter := S (counter (taskRegistry w));
               tasks := tasks (taskRegistry w) ++ [task] |}) as Hreg1 by reflexivity.
  rewrite bind_unfold.
  assert (forall w0, taskRegistry
                       (engineCall (EvStartPod (pod_engineId podInfo) (pod_Id podInfo))
                          (fun t => podManager_startPod env t (pod_engineId podInfo)
                                      (pod_Id podInfo)) w0).2 = taskRegistry w0) as Hstart.
  { intros w0. rewrite run_engineCall. reflexivity. }
  specialize (Hstart w1).
  destruct (engineCall _ _ w1) as [[u|e] w2]; cbn [fst snd] in *.
  2:{ exists task. rewrite Hstart, Hreg1. cbn [tasks]. repeat split; try discriminate.
      left. split; reflexivity. }
  rewrite bind_unfold.
  assert (stays allButLedger anyEvent
            (forM_ (waitContainerIsRunning env (pod_engineId podInfo))
               (default [] (pod_Containers podInfo)))) as Hwait by stays_go.
  destruct (Hwait w2) as (L3 & _). specialize (L3 eq_refl).
  destruct (forM_ _ _ w2) as [[u3|e] w3]; cbn [fst snd] in *.
  2:{ exists task. rewrite L3, Hstart, Hreg1. cbn [tasks]. repeat split; try discriminate.
      left. split; reflexivity. }
  rewrite bind_unfold, run_updateTask.
  set (w4 := with_events _ _).
  assert (taskRegistry w4
          = {| counter := S (counter (taskRegistry w));
               tasks := tasks (taskRegistry w)
                        ++ [setTaskName "AI App is running" (setTaskState success task)] |})
    as Hreg4.
  { subst w4. cbn [taskRegistry with_events with_taskRegistry]. rewrite L3, Hstart, Hreg1.
    apply update_last; [exact Hold | reflexivity]. }
  destruct (stays_checkPodsHealth_ledger w4) as (L5 & _). specialize (L5 eq_refl).
  eexists. rewrite L5, Hreg4. cbn [tasks]. split; [reflexivity|].
  repeat split. right. split; reflexivity.
Qed.

End Lifecycle.

(** *** Checkout and configuration *)

Section Configuration.

Variable env : Environment.

(** X13. What [getConfigAndFilterContainers] returns is never empty: its
    containers are those of the parsed configuration that declare no GPU
    environment and list the host's architecture, in the order of the
    file, and there is at least one; the configuration is the one parsed
    from the path returned, and that path exists. *)
Theorem getConfigAndFilterContainers_result recipeBaseDir localFolder labels (w : World) c :
  (getConfigAndFilterContainers env recipeBaseDir localFolder labels w).1 = Ok c ->
  containers c <> []
  /\ containers c = filterContainers env (aiConfig (aiConfigFile c))
  /\ Forall (fun container =>
               cc_gpu_env container = [] /\ goarch env ∈ cc_arch container)
       (containers c)
  /\ fs_existsSync env (path (aiConfigFile c)) = true
  /\ parseYamlFile env (path (aiConfigFile c)) (goarch env) = Ok (aiConfig (aiConfigFile c)).
Proof.
  unfold getConfigAndFilterContainers.
  rewrite bind_unfold, run_createTask, bind_unfold, run_attempt.
  match goal with |- context [getConfiguration env ?b ?l ?w0] =>
    assert (forall f, (getConfiguration env b l w0).1 = Ok f ->
                      fs_existsSync env (path f) = true
                      /\ parseYamlFile env (path f) (goarch env) = Ok (aiConfig f)) as Hcfg;
    [|destruct (getConfiguration env b l w0) as [[f|e] w1]] end.
  { intros f. unfold getConfiguration.
    match goal with |- context [negb (fs_existsSync env ?p)] =>
      destruct (fs_existsSync env p) eqn:Ex; cbn [negb]; [|rewrite run_throw; discriminate]
    end.
    rewrite bind_unfold, run_logEvent.
    match goal with |- context [parseYamlFile env ?p ?a] =>
      destruct (parseYamlFile env p a) as [cfg|e] eqn:Ep
    end.
    - rewrite run_ret. cbn [fst]. intros [= <-]. cbn [path aiConfig]. split; [|exact Ep].
      destruct (fs_isDirectory env _); cbn [andb]; [|exact Ex].
      match goal with |- context [if fs_existsSync env ?q then _ else _] =>
        destruct (fs_existsSync env q) eqn:Ex'; [exact Ex' | exact Ex] end.
    - rewrite bind_unfold, run_logEvent, run_throw. discriminate. }
  2:{ cbn [fst snd]. rewrite bind_unfold, run_updateTask, run_throw. discriminate. }
  cbn [fst snd]. destruct (Hcfg f eq_refl) as (Hex & Hparse).
  destruct (0 <? length (filterContainers env (aiConfig f)))%nat eqn:Hlen.
  2:{ rewrite bind_unfold, run_updateTask, run_throw. discriminate. }
  rewrite bind_unfold, run_updateTask, run_ret. cbn [fst]. intros [= <-].
  cbn [containers aiConfigFile]. apply Nat.ltb_lt in Hlen.
  split; [intros E; rewrite E in Hlen; cbn in Hlen; lia|].
  split; [reflexivity|]. split; [|split; assumption].
  unfold filterContainers. apply Forall_forall. intros x Hx.
  apply list_elem_of_In, List.filter_In in Hx. destruct Hx as (_ & Hx).
  apply andb_true_iff in Hx. destruct Hx as (Hg & Ha). split.
  - apply Nat.eqb_eq in Hg. destruct (cc_gpu_env x); [reflexivity | discriminate].
  - apply existsb_exists in Ha. destruct Ha as (arc & Hin & Heq).
    apply String.eqb_eq in Heq. subst arc. apply list_elem_of_In. exact Hin.
Qed.

(** X14. The configuration stage creates exactly one task, 'Loading
    configuration' with the labels given, and hands it to the registry's
    [updateTask] exactly once, as the last thing it does. When the stage
    returns, the task handed over is a success. When the stage throws --
    no file, no parse, or no container left by the filter -- the code
    has set the error text of the task only: the state it hands over is
    still 'loading', and what the ledger makes of it is the registry's
    business. *)
Theorem getConfigAndFilterContainers_task recipeBaseDir localFolder labels (w : World) :
  let r := getConfigAndFilterContainers env recipeBaseDir localFolder labels w in
  let created :=
    (TaskRegistry_createTask "Loading configuration" loading labels (taskRegistry w)).1 in
  exists t,
    List.filter isTaskEvent (newEvents w r.2) = [EvCreateTask created; EvUpdateTask t]
    /\ (exists before, newEvents w r.2 = before ++ [EvUpdateTask t])
    /\ task_id t = task_id created
    /\ task_name t = "Loading configuration" /\ task_labels t = labels
    /\ match r.1 with
       | Ok _ => task_state t = success /\ task_error t = None
       | Throw e =>
         task_state t = loading
         /\ (task_error t = Some "No containers available."
             \/ task_error t
                = Some ("Something went wrong while loading configuration: "
                          +:+ String_ e +:+ "."))
       end.
Proof.
  cbv zeta. unfold getConfigAndFilterContainers.
  rewrite bind_unfold, run_createTask. cbn [fst snd TaskRegistry_createTask].
  set (task := {| task_id := S (counter (taskRegistry w));
                  task_name := "Loading configuration";
                  task_state := loading; task_error := None; task_labels := labels |}).
  set (w1 := with_events _ _).
  assert (events w1 = events w ++ [EvCreateTask task]) as E1 by reflexivity.
  rewrite bind_unfold, run_attempt.
  assert (stays noTouch (fun e => negb (isTaskEvent e))
            (getConfiguration env recipeBaseDir localFolder)) as Hst by stays_go.
  destruct (Hst w1) as (_ & _ & _ & _ & _ & _ & more & E2 & F2).
  apply filter_none in F2.
  assert (forall (t : Task) (w2 : World) (tl : list Event),
             events w2 = events w1 ++ more ->
             tl = [EvUpdateTask t] ->
             List.filter isTaskEvent (newEvents w (with_events (events w2 ++ tl) w2))
             = [EvCreateTask task; EvUpdateTask t]
             /\ exists before,
                  newEvents w (with_events (events w2 ++ tl) w2) = before ++ [EvUpdateTask t])
    as Hlog.
  { intros t w2 tl Ew2 ->. erewrite newEvents_app.
    2:{ cbn [events with_events]. rewrite Ew2, E1, <- !app_assoc. reflexivity. }
    split.
    - rewrite !List.filter_app, F2. reflexivity.
    - exists ([EvCreateTask task] ++ more). rewrite <- app_assoc. reflexivity. }
  destruct (getConfiguration env recipeBaseDir localFolder w1) as [[f|e] w2];
    cbn [fst snd] in *.
  - destruct (0 <? length (filterContainers env (aiConfig f)))%nat.
    + rewrite bind_unfold, run_updateTask, run_ret. cbn [fst snd].
      eexists. split; [|split]; [apply (Hlog _ w2 _ E2 eq_refl)..|]. repeat split.
    + rewrite bind_unfold, run_updateTask, run_throw. cbn [fst snd].
      eexists. split; [|split]; [apply (Hlog _ w2 _ E2 eq_refl)..|]. repeat split.
      left. reflexivity.
  - rewrite bind_unfold, run_updateTask, run_throw. cbn [fst snd].
    eexists. split; [|split]; [apply (Hlog _ w2 _ E2 eq_refl)..|]. repeat split.
    right. reflexivity.
Qed.

(** X15. [cloneApplication] registers the local repository exactly when the
    checkout succeeded, and then last of all, with the recipe's folder
    under the application directory as its path; a failed checkout is
    thrown on unchanged and nothing is registered. *)
Theorem cloneApplication_registers recipe labels (w : World) :
  let localFolder := path_join env [appUserDirectory env; recipe_id recipe] in
  let gitCloneInfo := {| repository := recipe_repository recipe; ref := recipe_ref recipe;
                         targetDirectory := localFolder |} in
  let r := cloneApplication env recipe labels w in
  match git_processCheckout env (tick w) gitCloneInfo with
  | Ok _ =>
    r.1 = Ok tt
    /\ exists before,
         newEvents w r.2
         = before ++ [EvRegisterRepository
                        {| lr_path := localFolder;
                           lr_sourcePath :=
                             path_join env [localFolder; default "" (recipe_basedir recipe)];
                           lr_labels := {[ "recipe-id" := recipe_id recipe ]} |}]
         /\ existsb isRegisterRepository before = false
  | Throw err =>
    r.1 = Throw err /\ existsb isRegisterRepository (newEvents w r.2) = false
  end.
Proof.
  cbv zeta. unfold cloneApplication, doCheckout. cbv zeta.
  rewrite bind_unfold, bind_unfold, run_createTask, bind_unfold, run_attempt, run_call.
  cbn [fst snd tick with_events with_taskRegistry].
  destruct (git_processCheckout env (tick w) _) as [[]|err].
  - rewrite run_updateTask, run_logEvent. cbn [fst snd events with_events with_tick
      with_taskRegistry].
    split; [reflexivity|]. erewrite newEvents_app.
    2:{ rewrite <- !app_assoc. reflexivity. }
    eexists [_; _; _]. split; reflexivity.
  - rewrite bind_unfold, run_updateTask, run_throw.
    cbn [fst snd events with_events with_tick with_taskRegistry].
    split; [reflexivity|]. erewrite newEvents_app.
    2:{ rewrite <- !app_assoc. reflexivity. }
    reflexivity.
Qed.

End Configuration.

(** *** Order and telemetry of the pull *)

Section PullOrder.

Variable env : Environment.

Lemma forallb_negb_existsb {A} (Q : A -> bool) (l : list A) :
  forallb (fun x => negb (Q x)) l = true -> existsb Q l = false.
Proof.
  induction l as [|x l IH]; [reflexivity|]. cbn. intros H.
  apply andb_true_iff in H. destruct H as (Hx & Hl).
  apply negb_true_iff in Hx. rewrite Hx, (IH Hl). reflexivity.
Qed.

(** X16. [initApplication] reaches nothing outside the manager -- no model
    download or upload, no build, no call to the engine -- unless the
    recipe was cloned and the configuration stage returned its containers:
    a failed checkout or configuration ends the preparation before any of
    them. *)
Theorem initApplication_config_first recipe model labels (w : World) :
  existsb isOutsideCall (newEvents w (initApplication env recipe model labels w).2) = true ->
  let cloned := cloneApplication env recipe (<["model-id" := mi_id model]> labels) w in
  cloned.1 = Ok tt
  /\ exists c,
       (getConfigAndFilterContainers env (recipe_basedir recipe)
          (path_join env [appUserDirectory env; recipe_id recipe]) ∅ cloned.2).1 = Ok c.
Proof.
  cbv zeta. unfold initApplication. cbv zeta. rewrite bind_unfold.
  assert (stays everything (fun e => negb (isOutsideCall e))
            (cloneApplication env recipe (<["model-id" := mi_id model]> labels))) as Hc
    by stays_go.
  destruct (Hc w) as (_ & _ & _ & _ & _ & _ & more1 & E1 & F1).
  destruct (cloneApplication env recipe (<["model-id" := mi_id model]> labels) w)
    as [[[]|e] w1]; cbn [fst snd] in *.
  2:{ erewrite newEvents_app by exact E1. rewrite (forallb_negb_existsb _ _ F1).
      discriminate. }
  rewrite bind_unfold.
  assert (stays everything (fun e => negb (isOutsideCall e))
            (getConfigAndFilterContainers env (recipe_basedir recipe)
               (path_join env [appUserDirectory env; recipe_id recipe]) ∅)) as Hg
    by stays_go.
  destruct (Hg w1) as (_ & _ & _ & _ & _ & _ & more2 & E2 & F2).
  destruct (getConfigAndFilterContainers env (recipe_basedir recipe)
              (path_join env [appUserDirectory env; recipe_id recipe]) ∅ w1)
    as [[c|e] w2]; cbn [fst snd] in *.
  - intros _. split; [reflexivity|]. exists c. reflexivity.
  - erewrite newEvents_app.
    2:{ rewrite E2, E1, <- app_assoc. reflexivity. }
    rewrite existsb_app, (forallb_negb_existsb _ _ F1), (forallb_negb_existsb _ _ F2).
    discriminate.
Qed.

(** X17. Every pull ends with exactly one telemetry record, and it is the
    last thing the pull does: the usage of 'recipe.pull' when the pull
    returns, the error of 'recipe.pull' carrying the very error thrown when
    it throws. *)
Theorem pullApplication_telemetry recipe model labels (w : World) :
  let r := pullApplication env recipe model labels w in
  exists before,
    newEvents w r.2
    = before ++ [match r.1 with
                 | Ok _ => EvTelemetryUsage "recipe.pull"
                 | Throw err => EvTelemetryError "recipe.pull" err
                 end]
    /\ existsb isTelemetry before = false.
Proof.
  cbv zeta. unfold pullApplication.
  rewrite bind_unfold, run_deleteByLabels, bind_unfold, run_attempt, bind_unfold.
  set (w1 := with_events _ _).
  assert (events w1 = events w ++ [EvDeleteTasks (recipeModelLabels (recipe_id recipe)
                                                   (mi_id model))]) as E1 by reflexivity.
  assert (stays everything (fun e => negb (isTelemetry e))
            (initApplication env recipe model labels)) as Hi by stays_go.
  destruct (Hi w1) as (_ & _ & _ & _ & _ & _ & more2 & E2 & F2).
  destruct (initApplication env recipe model labels w1) as [[podInfo|e] w2];
    cbn [fst snd] in *.
  - rewrite bind_unfold.
    assert (stays everything (fun e => negb (isTelemetry e))
              (runApplication env podInfo
                 (withRecipeModel labels (recipe_id recipe) (mi_id model)))) as Hr
      by stays_go.
    destruct (Hr w2) as (_ & _ & _ & _ & _ & _ & more3 & E3 & F3).
    destruct (runApplication env podInfo _ w2) as [[[]|e] w3]; cbn [fst snd] in *.
    + rewrite run_logEvent. cbn [fst snd]. rewrite run_ret. cbn [fst snd events with_events].
      exists ([EvDeleteTasks (recipeModelLabels (recipe_id recipe) (mi_id model))]
                ++ more2 ++ more3). split.
      * apply newEvents_app. rewrite E3, E2, E1, <- !app_assoc. reflexivity.
      * rewrite !existsb_app, (forallb_negb_existsb _ _ F2), (forallb_negb_existsb _ _ F3).
        reflexivity.
    + cbn [fst snd]. rewrite bind_unfold, run_logEvent, run_throw.
      cbn [fst snd events with_events].
      exists ([EvDeleteTasks (recipeModelLabels (recipe_id recipe) (mi_id model))]
                ++ more2 ++ more3). split.
      * apply newEvents_app. rewrite E3, E2, E1, <- !app_assoc. reflexivity.
      * rewrite !existsb_app, (forallb_negb_existsb _ _ F2), (forallb_negb_existsb _ _ F3).
        reflexivity.
  - cbn [fst snd]. rewrite bind_unfold, run_logEvent, run_throw.
    cbn [fst snd events with_events].
    exists ([EvDeleteTasks (recipeModelLabels (recipe_id recipe) (mi_id model))] ++ more2).
    split.
    + apply newEvents_app. rewrite E2, E1, <- !app_assoc. reflexivity.
    + rewrite !existsb_app, (forallb_negb_existsb _ _ F2). reflexivity.
Qed.

End PullOrder.

(** *** Adoption and forgetting *)

Section RegistryFacts.

Variable env : Environment.
Variable getPortsFromLabel : gmap string string -> string -> list Z.

Lemma adoptPod_cases pod w :
  adoptPod getPortsFromLabel pod w = (Ok tt, w)
  \/ exists key,
       podKey pod = Some key /\ key.1 <> "" /\ key.2 <> ""
       /\ applications w !! key = None
       /\ adoptPod getPortsFromLabel pod w
          = (Ok tt,
             with_events (events w ++ [EvNotify])
               (with_notifications (S (notifications w))
                  (with_applications
                     (<[key := adopted getPortsFromLabel key pod]> (applications w)) w))).
Proof.
  unfold adoptPod, podKey.
  destruct (pod_Labels pod !! LABEL_RECIPE_ID) as [rid|]; [|left; reflexivity].
  destruct (pod_Labels pod !! LABEL_MODEL_ID) as [mid|]; [|left; reflexivity].
  destruct (String.eqb_spec rid ""); [left; reflexivity|].
  destruct (String.eqb_spec mid ""); [left; reflexivity|]. cbn [orb].
  rewrite bind_unfold, run_gets.
  destruct (applications w !! (rid, mid)) eqn:E; [left; reflexivity|].
  right. exists (rid, mid). repeat split; try assumption.
Qed.

(** When the pod carries both labels, non-empty, its key is registered
    afterwards. *)
Lemma adoptPod_registers pod key w :
  podKey pod = Some key -> key.1 <> "" -> key.2 <> "" ->
  is_Some (applications (adoptPod getPortsFromLabel pod w).2 !! key).
Proof.
  intros Hk H1 H2. unfold adoptPod. unfold podKey in Hk.
  destruct (pod_Labels pod !! LABEL_RECIPE_ID) as [rid|]; [|discriminate].
  destruct (pod_Labels pod !! LABEL_MODEL_ID) as [mid|]; [|discriminate].
  injection Hk as <-. cbn [fst snd] in *.
  destruct (String.eqb_spec rid ""); [contradiction|].
  destruct (String.eqb_spec mid ""); [contradiction|]. cbn [orb].
  rewrite bind_unfold, run_gets.
  destruct (applications w !! (rid, mid)) eqn:E; cbn [defined].
  - rewrite run_ret. cbn [snd]. rewrite E. eauto.
  - unfold updateApplicationState, notify. rewrite bind_unfold, !run_modify.
    cbn [snd applications with_applications with_events with_notifications].
    rewrite lookup_insert_eq. eauto.
Qed.

Lemma adoptAll pods : forall w,
  let r := forM_ (adoptPod getPortsFromLabel) pods w in
  r.1 = Ok tt
  /\ (forall key s, applications w !! key = Some s -> applications r.2 !! key = Some s)
  /\ (forall pod key, pod ∈ pods -> podKey pod = Some key -> key.1 <> "" -> key.2 <> "" ->
        is_Some (applications r.2 !! key))
  /\ (forall key s, applications r.2 !! key = Some s ->
        applications w !! key = Some s
        \/ exists pod, pod ∈ pods /\ podKey pod = Some key
                       /\ s = adopted getPortsFromLabel key pod)
  /\ taskRegistry r.2 = taskRegistry w /\ enginePods r.2 = enginePods w
  /\ protectTasks r.2 = protectTasks w.
Proof.
  induction pods as [|pod rest IH]; intros w; cbv zeta.
  - cbn [forM_]. rewrite run_ret. cbn [fst snd]. repeat split; auto.
    intros pod key H. inversion H.
  - cbn [forM_]. rewrite bind_unfold.
    pose proof (adoptPod_registers pod) as Hreg.
    destruct (adoptPod_cases pod w) as [E | (key0 & Hk0 & Hr0 & Hm0 & Hnone & E)].
    + specialize (fun key => Hreg key w). rewrite E in *. cbn [snd] in Hreg.
      destruct (IH w) as (I1 & I2 & I3 & I4 & I5 & I6 & I7).
      split; [exact I1|]. split; [exact I2|]. split; [|split].
      * intros p key Hp Hk H1 H2. apply elem_of_cons in Hp. destruct Hp as [-> | Hp].
        -- destruct (Hreg key Hk H1 H2) as [s Hs]. exists s. apply I2. exact Hs.
        -- eapply I3; eassumption.
      * intros key s Hs. destruct (I4 key s Hs) as [H | (p & Hp & Hk & ->)];
          [left; exact H | right]. exists p. split; [right; exact Hp | auto].
      * auto.
    + rewrite E. clear Hreg.
      match goal with |- context [forM_ _ rest ?w1] =>
        destruct (IH w1) as (I1 & I2 & I3 & I4 & I5 & I6 & I7) end.
      cbn [applications with_applications with_events with_notifications taskRegistry
           enginePods protectTasks] in *.
      split; [exact I1|]. split; [|split; [|split]].
      * intros key s Hs. apply I2. rewrite lookup_insert_ne; [exact Hs|].
        intros <-. congruence.
      * intros p key Hp Hk H1 H2. apply elem_of_cons in Hp. destruct Hp as [-> | Hp].
        -- assert (key = key0) as -> by congruence.
           eexists. apply I2. apply lookup_insert_eq.
        -- eapply I3; eassumption.
      * intros key s Hs. destruct (I4 key s Hs) as [H | (p & Hp & Hk & ->)].
        -- destruct (decide (key = key0)) as [-> | Hne].
           ++ rewrite lookup_insert_eq in H. injection H as <-. right. exists pod.
              split; [left | auto].
           ++ rewrite lookup_insert_ne in H by congruence. left. exact H.
        -- right. exists p. split; [right; exact Hp | auto].
      * auto.
Qed.

(** X18. The adoption at start-up only adds to the registry: the entries
    already there are kept as they are, every pod of the engine that
    carries a non-empty recipe id and model id in its labels has an entry
    under that pair afterwards, and every new entry holds such a pod, with
    the health 'starting' and the ports read from the pod's labels. Tasks,
    engine and protect set are left alone. *)
Theorem init_startup_adopts (w : World) :
  let r := init_startup getPortsFromLabel w in
  r.1 = Ok tt
  /\ (forall key s, applications w !! key = Some s -> applications r.2 !! key = Some s)
  /\ (forall pod key, pod ∈ enginePods w -> podKey pod = Some key ->
        key.1 <> "" -> key.2 <> "" -> is_Some (applications r.2 !! key))
  /\ (forall key s, applications r.2 !! key = Some s ->
        applications w !! key = Some s
        \/ exists pod, pod ∈ enginePods w /\ podKey pod = Some key
                       /\ s = adopted getPortsFromLabel key pod)
  /\ taskRegistry r.2 = taskRegistry w /\ enginePods r.2 = enginePods w
  /\ protectTasks r.2 = protectTasks w.
Proof.
  cbv zeta. unfold init_startup. rewrite bind_unfold, run_getPodsWithLabels.
  match goal with |- context [forM_ _ ?pods ?w1] =>
    destruct (adoptAll pods w1) as (I1 & I2 & I3 & I4 & I5 & I6 & I7) end.
  cbn [applications with_events taskRegistry enginePods protectTasks] in *.
  split; [exact I1|]. split; [exact I2|]. split; [|split; [|auto]].
  - intros pod key Hp Hk H1 H2. apply (I3 pod key); try assumption.
    unfold PodManager_getPodsWithLabels. apply list_elem_of_In, List.filter_In.
    split; [apply list_elem_of_In; exact Hp|]. cbn [forallb]. rewrite andb_true_r.
    apply bool_decide_eq_true. unfold podKey in Hk.
    destruct (pod_Labels pod !! LABEL_RECIPE_ID); [eauto | discriminate].
  - intros key s Hs. destruct (I4 key s Hs) as [H | (p & Hp & Hk & ->)];
      [left; exact H | right]. exists p. split; [|auto].
    unfold PodManager_getPodsWithLabels in Hp.
    apply list_elem_of_In, List.filter_In in Hp. apply list_elem_of_In, Hp.
Qed.

(** What [forgetPodById] does when it does anything. *)
Lemma forgetPodById_cases podId w :
  forgetPodById podId w = (Ok tt, w)
  \/ exists app key,
       findByPodId podId (applications w) = Some app
       /\ podKey (state_pod app) = Some key /\ key.1 <> "" /\ key.2 <> ""
       /\ is_Some (applications w !! key)
       /\ let r := forgetPodById podId w in
          r.1 = Ok tt
          /\ applications r.2 = delete key (applications w)
          /\ notifications r.2 = S (notifications w)
          /\ enginePods r.2 = enginePods w
          /\ (if bool_decide (podId ∈ protectTasks w)
              then taskRegistry r.2 = taskRegistry w
                   /\ protectTasks r.2 = protectTasks w ∖ {[ podId ]}
              else taskRegistry r.2
                   = (TaskRegistry_createTask "AI App stopped manually" success
                        (recipeModelLabels key.1 key.2) (taskRegistry w)).2
                   /\ protectTasks r.2 = protectTasks w).
Proof.
  unfold forgetPodById. rewrite bind_unfold, run_gets.
  destruct (findByPodId podId (applications w)) as [app|] eqn:Hfind; [|left; reflexivity].
  destruct (pod_Labels (state_pod app) !! LABEL_RECIPE_ID) as [rid|] eqn:Er;
    [|left; reflexivity].
  destruct (pod_Labels (state_pod app) !! LABEL_MODEL_ID) as [mid|] eqn:Em;
    [|left; reflexivity].
  destruct (String.eqb_spec rid ""); [left; reflexivity|].
  destruct (String.eqb_spec mid ""); [left; reflexivity|]. cbn [orb].
  rewrite bind_unfold, run_gets.
  destruct (applications w !! (rid, mid)) as [st|] eqn:E; cbn [defined negb];
    [|left; reflexivity].
  right. exists app, (rid, mid). split; [reflexivity|].
  split; [unfold podKey; rewrite Er, Em; reflexivity|].
  split; [assumption|]. split; [assumption|]. split; [eauto|]. cbv zeta.
  rewrite bind_unfold, run_modify. unfold notify.
  rewrite bind_unfold, run_modify, bind_unfold, run_gets.
  cbn [protectTasks with_events with_notifications with_applications].
  destruct (bool_decide (podId ∈ protectTasks w)); cbn [negb].
  - rewrite run_modify. cbn. repeat split; reflexivity.
  - rewrite bind_unfold, run_createTask, run_ret. cbn. repeat split; reflexivity.
Qed.

Lemma findByPodId_Some podId apps app :
  findByPodId podId apps = Some app ->
  pod_Id (state_pod app) = podId /\ exists key, apps !! key = Some app.
Proof.
  unfold findByPodId. intros H. apply List.find_some in H. destruct H as (Hin & Heq).
  apply String.eqb_eq in Heq. split; [exact Heq|].
  apply list_elem_of_In, list_elem_of_fmap in Hin. destruct Hin as ([key s] & -> & Hin).
  exists key. apply elem_of_map_to_list. exact Hin.
Qed.

Lemma findByPodId_None podId apps key s :
  findByPodId podId apps = None -> apps !! key = Some s -> pod_Id (state_pod s) <> podId.
Proof.
  unfold findByPodId. intros H Hs Heq.
  eapply List.find_none in H.
  2:{ apply list_elem_of_In, list_elem_of_fmap. exists (key, s). split; [reflexivity|].
      apply elem_of_map_to_list. exact Hs. }
  cbn in H. apply String.eqb_neq in H. contradiction.
Qed.

(** X19. In a registry whose entries stand under the keys of their pods'
    labels, forgetting a pod id that no entry holds changes nothing.
    When an entry holds it, under a pair of non-empty ids, exactly that
    entry is deleted and the observers are notified once; if the pod id
    was protected the protection is used up and no task is made, otherwise
    one 'AI App stopped manually' task is added for the pair. *)
Theorem forgetPodById_forgets podId (w : World) :
  keyedByLabels (applications w) ->
  let r := forgetPodById podId w in
  match findByPodId podId (applications w) with
  | None =>
    r = (Ok tt, w)
    /\ (forall key s, applications w !! key = Some s -> pod_Id (state_pod s) <> podId)
  | Some app =>
    exists key,
      applications w !! key = Some app /\ pod_Id (state_pod app) = podId
      /\ (key.1 <> "" -> key.2 <> "" ->
          r.1 = Ok tt
          /\ applications r.2 = delete key (applications w)
          /\ notifications r.2 = S (notifications w)
          /\ (podId ∉ protectTasks r.2)
          /\ (podId ∈ protectTasks w -> taskRegistry r.2 = taskRegistry w)
          /\ (podId ∉ protectTasks w ->
              taskRegistry r.2
              = (TaskRegistry_createTask "AI App stopped manually" success
                   (recipeModelLabels key.1 key.2) (taskRegistry w)).2
              /\ protectTasks r.2 = protectTasks w))
  end.
Proof.
  intros Hkeyed. cbv zeta.
  destruct (findByPodId podId (applications w)) as [app|] eqn:Hfind.
  - destruct (findByPodId_Some _ _ _ Hfind) as (Hid & key & Hkey).
    exists key. split; [exact Hkey|]. split; [exact Hid|]. intros Hr Hm.
    pose proof (Hkeyed key app Hkey) as Hpk.
    destruct (forgetPodById_cases podId w)
      as [E | (app' & key' & Hfind' & Hpk' & _ & _ & _ & H1 & H2 & H3 & _ & H5)].
    + exfalso. revert E. unfold forgetPodById.
      rewrite bind_unfold, run_gets, Hfind. unfold podKey in Hpk.
      destruct (pod_Labels (state_pod app) !! LABEL_RECIPE_ID) as [rid|]; [|discriminate].
      destruct (pod_Labels (state_pod app) !! LABEL_MODEL_ID) as [mid|]; [|discriminate].
      injection Hpk as <-. cbn [fst snd] in *.
      destruct (String.eqb_spec rid ""); [contradiction|].
      destruct (String.eqb_spec mid ""); [contradiction|]. cbn [orb].
      rewrite bind_unfold, run_gets, Hkey. cbn [defined negb].
      rewrite bind_unfold, run_modify. unfold notify.
      rewrite bind_unfold, run_modify, bind_unfold, run_gets.
      intros E. apply (f_equal (fun x => notifications x.2)) in E. revert E.
      match goal with |- context [if ?b then _ else _] => destruct b end.
      * rewrite bind_unfold, run_createTask, run_ret. cbn. lia.
      * rewrite run_modify. cbn. lia.
    + assert (app' = app) as -> by congruence.
      assert (key' = key) as -> by congruence.
      split; [exact H1|]. split; [exact H2|]. split; [exact H3|].
      destruct (bool_decide (podId ∈ protectTasks w)) eqn:Hb.
      * apply bool_decide_eq_true in Hb. destruct H5 as (H5 & H6).
        split; [rewrite H6; apply not_elem_of_difference; right;
                apply elem_of_singleton; reflexivity|]. split; [intros _; exact H5|].
        intros Hn. contradiction.
      * apply bool_decide_eq_false in Hb. destruct H5 as (H5 & H6).
        split; [rewrite H6; exact Hb|]. split; [intros Hin; contradiction|].
        intros _. split; assumption.
  - split.
    + unfold forgetPodById. rewrite bind_unfold, run_gets, Hfind. reflexivity.
    + intros key s. apply findByPodId_None. exact Hfind.
Qed.

End RegistryFacts.

(** *** The registry stays keyed by the labels of its pods *)

Section Keyed.

Variable env : Environment.
Variable getPortsFromLabel : gmap string string -> string -> list Z.

Lemma keyed_insert apps key s :
  keyedByLabels apps -> podKey (state_pod s) = Some key -> keyedByLabels (<[key := s]> apps).
Proof.
  intros Hk Hs key' s' H. destruct (decide (key' = key)) as [-> | Hne].
  - rewrite lookup_insert_eq in H. congruence.
  - rewrite lookup_insert_ne in H by congruence. apply Hk. exact H.
Qed.

Lemma keyed_delete apps key : keyedByLabels apps -> keyedByLabels (delete key apps).
Proof.
  intros Hk key' s' H. apply lookup_delete_Some in H. apply Hk, H.
Qed.

Lemma checkPodHealth_keyed changes p w :
  keyedByLabels (applications w) ->
  keyedByLabels (applications (checkPodHealth env changes p w).2).
Proof.
  intros Hk. unfold checkPodHealth.
  destruct (podKey p) as [[recipeId modelId]|] eqn:Hp; [|exact Hk].
  rewrite bind_unfold, run_gets.
  destruct (applications w !! (recipeId, modelId)) as [st|] eqn:Est; [|exact Hk].
  rewrite bind_unfold, run_call.
  destruct (podManager_getHealth env (tick w) p) as [h|e]; [|exact Hk].
  rewrite bind_unfold.
  destruct (bool_decide (state_health st <> h)).
  - rewrite bind_unfold, run_modify, run_ret.
    cbn [state_pod setPod]. rewrite String.eqb_refl. cbn [negb].
    rewrite run_ret. cbn. apply keyed_insert; [exact Hk | exact Hp].
  - rewrite run_ret.
    destruct (negb (pod_Status p =? pod_Status (state_pod st))%string).
    + rewrite bind_unfold, run_modify, run_ret. cbn.
      apply keyed_insert; [exact Hk | exact Hp].
    + rewrite run_ret. exact Hk.
Qed.

Lemma checkPodsHealth_keyed w :
  keyedByLabels (applications w) -> keyedByLabels (applications (checkPodsHealth env w).2).
Proof.
  unfold checkPodsHealth. rewrite bind_unfold, run_getPodsWithLabels, bind_unfold.
  set (pods := PodManager_getPodsWithLabels _ _).
  set (w0 := with_events _ w). change (applications w) with (applications w0).
  generalize false. generalize w0. clear w0.
  induction pods as [|p rest IH]; intros w0 changes Hk.
  - cbn [forEachM]. rewrite run_ret. destruct changes; exact Hk.
  - cbn [forEachM]. rewrite bind_unfold.
    pose proof (checkPodHealth_keyed changes p w0 Hk) as Hstep.
    destruct (checkPodHealth env changes p w0) as [[changes'|e] w1]; cbn [snd] in Hstep.
    + apply IH. exact Hstep.
    + exact Hstep.
Qed.

Lemma adoptPod_keyed pod w :
  keyedByLabels (applications w) ->
  keyedByLabels (applications (adoptPod getPortsFromLabel pod w).2).
Proof.
  intros Hk. destruct (adoptPod_cases getPortsFromLabel pod w)
    as [-> | (key & Hp & _ & _ & _ & ->)]; [exact Hk|].
  cbn. apply keyed_insert; [exact Hk | exact Hp].
Qed.

Lemma forgetPodById_keyed podId w :
  keyedByLabels (applications w) ->
  keyedByLabels (applications (forgetPodById podId w).2).
Proof.
  intros Hk. destruct (forgetPodById_cases podId w)
    as [-> | (app & key & _ & _ & _ & _ & _ & _ & -> & _)]; [exact Hk|].
  apply keyed_delete, Hk.
Qed.

(** The tasks made when the machine stops: one for each key. *)
Lemma stopTasks_run keys : forall w,
  let r := forM_ (fun '(recipeId, modelId) =>
                    createTask "AI App stopped manually" success
                      (recipeModelLabels recipeId modelId);;
                    mret tt) keys w in
  r.1 = Ok tt
  /\ applications r.2 = applications w /\ notifications r.2 = notifications w
  /\ enginePods r.2 = enginePods w /\ protectTasks r.2 = protectTasks w
  /\ counter (taskRegistry r.2) = (counter (taskRegistry w) + length keys)%nat
  /\ exists new,
       tasks (taskRegistry r.2) = tasks (taskRegistry w) ++ new
       /\ map task_labels new = map (fun key => recipeModelLabels key.1 key.2) keys
       /\ Forall (fun t => task_name t = "AI App stopped manually"
                           /\ task_state t = success
                           /\ (counter (taskRegistry w) < task_id t)%nat) new.
Proof.
  induction keys as [|[recipeId modelId] rest IH]; intros w; cbv zeta.
  - cbn [forM_]. rewrite run_ret. cbn [fst snd length]. repeat split; try lia.
    exists []. rewrite app_nil_r. repeat split. constructor.
  - cbn [forM_]. rewrite bind_unfold, bind_unfold, run_createTask, run_ret.
    match goal with |- context [forM_ _ rest ?w1] =>
      destruct (IH w1) as (I1 & I2 & I3 & I4 & I5 & I6 & new & I7 & I8 & I9) end.
    cbn [applications notifications enginePods protectTasks taskRegistry with_events
         with_taskRegistry TaskRegistry_createTask fst snd counter tasks] in *.
    split; [exact I1|]. repeat (split; [assumption|]).
    split; [rewrite I6; cbn [length]; lia|].
    eexists (_ :: new). split; [rewrite I7, <- app_assoc; reflexivity|].
    split; [cbn [map]; rewrite I8; reflexivity|].
    constructor; [cbn; repeat split; lia|].
    eapply Forall_impl; [exact I9|]. cbn. intros t (H1 & H2 & H3). repeat split; try assumption.
    lia.
Qed.

(** X20. Adopting a pod, forgetting a pod, a health pass, the adoption at
    start-up and the machine stopping all keep the registry keyed by the
    labels of its pods: afterwards, as before, every entry stands under
    the (recipe id, model id) that the labels of the pod it holds give. *)
Theorem registry_keyed_by_labels (w : World) (pod : PodInfo) (podId : string) :
  keyedByLabels (applications w) ->
  keyedByLabels (applications (adoptPod getPortsFromLabel pod w).2)
  /\ keyedByLabels (applications (forgetPodById podId w).2)
  /\ keyedByLabels (applications (checkPodsHealth env w).2)
  /\ keyedByLabels (applications (init_startup getPortsFromLabel w).2)
  /\ keyedByLabels (applications (init_onMachineStop w).2).
Proof.
  intros Hk. split; [apply adoptPod_keyed, Hk|]. split; [apply forgetPodById_keyed, Hk|].
  split; [apply checkPodsHealth_keyed, Hk|]. split.
  - unfold init_startup. rewrite bind_unfold, run_getPodsWithLabels.
    set (pods := PodManager_getPodsWithLabels _ _).
    set (w0 := with_events _ w). change (applications w) with (applications w0) in Hk.
    revert Hk. generalize w0. clear w0.
    induction pods as [|p rest IH]; intros w0 Hk.
    + exact Hk.
    + cbn [forM_]. rewrite bind_unfold.
      pose proof (adoptPod_keyed p w0 Hk) as Hstep.
      destruct (adoptPod_cases getPortsFromLabel p w0)
        as [E | (key & _ & _ & _ & _ & E)]; rewrite E in *; apply IH, Hstep.
  - unfold init_onMachineStop. rewrite bind_unfold, run_gets, bind_unfold.
    destruct (stopTasks_run (map_to_list (applications w)).*1 w) as (I1 & _).
    destruct (forM_ _ _ w) as [[[]|e] w1]; [|discriminate].
    rewrite bind_unfold, run_modify. unfold notify. rewrite run_modify. cbn.
    intros key s H. rewrite lookup_empty in H. discriminate.
Qed.

(** X21. When the machine stops, the registry is emptied and the observers
    are notified once; one 'AI App stopped manually' task, a success, is
    added for each pair that was registered, labelled with that pair, and
    no other; the tasks already there stay. *)
Theorem init_onMachineStop_clears (w : World) :
  let r := init_onMachineStop w in
  r.1 = Ok tt
  /\ applications r.2 = ∅
  /\ notifications r.2 = S (notifications w)
  /\ enginePods r.2 = enginePods w
  /\ exists new,
       tasks (taskRegistry r.2) = tasks (taskRegistry w) ++ new
       /\ length new = size (applications w)
       /\ map task_labels new
          ≡ₚ map (fun key => recipeModelLabels key.1 key.2) (map_to_list (applications w)).*1
       /\ Forall (fun t => task_name t = "AI App stopped manually"
                           /\ task_state t = success
                           /\ (counter (taskRegistry w) < task_id t)%nat) new.
Proof.
  cbv zeta. unfold init_onMachineStop. rewrite bind_unfold, run_gets, bind_unfold.
  destruct (stopTasks_run (map_to_list (applications w)).*1 w)
    as (I1 & I2 & I3 & I4 & I5 & I6 & new & I7 & I8 & I9).
  destruct (forM_ _ _ w) as [[[]|e] w1]; [|discriminate]. cbn [fst snd] in *.
  rewrite bind_unfold, run_modify. unfold notify. rewrite run_modify.
  cbn [fst snd applications notifications enginePods taskRegistry with_applications
       with_events with_notifications].
  split; [reflexivity|]. split; [reflexivity|]. split; [congruence|]. split; [exact I4|].
  exists new. split; [exact I7|]. split; [|split; [rewrite I8; reflexivity | exact I9]].
  apply (f_equal length) in I8. rewrite !length_map in I8. rewrite I8.
  apply length_map_to_list.
Qed.

End Keyed.

(** *** Stopping a pod that runs; removal and the protect set *)

Section StopRemove.

Variable env : Environment.

(** X22. When the pod found for the pair is not 'Exited', [stopApplication]
    asks the engine to stop that pod, once, and changes nothing else on
    the engine. A refusal of the engine is not thrown: it is written to
    the 'Stopping AI App' task, which gets the error message and the name
    'Error stopping AI App' while its state stays 'loading'; after a stop
    that worked the task is a success named 'AI App Stopped'. What is
    returned is the pod as it was found; only the health pass that follows
    can make the call throw. *)
Theorem stopApplication_running recipeId modelId (w : World) (p : PodInfo) :
  PodManager_findPodByLabelsValues
    {[ LABEL_RECIPE_ID := recipeId; LABEL_MODEL_ID := modelId ]} (enginePods w) = Some p ->
  pod_Status p <> "Exited" ->
  let r := stopApplication env recipeId modelId w in
  let stopped :=
    (podManager_stopPod env (tick w) (pod_engineId p) (pod_Id p) (enginePods w)).1 in
  List.filter isEngineChange (newEvents w r.2) = [EvStopPod (pod_engineId p) (pod_Id p)]
  /\ (r.1 = Ok p \/ exists w0 e, (checkPodsHealth env w0).1 = Throw e /\ r.1 = Throw e)
  /\ exists t,
       EvUpdateTask t ∈ newEvents w r.2
       /\ task_labels t = recipeModelLabels recipeId modelId
       /\ match stopped with
          | Ok _ => task_state t = success /\ task_name t = "AI App Stopped"
                    /\ task_error t = None
          | Throw err =>
            task_state t = loading /\ task_name t = "Error stopping AI App"
            /\ task_error t = Some ("Error removing the pod.: " +:+ String_ err)
          end.
Proof.
  intros Hfind Hst. cbv zeta. unfold stopApplication, clearTasks.
  rewrite bind_unfold, run_deleteByLabels. rewrite bind_unfold.
  rewrite (run_getApplicationPod_found recipeId modelId _ p) by exact Hfind.
  destruct (String.eqb_spec (pod_Status p) "Exited") as [E|_]; [contradiction|].
  rewrite bind_unfold, run_createTask. rewrite bind_unfold, run_attempt, run_engineCall.
  cbn [fst snd tick enginePods with_events with_taskRegistry with_enginePods with_tick
       events taskRegistry TaskRegistry_createTask].
  rewrite bind_unfold, run_updateTask. rewrite bind_unfold.
  match goal with |- context [checkPodsHealth env ?wx] =>
    set (w3 := wx);
    assert (stays allButLedger (fun e => negb (isEngineChange e)) (checkPodsHealth env)) as Hh
      by stays_go;
    destruct (Hh w3) as (_ & _ & _ & _ & _ & _ & more & Em & Fm);
    destruct (checkPodsHealth env w3) as [[[]|e] w4] eqn:Ehealth
  end; cbn [fst snd] in *.
  - rewrite run_ret. cbn [fst snd]. split; [|split; [left; reflexivity|]].
    + erewrite newEvents_app.
      2:{ rewrite Em. subst w3. cbn [events with_events with_tick with_enginePods
            with_taskRegistry]. rewrite <- !app_assoc. reflexivity. }
      cbn [app List.filter isEngineChange]. f_equal.
      clear -Fm. induction more as [|x l IH]; [reflexivity|]. cbn in *.
      apply andb_true_iff in Fm. destruct Fm as (Hx & Hl). apply negb_true_iff in Hx.
      rewrite Hx. apply IH, Hl.
    + eexists. split.
      * erewrite newEvents_app.
        2:{ rewrite Em. subst w3. cbn [events with_events with_tick with_enginePods
              with_taskRegistry]. rewrite <- !app_assoc. reflexivity. }
        do 4 right. left.
      * destruct (podManager_stopPod env (tick w) (pod_engineId p) (pod_Id p) (enginePods w))
          as [[[]|err] pods']; cbn; repeat split.
  - split; [|split; [right; exists w3, e; rewrite Ehealth; split; reflexivity|]].
    + erewrite newEvents_app.
      2:{ rewrite Em. subst w3. cbn [events with_events with_tick with_enginePods
            with_taskRegistry]. rewrite <- !app_assoc. reflexivity. }
      cbn [app List.filter isEngineChange]. f_equal.
      clear -Fm. induction more as [|x l IH]; [reflexivity|]. cbn in *.
      apply andb_true_iff in Fm. destruct Fm as (Hx & Hl). apply negb_true_iff in Hx.
      rewrite Hx. apply IH, Hl.
    + eexists. split.
      * erewrite newEvents_app.
        2:{ rewrite Em. subst w3. cbn [events with_events with_tick with_enginePods
              with_taskRegistry]. rewrite <- !app_assoc. reflexivity. }
        do 4 right. left.
      * destruct (podManager_stopPod env (tick w) (pod_engineId p) (pod_Id p) (enginePods w))
          as [[[]|err] pods']; cbn; repeat split.
Qed.

(** [stopApplication] returns the pod it found. *)
Lemma stopApplication_returns_found recipeId modelId w p p' :
  PodManager_findPodByLabelsValues
    {[ LABEL_RECIPE_ID := recipeId; LABEL_MODEL_ID := modelId ]} (enginePods w) = Some p ->
  (stopApplication env recipeId modelId w).1 = Ok p' -> p' = p.
Proof.
  intros Hfind. unfold stopApplication, clearTasks.
  rewrite bind_unfold, run_deleteByLabels. rewrite bind_unfold.
  rewrite (run_getApplicationPod_found recipeId modelId _ p) by exact Hfind.
  destruct (String.eqb (pod_Status p) "Exited").
  - rewrite run_ret. cbn [fst]. congruence.
  - rewrite bind_unfold, run_createTask. rewrite bind_unfold, run_attempt, run_engineCall.
    rewrite bind_unfold, run_updateTask. rewrite bind_unfold.
    match goal with |- context [checkPodsHealth env ?wx] =>
      destruct (checkPodsHealth env wx) as [[[]|e] w4] end.
    + rewrite run_ret. cbn [fst]. congruence.
    + cbn [fst]. discriminate.
Qed.

(** X23. A removal that returns has put the id of the pod it found under
    protection. Forgetting that pod afterwards -- what the engine's removal
    event triggers -- therefore never adds an 'AI App stopped manually'
    task: either no entry holds the pod and nothing changes, the protection
    staying in place, or one entry is deleted and the protection is used
    up. *)
Theorem removeApplication_protects recipeId modelId (w : World) (p : PodInfo) :
  PodManager_findPodByLabelsValues
    {[ LABEL_RECIPE_ID := recipeId; LABEL_MODEL_ID := modelId ]} (enginePods w) = Some p ->
  (removeApplication env recipeId modelId w).1 = Ok tt ->
  let w1 := (removeApplication env recipeId modelId w).2 in
  let w2 := (forgetPodById (pod_Id p) w1).2 in
  pod_Id p ∈ protectTasks w1
  /\ taskRegistry w2 = taskRegistry w1
  /\ (w2 = w1
      \/ (exists key, is_Some (applications w1 !! key)
                      /\ applications w2 = delete key (applications w1))
         /\ protectTasks w2 = protectTasks w1 ∖ {[ pod_Id p ]}).
Proof.
  intros Hfind Hok. cbv zeta.
  assert (pod_Id p ∈ protectTasks (removeApplication env recipeId modelId w).2) as Hprot.
  { revert Hok. unfold removeApplication. rewrite bind_unfold.
    pose proof (stopApplication_returns_found recipeId modelId w p) as Hret.
    specialize (fun p' => Hret p' Hfind).
    destruct (stopApplication env recipeId modelId w) as [[p'|e] w0]; cbn [fst] in Hret;
      [|discriminate].
    rewrite (Hret p' eq_refl). intros _.
    rewrite bind_unfold, run_createTask. rewrite bind_unfold, run_modify.
    rewrite bind_unfold, run_attempt, run_engineCall. cbn [fst snd]. rewrite run_updateTask.
    cbn [snd protectTasks with_events with_taskRegistry with_enginePods with_tick
         with_protectTasks].
    apply elem_of_union. left. apply elem_of_singleton. reflexivity. }
  split; [exact Hprot|].
  destruct (forgetPodById_cases (pod_Id p) (removeApplication env recipeId modelId w).2)
    as [E | (app & key & _ & _ & _ & _ & Hreg & _ & Hdel & _ & _ & H5)].
  - rewrite E. cbn [snd]. split; [reflexivity | left; reflexivity].
  - rewrite bool_decide_eq_true_2 in H5 by exact Hprot. destruct H5 as (H5 & H6).
    split; [exact H5|]. right. split; [|exact H6]. exists key. split; assumption.
Qed.

End StopRemove.

(** *** A second health pass is quiet *)

Section Settling.

Variable env : Environment.
Variable obs : PodInfo -> PodHealth.
Hypothesis Hobs : forall t p, podManager_getHealth env t p = Ok (obs p).

Lemma checkPodsHealth_run w :
  let pods :=
    PodManager_getPodsWithLabels [LABEL_RECIPE_ID; LABEL_MODEL_ID] (enginePods w) in
  let r := checkPodsHealth env w in
  applications r.2 = (specReconcile obs pods (applications w) false).1
  /\ notifications r.2
     = (if (specReconcile obs pods (applications w) false).2
        then S (notifications w) else notifications w)
  /\ enginePods r.2 = enginePods w.
Proof.
  cbv zeta. unfold checkPodsHealth.
  rewrite bind_unfold, run_getPodsWithLabels, bind_unfold.
  set (pods := PodManager_getPodsWithLabels _ _).
  set (w0 := with_events _ w).
  destruct (checkPods_refines env obs Hobs pods false w0) as (H1 & H2 & H3 & H4 & _).
  destruct (forEachM (checkPodHealth env) pods false w0) as [r1 w1]. cbn [fst snd] in *.
  subst r1. change (applications w0) with (applications w) in *.
  change (notifications w0) with (notifications w) in *.
  change (enginePods w0) with (enginePods w) in *.
  destruct (specReconcile obs pods (applications w) false).2.
  - unfold notify. rewrite run_modify. cbn. rewrite H2, H3, H4. auto.
  - rewrite run_ret. cbn. rewrite H2, H3, H4. auto.
Qed.

(** X24. When the health of a pod does not change between two passes and no
    two of the engine's labelled pods carry the same pair, the second of
    two health passes in a row changes nothing in the registry and
    notifies nobody: one pass brings the registry up to date. *)
Theorem checkPodsHealth_settles (w : World) :
  (forall p q k,
      p ∈ PodManager_getPodsWithLabels [LABEL_RECIPE_ID; LABEL_MODEL_ID] (enginePods w) ->
      q ∈ PodManager_getPodsWithLabels [LABEL_RECIPE_ID; LABEL_MODEL_ID] (enginePods w) ->
      podKey p = Some k -> podKey q = Some k -> p = q) ->
  let w1 := (checkPodsHealth env w).2 in
  let w2 := (checkPodsHealth env w1).2 in
  applications w2 = applications w1 /\ notifications w2 = notifications w1.
Proof.
  intros Huniq. cbv zeta.
  destruct (checkPodsHealth_run w) as (A1 & _ & E1).
  destruct (checkPodsHealth_run (checkPodsHealth env w).2) as (A2 & N2 & _).
  rewrite E1 in A2, N2.
  set (pods := PodManager_getPodsWithLabels _ (enginePods w)) in *.
  set (apps1 := applications (checkPodsHealth env w).2) in *.
  assert (specReconcile obs pods apps1 false = (apps1, false)) as Hquiet.
  { apply specReconcile_quiet. intros p k st' Hp Hk Hst'.
    assert (is_Some (applications w !! k)) as [st Hst].
    { apply elem_of_dom. rewrite <- (specReconcile_dom obs pods (applications w) false).
      rewrite <- A1. apply elem_of_dom. eauto. }
    destruct (observedChange obs st p) eqn:Hch.
    - assert (apps1 !! k = Some (setPod p (setHealth (obs p) st))) as Hnew.
      { subst apps1. rewrite A1. apply specReconcile_updates; try assumption.
        intros q Hq Hqk. symmetry. eapply Huniq; eassumption. }
      rewrite Hnew in Hst'. injection Hst' as <-. apply observedChange_settled.
    - assert (apps1 !! k = Some st) as Hsame.
      { subst apps1. rewrite A1, <- Hst. apply specReconcile_frame.
        intros p0 st0 Hp0 Hk0 Hst0. assert (p0 = p) as -> by (eapply Huniq; eassumption).
        congruence. }
      congruence. }
  rewrite A2, N2, Hquiet. split; reflexivity.
Qed.

End Settling.

(** *** An inspection that fails *)

Section InspectError.

Variable env : Environment.
Variable engineId : string.
Variable container : PodContainerInfo.

(** X25. When the inspection of the container throws, the wait ends there
    and throws that error: after [k] inspections that found the container
    not running, it has slept [k] times five seconds, inspected once more,
    and neither sleeps nor inspects again. *)
Theorem waitContainerIsRunning_inspect_error (w : World) (k : nat) (e : Error) :
  (k < 720)%nat ->
  (forall i, (i < k)%nat ->
     containerEngine_inspectContainer env (tick w + i)%nat engineId (container_Id container)
     = Ok false) ->
  containerEngine_inspectContainer env (tick w + k)%nat engineId (container_Id container)
  = Throw e ->
  waitContainerIsRunning env engineId container w
  = (Throw e,
     with_tick (S (tick w + k))
       (with_events
          (events w ++ pollLog k engineId (container_Id container)
             ++ [EvInspectContainer engineId (container_Id container)])
          (with_clock (clock w + 5000 * Z.of_nat k) w))).
Proof.
  intros Hk Hnot Herr. unfold waitContainerIsRunning. rewrite MAX_ATTEMPTS_nat.
  replace 720%nat with (k + S (719 - k))%nat by lia.
  rewrite waitAttempts_polls by exact Hnot.
  cbn [waitAttempts]. rewrite bind_unfold, run_call.
  cbn [afterPolls tick with_events with_tick with_clock].
  rewrite Herr. f_equal. unfold TIME_FRAME_MS.
  unfold afterPolls, with_events, with_tick, with_clock.
  cbn [taskRegistry enginePods applications protectTasks notifications clock tick events].
  f_equal. rewrite <- app_assoc. reflexivity.
Qed.

End InspectError.

(** *** Start and restart of a pod that is there *)

Section StartRestart.

Variable env : Environment.
Variable getPortsFromLabel : gmap string string -> string -> list Z.
Variable getRecipeById : string -> Result Recipe.
Variable getModelById : option string -> Result ModelInfo.

(** X26. Starting an application whose pod is found asks the engine for
    one thing only, to start that pod: whether the start, the wait for the
    containers or the health pass then succeed or fail, no pod or container
    is created, stopped or removed. *)
Theorem startApplication_starts_found recipeId modelId (w : World) (p : PodInfo) :
  PodManager_findPodByLabelsValues
    {[ LABEL_RECIPE_ID := recipeId; LABEL_MODEL_ID := modelId ]} (enginePods w) = Some p ->
  List.filter isEngineChange (newEvents w (startApplication env recipeId modelId w).2)
  = [EvStartPod (pod_engineId p) (pod_Id p)].
Proof.
  intros Hfind. unfold startApplication, clearTasks.
  rewrite bind_unfold, run_deleteByLabels. rewrite bind_unfold.
  rewrite (run_getApplicationPod_found recipeId modelId _ p) by exact Hfind.
  unfold runApplication. rewrite bind_unfold, run_createTask.
  rewrite bind_unfold, run_engineCall.
  cbn [fst snd tick enginePods with_events with_taskRegistry with_enginePods with_tick
       events taskRegistry TaskRegistry_createTask].
  destruct (podManager_startPod env (tick w) (pod_engineId p) (pod_Id p) (enginePods w))
    as [[[]|e] pods']; cbn [fst snd].
  - match goal with |- context [newEvents w (?m ?wx).2] =>
      assert (stays everything (fun e => negb (isEngineChange e)) m) as Hrest by stays_go;
      destruct (Hrest wx) as (_ & _ & _ & _ & _ & _ & more & Em & Fm)
    end.
    erewrite newEvents_app.
    2:{ rewrite Em. cbn [events with_events with_tick with_enginePods with_taskRegistry].
        rewrite <- !app_assoc. reflexivity. }
    cbn [app List.filter isEngineChange]. rewrite (filter_none _ _ Fm). reflexivity.
  - erewrite newEvents_app.
    2:{ cbn [events with_events with_tick with_enginePods with_taskRegistry].
        rewrite <- !app_assoc. reflexivity. }
    reflexivity.
Qed.

(** The removal is in the log of a [removeApplication] that returned. *)
Lemma removeApplication_logged recipeId modelId w p :
  PodManager_findPodByLabelsValues
    {[ LABEL_RECIPE_ID := recipeId; LABEL_MODEL_ID := modelId ]} (enginePods w) = Some p ->
  (removeApplication env recipeId modelId w).1 = Ok tt ->
  EvRemovePod (pod_engineId p) (pod_Id p)
  ∈ newEvents w (removeApplication env recipeId modelId w).2.
Proof.
  intros Hfind. unfold removeApplication. rewrite bind_unfold.
  pose proof (stopApplication_returns_found env recipeId modelId w p) as Hret.
  specialize (fun p' => Hret p' Hfind).
  assert (stays everything anyEvent (stopApplication env recipeId modelId)) as Hst
    by stays_go.
  destruct (Hst w) as (_ & _ & _ & _ & _ & _ & more & Em & _).
  destruct (stopApplication env recipeId modelId w) as [[p'|e] w0]; cbn [fst snd] in *;
    [|discriminate].
  rewrite (Hret p' eq_refl). intros _.
  rewrite bind_unfold, run_createTask. rewrite bind_unfold, run_modify.
  rewrite bind_unfold, run_attempt, run_engineCall. cbn [fst snd]. rewrite run_updateTask.
  erewrite newEvents_app.
  2:{ cbn [snd events with_events with_tick with_enginePods with_taskRegistry
           with_protectTasks]. rewrite Em, <- !app_assoc. reflexivity. }
  apply elem_of_app. right. right. left.
Qed.

(** X27. Restarting removes the pod before it looks the recipe and the model
    up in the catalog: when the removal has returned and the catalog then
    does not know the recipe, or the model named by the pod's label, the
    restart throws the catalog's error with the pod's removal already
    asked of the engine, and prepares nothing anew. *)
Theorem restartApplication_removes_first recipeId modelId (w : World) (p : PodInfo)
    (e : Error) :
  PodManager_findPodByLabelsValues
    {[ LABEL_RECIPE_ID := recipeId; LABEL_MODEL_ID := modelId ]} (enginePods w) = Some p ->
  let found :=
    with_events
      (events w ++ [EvFindPodByLabelsValues
                      {[ LABEL_RECIPE_ID := recipeId; LABEL_MODEL_ID := modelId ]}]) w in
  (removeApplication env recipeId modelId found).1 = Ok tt ->
  getRecipeById recipeId = Throw e
  \/ (isOk (getRecipeById recipeId) = true
      /\ getModelById (pod_Labels p !! LABEL_MODEL_ID) = Throw e) ->
  let r := restartApplication env getRecipeById getModelById recipeId modelId w in
  r = (Throw e, (removeApplication env recipeId modelId found).2)
  /\ EvRemovePod (pod_engineId p) (pod_Id p) ∈ newEvents w r.2
  /\ existsb isRegisterRepository (newEvents w r.2) = false.
Proof.
  intros Hfind found Hok Hcat. cbv zeta.
  assert (restartApplication env getRecipeById getModelById recipeId modelId w
          = (Throw e, (removeApplication env recipeId modelId found).2)) as Hrun.
  { unfold restartApplication. rewrite bind_unfold.
    rewrite (run_getApplicationPod_found recipeId modelId _ p) by exact Hfind.
    fold found. rewrite bind_unfold.
    destruct (removeApplication env recipeId modelId found) as [[[]|e'] w1];
      cbn [fst snd] in *; [|discriminate].
    rewrite bind_unfold. unfold liftResult at 1.
    destruct Hcat as [Hr | (Hr & Hm)].
    - rewrite Hr. reflexivity.
    - destruct (getRecipeById recipeId) as [recipe|e']; [|discriminate].
      rewrite bind_unfold. unfold liftResult at 1. rewrite Hm. reflexivity. }
  rewrite Hrun. cbn [snd]. split; [reflexivity|].
  assert (stays everything (fun e => negb (isRegisterRepository e))
            (removeApplication env recipeId modelId)) as Hst by stays_go.
  destruct (Hst found) as (_ & _ & _ & _ & _ & _ & more & Em & Fm).
  pose proof (removeApplication_logged recipeId modelId found p Hfind Hok) as Hlog.
  erewrite newEvents_app in Hlog by exact Em.
  erewrite newEvents_app.
  2:{ rewrite Em. subst found. cbn [events with_events]. rewrite <- app_assoc. reflexivity. }
  split.
  - apply elem_of_app. right. exact Hlog.
  - rewrite existsb_app, (forallb_negb_existsb _ _ Fm). reflexivity.
Qed.

(** X28. After a pod carrying a non-empty recipe id and model id has been
    adopted, the application ports of that pair can be asked for: they are
    those of the entry that was registered before, if there was one, and
    otherwise the ports read from the adopted pod's labels. *)
Theorem adoptPod_then_ports (pod : PodInfo) (key : string * string) (recipe : Recipe)
    (w : World) :
  podKey pod = Some key -> key.1 <> "" -> key.2 <> "" ->
  getRecipeById key.1 = Ok recipe ->
  (getApplicationPorts getRecipeById key.1 key.2 (adoptPod getPortsFromLabel pod w).2).1
  = Ok (match applications w !! key with
        | Some s => state_appPorts s
        | None => getPortsFromLabel (pod_Labels pod) LABEL_APP_PORTS
        end).
Proof.
  intros Hk H1 H2 Hrecipe. destruct key as [rid mid]. cbn [fst snd] in *.
  unfold getApplicationPorts. rewrite bind_unfold. unfold liftResult at 1. rewrite Hrecipe.
  rewrite bind_unfold, run_gets.
  unfold adoptPod. unfold podKey in Hk.
  destruct (pod_Labels pod !! LABEL_RECIPE_ID) as [rid'|]; [|discriminate].
  destruct (pod_Labels pod !! LABEL_MODEL_ID) as [mid'|]; [|discriminate].
  injection Hk as -> ->.
  destruct (String.eqb_spec rid ""); [contradiction|].
  destruct (String.eqb_spec mid ""); [contradiction|]. cbn [orb].
  rewrite bind_unfold, run_gets.
  destruct (applications w !! (rid, mid)) eqn:E; cbn [defined].
  - rewrite run_ret. cbn [snd]. rewrite E. reflexivity.
  - unfold updateApplicationState, notify. rewrite bind_unfold, !run_modify.
    cbn [snd applications with_applications with_events with_notifications].
    rewrite lookup_insert_eq. reflexivity.
Qed.

End StartRestart.

(** *** The further theorems on the example engine *)

Lemma trackedWorld_keyed : keyedByLabels (applications trackedWorld).
Proof.
  intros key s H. unfold trackedWorld in H. cbn [applications with_applications] in H.
  apply lookup_singleton_Some in H. destruct H as [<- <-]. vm_compute. reflexivity.
Qed.

(** The pod of the two example images. *)
Lemma createPod_identity_labels_witness :
  pc_labels examplePodOptions !! LABEL_RECIPE_ID = Some "r1"
  /\ pc_labels examplePodOptions !! LABEL_MODEL_ID = Some "m1"
  /\ is_Some (pc_labels examplePodOptions !! LABEL_MODEL_PORTS).
Proof.
  destruct (createPod_identity_labels happyEnv recipeR1 modelM1 exampleImages emptyWorld
              examplePodOptions ltac:(vm_compute; left)) as (H1 & H2 & _ & H4 & _).
  split; [exact H1|]. split; [exact H2|]. apply H4.
  eexists. split; [left|]. split; [reflexivity | discriminate].
Defined.

Lemma createPod_port_mappings_witness :
  portLookups (newEvents emptyWorld
                 (createPod happyEnv recipeR1 modelM1 exampleImages emptyWorld).2)
  = ["8000"; "8501"]
  /\ Forall (mappingOf ["8000"; "8501"]) (pc_portmappings examplePodOptions).
Proof.
  destruct (createPod_port_mappings happyEnv recipeR1 modelM1 exampleImages emptyWorld
              examplePodOptions ltac:(vm_compute; left)) as (_ & H2 & _ & H4).
  split; [exact H2 | exact H4].
Defined.

(** One more task on the ledger left by an earlier pull. *)
Lemma createApplicationPod_task_witness :
  let w := with_taskRegistry staleLedger emptyWorld in
  let r := createApplicationPod happyEnv recipeR1 modelM1 exampleImages "/models/model.gguf"
             (recipeModelLabels "r1" "m1") w in
  counter (taskRegistry r.2) = 3%nat
  /\ exists t, tasks (taskRegistry r.2) = tasks staleLedger ++ [t]
               /\ task_name t = "Creating AI App".
Proof.
  intros w r.
  destruct (createApplicationPod_task happyEnv recipeR1 modelM1 exampleImages
              "/models/model.gguf" (recipeModelLabels "r1" "m1") w staleLedger_wellFormed)
    as (Hc & t & Ht & _ & Hn & _).
  split; [exact Hc|]. exists t. split; [exact Ht | exact Hn].
Defined.

(** No pod at all on the engine. *)
Lemma lifecycle_without_pod_witness :
  let w := with_taskRegistry staleLedger emptyWorld in
  (stopApplication happyEnv "r1" "m1" w).1 = Throw (noPodError "r1" "m1")
  /\ (restartApplication happyEnv emptyCatalogRecipe emptyCatalogModel "r1" "m1" w).1
     = Throw (noPodError "r1" "m1")
  /\ taskRegistry
       (restartApplication happyEnv emptyCatalogRecipe emptyCatalogModel "r1" "m1" w).2
     = staleLedger.
Proof.
  intros w.
  destruct (lifecycle_without_pod happyEnv emptyCatalogRecipe emptyCatalogModel "r1" "m1" w
              eq_refl) as (H1 & _ & _ & H4).
  rewrite H1, H4. repeat split.
Defined.

Lemma removeApplication_exited_witness :
  let w := with_enginePods [podR1M1 "Exited"] emptyWorld in
  let r := removeApplication happyEnv "r1" "m1" w in
  r.1 = Ok tt /\ "pod-old" ∈ protectTasks r.2
  /\ List.filter isEngineChange (newEvents w r.2) = [EvRemovePod "podman" "pod-old"].
Proof.
  intros w r.
  destruct (removeApplication_exited happyEnv "r1" "m1" w (podR1M1 "Exited")
              ltac:(vm_compute; reflexivity) eq_refl) as (H1 & H2 & H3 & _).
  split; [exact H1|]. split; [exact H2 | exact H3].
Defined.

Lemma runApplication_task_witness :
  let w := with_enginePods [podR1M1 "Created"] (with_taskRegistry staleLedger emptyWorld) in
  let r := runApplication happyEnv (podR1M1 "Created") (recipeModelLabels "r1" "m1") w in
  exists t, tasks (taskRegistry r.2) = tasks staleLedger ++ [t]
            /\ task_id t = 3%nat
            /\ task_labels t = recipeModelLabels "r1" "m1".
Proof.
  intros w r.
  destruct (runApplication_task happyEnv (podR1M1 "Created") (recipeModelLabels "r1" "m1") w
              staleLedger_wellFormed) as (t & Ht & Hid & Hl & _).
  exists t. split; [exact Ht|]. split; [exact Hid | exact Hl].
Defined.

(** The example configuration, read for recipe r1. *)
Lemma getConfigAndFilterContainers_result_witness :
  (getConfigAndFilterContainers happyEnv None "/home/user/ai-lab/r1" ∅ emptyWorld).1
  = Ok exampleContainers
  /\ containers exampleContainers <> []
  /\ Forall (fun container => cc_gpu_env container = [] /\ "amd64" ∈ cc_arch container)
       (containers exampleContainers).
Proof.
  assert ((getConfigAndFilterContainers happyEnv None "/home/user/ai-lab/r1" ∅ emptyWorld).1
          = Ok exampleContainers) as H by (vm_compute; reflexivity).
  split; [exact H|].
  destruct (getConfigAndFilterContainers_result happyEnv None "/home/user/ai-lab/r1" ∅
              emptyWorld exampleContainers H) as (H1 & _ & H3 & _).
  split; [exact H1 | exact H3].
Defined.

(** The happy preparation does reach the outside, so its clone and its
    configuration stage returned. *)
Lemma initApplication_config_first_witness :
  (cloneApplication happyEnv recipeR1 (<["model-id" := "m1"]> ∅) emptyWorld).1 = Ok tt.
Proof.
  exact (proj1 (initApplication_config_first happyEnv recipeR1 modelM1 ∅ emptyWorld
                  ltac:(vm_compute; reflexivity))).
Defined.

(** The tracked pod is removed by hand: its entry goes, one notification,
    one task. *)
Lemma forgetPodById_forgets_witness :
  let r := forgetPodById "pod-old" trackedWorld in
  applications r.2 = delete ("r1", "m1") (applications trackedWorld)
  /\ notifications r.2 = 1%nat.
Proof.
  intros r.
  pose proof (forgetPodById_forgets "pod-old" trackedWorld trackedWorld_keyed) as H.
  cbv zeta in H.
  destruct (findByPodId "pod-old" (applications trackedWorld)) as [app|] eqn:E;
    [|vm_compute in E; discriminate E].
  destruct H as (key & Hkey & _ & H).
  unfold trackedWorld in Hkey. cbn [applications with_applications] in Hkey.
  apply lookup_singleton_Some in Hkey. destruct Hkey as [<- _].
  destruct (H ltac:(discriminate) ltac:(discriminate)) as (_ & H2 & H3 & _).
  split; [exact H2 | exact H3].
Defined.

Lemma registry_keyed_by_labels_witness :
  keyedByLabels (applications (checkPodsHealth happyEnv trackedWorld).2)
  /\ keyedByLabels (applications (forgetPodById "pod-old" trackedWorld).2).
Proof.
  destruct (registry_keyed_by_labels happyEnv examplePortsFromLabel trackedWorld
              (podR1M1 "Running") "pod-old" trackedWorld_keyed) as (_ & H2 & H3 & _).
  split; [exact H3 | exact H2].
Defined.

(** Stopping the tracked pod, which runs. *)
Lemma stopApplication_running_witness :
  List.filter isEngineChange
    (newEvents trackedWorld (stopApplication happyEnv "r1" "m1" trackedWorld).2)
  = [EvStopPod "podman" "pod-old"].
Proof.
  exact (proj1 (stopApplication_running happyEnv "r1" "m1" trackedWorld (podR1M1 "Running")
                  ltac:(vm_compute; reflexivity) ltac:(discriminate))).
Defined.

Lemma removeApplication_protects_witness :
  let w1 := (removeApplication happyEnv "r1" "m1" trackedWorld).2 in
  "pod-old" ∈ protectTasks w1
  /\ taskRegistry (forgetPodById "pod-old" w1).2 = taskRegistry w1.
Proof.
  intros w1.
  destruct (removeApplication_protects happyEnv "r1" "m1" trackedWorld (podR1M1 "Running")
              ltac:(vm_compute; reflexivity) ltac:(vm_compute; reflexivity))
    as (H1 & H2 & _).
  split; [exact H1 | exact H2].
Defined.

(** Two passes over the tracked pod: the second is quiet. *)
Lemma checkPodsHealth_settles_witness :
  let w1 := (checkPodsHealth happyEnv trackedWorld).2 in
  let w2 := (checkPodsHealth happyEnv w1).2 in
  applications w2 = applications w1 /\ notifications w2 = notifications w1.
Proof.
  apply (checkPodsHealth_settles happyEnv (fun _ => healthy) (fun _ _ => eq_refl)
           trackedWorld).
  intros p q k Hp Hq _ _. vm_compute in Hp, Hq.
  apply list_elem_of_singleton in Hp, Hq. congruence.
Defined.

(** The third inspection fails, after 10 s. *)
Lemma waitContainerIsRunning_inspect_error_witness :
  let c := {| container_Id := "c1" |} in
  (waitContainerIsRunning brokenInspectEnv "podman" c emptyWorld).1
  = Throw (mkError "no such container")
  /\ clock (waitContainerIsRunning brokenInspectEnv "podman" c emptyWorld).2 = 10000.
Proof.
  intros c.
  rewrite (waitContainerIsRunning_inspect_error brokenInspectEnv "podman" c emptyWorld 2
             (mkError "no such container")); [split; reflexivity | lia | | reflexivity].
  intros i Hi. destruct i as [|[|i]]; [reflexivity | reflexivity | lia].
Defined.

Lemma startApplication_starts_found_witness :
  let w := with_enginePods [podR1M1 "Exited"] emptyWorld in
  List.filter isEngineChange (newEvents w (startApplication happyEnv "r1" "m1" w).2)
  = [EvStartPod "podman" "pod-old"].
Proof.
  intros w.
  exact (startApplication_starts_found happyEnv "r1" "m1" w (podR1M1 "Exited")
           ltac:(vm_compute; reflexivity)).
Defined.

(** Restarting the tracked pod with a catalog that does not know r1. *)
Lemma restartApplication_removes_first_witness :
  let r := restartApplication happyEnv emptyCatalogRecipe emptyCatalogModel "r1" "m1"
             trackedWorld in
  r.1 = Throw (mkError "No recipe found with id r1")
  /\ EvRemovePod "podman" "pod-old" ∈ newEvents trackedWorld r.2.
Proof.
  intros r.
  destruct (restartApplication_removes_first happyEnv emptyCatalogRecipe emptyCatalogModel
              "r1" "m1" trackedWorld (podR1M1 "Running") (mkError "No recipe found with id r1")
              ltac:(vm_compute; reflexivity) ltac:(vm_compute; reflexivity)
              ltac:(left; reflexivity)) as (H1 & H2 & _).
  split; [unfold r; rewrite H1; reflexivity | exact H2].
Defined.

Lemma adoptPod_then_ports_witness :
  (getApplicationPorts exampleCatalogRecipe "r1" "m1"
     (adoptPod examplePortsFromLabel (podR1M1 "Running") emptyWorld).2).1
  = Ok (examplePortsFromLabel (pod_Labels (podR1M1 "Running")) LABEL_APP_PORTS).
Proof.
  exact (adoptPod_then_ports examplePortsFromLabel exampleCatalogRecipe (podR1M1 "Running")
           ("r1", "m1") recipeR1 emptyWorld ltac:(vm_compute; reflexivity)
           ltac:(discriminate) ltac:(discriminate) eq_refl).
Defined.

End ApplicationManagerFacts.
